(** * SecureChat: a shallow embedding of the messaging core

    This development embeds, function by function, the parts of the
    SecureChat repository that its specification talks about:

    - package [crypto]  (identity keys, safety numbers, the constant-time
      comparator, the simplified Double Ratchet session);
    - package [network] (the relay server's client table and router, the
      client's reconnection loop).

    Go slices of bytes are lists of [byte] where a function only reads them
    or builds new ones, and windows of backing arrays in an explicit memory
    where it appends to slices the caller holds; [uint32] and [time.Duration] are
    integers with their wrap-around written out; a method that mutates its
    receiver returns the new receiver next to its result; the CSRNG is an
    explicit entropy tape; the third-party primitives (SHA-256, HKDF, X25519,
    ChaCha20-Poly1305) are the fields of a record the definitions are
    parameterised by. *)

From Stdlib Require Import ZArith NArith Lia Strings.Byte Strings.String DecimalString.
From stdpp Require Import gmap strings list fin_maps.

Set Default Proof Using "Type".
Local Open Scope Z_scope.

(** ** Bytes and machine integers *)

Abbreviation bytes := (list byte).

#[global] Instance byte_eq_decision : EqDecision byte := Byte.byte_eq_dec.

(** Conversion of an integer to a Go [byte]: the low eight bits. *)
Definition byte_of_N (n : N) : byte :=
  match Byte.of_N (n mod 256)%N with
  | Some b => b
  | None => x00
  end.

Definition byte_of_Z (z : Z) : byte := byte_of_N (Z.to_N (z mod 256)).

(** Go's [a ^ b] and [a | b] on bytes. *)
Definition byte_xor (a b : byte) : byte :=
  byte_of_N (N.lxor (Byte.to_N a) (Byte.to_N b)).

Definition byte_or (a b : byte) : byte :=
  byte_of_N (N.lor (Byte.to_N a) (Byte.to_N b)).

(** [uint32] arithmetic wraps modulo 2^32. *)
Definition u32 (z : Z) : Z := z mod 2 ^ 32.

(** [int64] arithmetic (the representation of [time.Duration]) wraps in
    two's complement. *)
Definition i64 (z : Z) : Z := (z + 2 ^ 63) mod 2 ^ 64 - 2 ^ 63.

(** Go compares strings, and byte slices converted to strings, byte by byte;
    a proper prefix is smaller. *)
Fixpoint bytes_ltb (a b : bytes) : bool :=
  match a, b with
  | [], [] => false
  | [], _ :: _ => true
  | _ :: _, [] => false
  | x :: a', y :: b' =>
      if (Byte.to_N x <? Byte.to_N y)%N then true
      else if (Byte.to_N y <? Byte.to_N x)%N then false
      else bytes_ltb a' b'
  end.

(** [fmt.Sprintf("%d", n)] for a non-negative [n]. *)
Definition Sprintf_d (n : N) : string := NilEmpty.string_of_uint (N.to_uint n).

(** ** Results of fallible calls

    A Go call either returns a value, returns an [error], or panics.  Errors
    keep the shape [fmt.Errorf("...: %w", err)] gives them. *)

Inductive error : Type :=
| errors_New (msg : string)
| Errorf (msg : string) (cause : error).

Inductive result (A : Type) : Type :=
| Ok (a : A)
| Err (e : error)
| Panic (msg : string).
Arguments Ok {A} a.
Arguments Err {A} e.
Arguments Panic {A} msg.

Definition is_Ok {A} (r : result A) : bool :=
  match r with Ok _ => true | _ => false end.

#[global] Instance result_ret : MRet result := @Ok.
#[global] Instance result_bind : MBind result := λ A B f r,
  match r with
  | Ok a => f a
  | Err e => Err e
  | Panic msg => Panic msg
  end.

(** [fmt.Errorf(msg + ": %w", err)] applied to the error of a failed call. *)
Definition wrap {A} (msg : string) (r : result A) : result A :=
  match r with
  | Err e => Err (Errorf msg e)
  | _ => r
  end.

(** ** The CSRNG

    [rand.Read(buf)] fills [buf] from the operating system's generator.  The
    generator is an entropy tape: a read takes the next [n] bytes, and fails
    when the tape cannot supply them. *)

Abbreviation Entropy := (list byte) (only parsing).

Definition rand_Read (n : nat) (tape : Entropy) : result bytes * Entropy :=
  if decide (n ≤ length tape)%nat
  then (Ok (take n tape), drop n tape)
  else (Err (errors_New "crypto/rand: read failed"), tape).

(** ** Third-party primitives

    The functions of [crypto/sha256] and [golang.org/x/crypto] the package
    calls.  [hkdf_okm secret salt info n] is the first [n] bytes of the HKDF
    output stream; [aead_seal] and [aead_open] take key, nonce, text and
    additional data, in that order. *)

Record Primitives : Type := {
  sha256_Sum256 : bytes → bytes;
  hkdf_okm : bytes → bytes → bytes → nat → bytes;
  curve25519_scalarmult : bytes → bytes → option bytes;
  aead_seal : bytes → bytes → bytes → bytes → bytes;
  aead_open : bytes → bytes → bytes → bytes → option bytes;
}.

(** What the package relies on from the AEAD: a sealed text opens, under the
    key, nonce and additional data it was sealed with, to the plaintext; and
    a SHA-256 digest has 32 bytes. *)
Record PrimitivesLaws (P : Primitives) : Prop := {
  Sum256_length : ∀ m, length (sha256_Sum256 P m) = 32%nat;
  open_seal : ∀ key nonce plaintext ad,
    aead_open P key nonce (aead_seal P key nonce plaintext ad) ad = Some plaintext;
  seal_length : ∀ key nonce plaintext ad,
    length (aead_seal P key nonce plaintext ad) = (length plaintext + 16)%nat;
}.

(** ** Go slices in memory

    A slice is a window of a backing array: the array, where the window
    starts, how many bytes it holds ([len]) and how many the array has from
    its start on ([cap]).  [append(s, data...)] writes [data] into the backing
    array behind the window while [cap] lasts, whoever else holds a slice of
    that array, and copies to a new array when it does not.  How much room the
    runtime gives a new array is [growslice]'s business. *)
Module goslice.

Record slice : Type := {
  array : positive;
  offset : nat;
  len : nat;
  cap : nat;
}.

Abbreviation Memory := (gmap positive bytes).

(** The bytes of a slice. *)
Definition contents (mem : Memory) (s : slice) : bytes :=
  take (len s) (drop (offset s) (default [] (mem !! array s))).

(** [copy] into an array from index [i] on. *)
Definition write (arr : bytes) (i : nat) (data : bytes) : bytes :=
  take i arr ++ data ++ drop (i + length data) arr.

(** The window of a slice lies within its array. *)
Definition within (mem : Memory) (s : slice) : Prop :=
  ∃ arr,
    mem !! array s = Some arr
    ∧ (offset s + len s ≤ length arr)%nat
    ∧ (offset s + cap s ≤ length arr)%nat.

Section WithRuntime.
Context (growslice : nat → nat → nat).

(** [append(s, data...)], [data] being the bytes of the second slice read
    before anything is written, as [memmove] has it. *)
Definition append (mem : Memory) (s : slice) (data : bytes) : slice * Memory :=
  if decide (len s + length data ≤ cap s)%nat then
    ({| array := array s; offset := offset s; len := len s + length data; cap := cap s |},
     match mem !! array s with
     | Some arr => <[array s := write arr (offset s + len s) data]> mem
     | None => mem
     end)
  else
    let p := fresh (dom mem) in
    let newLen := (len s + length data)%nat in
    let newCap := growslice (cap s) newLen in
    ({| array := p; offset := 0; len := newLen; cap := newCap |},
     <[p := contents mem s ++ data ++ replicate (newCap - newLen) x00]> mem).

End WithRuntime.
End goslice.

Module crypto.

(** *** keys.go *)

Record KeyPair : Type := {
  PublicKey : bytes;
  PrivateKey : bytes;
}.

Record IdentityKeyPair : Type := {
  SigningKey : KeyPair;
  ExchangeKey : KeyPair;
  Fingerprint : string;
}.

(** An identity in memory, for the function that appends to its slices:
    [SigningKey.PublicKey] and [ExchangeKey.PublicKey] as slices; the other
    fields are not read there. *)
Record IdentityKeyPair_slices : Type := {
  SigningKey_PublicKey : goslice.slice;
  ExchangeKey_PublicKey : goslice.slice;
}.

(** *** encryption.go: data *)

Record EncryptedMessage : Type := {
  Ciphertext : bytes;
  Nonce : bytes;
  Tag : bytes;
}.

Record ChainState : Type := {
  ChainKey : bytes;
  MessageNumber : Z;
}.

(** The session.  [SendingChain] and [ReceivingChain] are pointers in the
    source; each is created by the session and reachable only through it, so
    the record holds the chain states themselves.  The session's own
    [MessageNumber] field is [SessionMessageNumber] here, the name being taken
    by the chain state's field. *)
Record DoubleRatchet : Type := {
  RootKey : bytes;
  SendingChain : ChainState;
  ReceivingChain : ChainState;
  DHSelf : KeyPair;
  DHRemote : bytes;
  SessionMessageNumber : Z;
  PreviousCounter : Z;
}.

(** [curve25519.Basepoint]: the u-coordinate 9. *)
Definition Basepoint : bytes := x09 :: replicate 31 x00.

(** [chacha20poly1305]'s sizes. *)
Definition KeySize : nat := 32.
Definition NonceSize : nat := 12.
Definition Overhead : nat := 16.

Definition errOpen : error :=
  errors_New "chacha20poly1305: message authentication failed".

(** [hkdf.New] returns a reader over the output stream; [io.ReadFull] takes
    the next [n] bytes and fails past the 255-block limit of HKDF. *)
Record hkdf_Reader : Type := {
  hkdf_secret : bytes;
  hkdf_salt : bytes;
  hkdf_info : bytes;
  hkdf_pos : nat;
}.

Definition hkdf_New (secret salt info : bytes) : hkdf_Reader :=
  {| hkdf_secret := secret; hkdf_salt := salt; hkdf_info := info; hkdf_pos := 0 |}.

Section WithPrimitives.
Context (P : Primitives).

Definition io_ReadFull (r : hkdf_Reader) (n : nat) : result bytes * hkdf_Reader :=
  if decide (hkdf_pos r + n ≤ 255 * 32)%nat
  then (Ok (drop (hkdf_pos r)
              (hkdf_okm P (hkdf_secret r) (hkdf_salt r) (hkdf_info r) (hkdf_pos r + n))),
        {| hkdf_secret := hkdf_secret r; hkdf_salt := hkdf_salt r;
           hkdf_info := hkdf_info r; hkdf_pos := hkdf_pos r + n |})
  else (Err (errors_New "hkdf: entropy limit reached"), r).

(** [curve25519.X25519(scalar, point)]. *)
Definition X25519 (scalar point : bytes) : result bytes :=
  match curve25519_scalarmult P scalar point with
  | Some out => Ok out
  | None => Err (errors_New "curve25519: bad input")
  end.

(** [chacha20poly1305.New(key)]: the cipher is its key. *)
Definition chacha20poly1305_New (key : bytes) : result bytes :=
  if decide (length key = KeySize) then Ok key
  else Err (errors_New "chacha20poly1305: bad key length").

(** [aead.Seal(nil, nonce, plaintext, additionalData)]. *)
Definition Seal (aead nonce plaintext additionalData : bytes) : result bytes :=
  if decide (length nonce = NonceSize) then
    if decide (Z.of_nat (length plaintext) ≤ 2 ^ 38 - 64)
    then Ok (aead_seal P aead nonce plaintext additionalData)
    else Panic "chacha20poly1305: plaintext too large"
  else Panic "chacha20poly1305: bad nonce length passed to Seal".

(** [aead.Open(nil, nonce, ciphertext, additionalData)]. *)
Definition Open (aead nonce ciphertext additionalData : bytes) : result bytes :=
  if decide (length nonce = NonceSize) then
    if decide (length ciphertext < Overhead)%nat then Err errOpen
    else if decide (Z.of_nat (length ciphertext) ≤ 2 ^ 38 - 48) then
      match aead_open P aead nonce ciphertext additionalData with
      | Some plaintext => Ok plaintext
      | None => Err errOpen
      end
    else Panic "chacha20poly1305: ciphertext too large"
  else Panic "chacha20poly1305: bad nonce length passed to Open".

(** *** keys.go: functions *)

(** The loop of [GetSafetyNumber] over the digest.  [hash] is a [[32]byte]:
    [len(hash)] is 32 and every index below it holds a byte. *)
Definition safetyNumber_loop (hash : bytes) : string :=
  foldl (λ safetyNumber i,
           let safetyNumber :=
             if (0 <? i)%nat then safetyNumber +:+ " " else safetyNumber in
           foldl (λ safetyNumber j,
                    let byteIndex := ((i * 5 + j) `mod` 32)%nat in
                    let digit := (Byte.to_N (nth byteIndex hash x00) mod 10)%N in
                    safetyNumber +:+ Sprintf_d digit)
                 safetyNumber (seq 0 5))
        "" (seq 0 12).

(** [GetSafetyNumber], with the memory its three [append]s work on.  The
    first two append to the signing public keys of the two identities, in
    place when those slices have room for the exchange key. *)
Definition GetSafetyNumber (growslice : nat → nat → nat) (mem : goslice.Memory)
    (localIdentity remoteIdentity : IdentityKeyPair_slices) : string * goslice.Memory :=
  let '(localCombined, mem) :=
    goslice.append growslice mem (SigningKey_PublicKey localIdentity)
      (goslice.contents mem (ExchangeKey_PublicKey localIdentity)) in
  let '(remoteCombined, mem) :=
    goslice.append growslice mem (SigningKey_PublicKey remoteIdentity)
      (goslice.contents mem (ExchangeKey_PublicKey remoteIdentity)) in
  let '(combined, mem) :=
    if bytes_ltb (goslice.contents mem localCombined) (goslice.contents mem remoteCombined)
    then goslice.append growslice mem localCombined (goslice.contents mem remoteCombined)
    else goslice.append growslice mem remoteCombined (goslice.contents mem localCombined) in
  let hash := sha256_Sum256 P (goslice.contents mem combined) in
  (safetyNumber_loop hash, mem).

(** [SecureCompare]: the loop runs over the indices of [a], which are those
    of [b] once the lengths agree. *)
Definition SecureCompare (a b : bytes) : bool :=
  if negb (length a =? length b)%nat then false
  else
    let result :=
      foldl (λ result ab, byte_or result (byte_xor ab.1 ab.2)) x00 (zip a b) in
    bool_decide (result = x00).

(** *** encryption.go: functions *)

Definition deriveRootKey (sharedSecret : bytes) : bytes :=
  sha256_Sum256 P sharedSecret.

Definition deriveChainKey (rootKey localPublic remotePublic : bytes) : result bytes :=
  let combined := localPublic ++ remotePublic in
  let hkdf := hkdf_New rootKey [] combined in
  wrap "failed to derive chain key" (io_ReadFull hkdf 32).1.

Definition deriveMessageKey (chainKey : bytes) (messageNumber : Z) : bytes :=
  let hash :=
    sha256_Sum256 P
      (chainKey ++ [byte_of_Z messageNumber; byte_of_Z (messageNumber ≫ 8);
                    byte_of_Z (messageNumber ≫ 16); byte_of_Z (messageNumber ≫ 24)]) in
  take 32 hash.

Definition advanceChainKey (chainKey : bytes) : bytes :=
  take 32 (sha256_Sum256 P (chainKey ++ [x01])).

(** The two reads ignore their errors: a failed read leaves the buffer
    [make([]byte, 32)] allocated. *)
Definition deriveRootAndChainKeys (rootKey dhOutput : bytes) : bytes * bytes :=
  let hkdf := hkdf_New dhOutput rootKey (list_byte_of_string "SecureChat-RootChain") in
  let '(r1, hkdf) := io_ReadFull hkdf 32 in
  let '(r2, hkdf) := io_ReadFull hkdf 32 in
  let newRootKey := match r1 with Ok b => b | _ => replicate 32 x00 end in
  let newChainKey := match r2 with Ok b => b | _ => replicate 32 x00 end in
  (newRootKey, newChainKey).

Definition encryptWithKey (plaintext key : bytes) (tape : Entropy)
  : result EncryptedMessage * Entropy :=
  match wrap "failed to create AEAD cipher" (chacha20poly1305_New key) with
  | Ok aead =>
      let '(r, tape) := rand_Read NonceSize tape in
      (nonce ← wrap "failed to generate nonce" r;
       ciphertext ← Seal aead nonce plaintext [];
       mret {| Ciphertext := ciphertext; Nonce := nonce; Tag := [] |},
       tape)
  | Err e => (Err e, tape)
  | Panic msg => (Panic msg, tape)
  end.

Definition decryptWithKey (encrypted : EncryptedMessage) (key : bytes) : result bytes :=
  aead ← wrap "failed to create AEAD cipher" (chacha20poly1305_New key);
  wrap "failed to decrypt" (Open aead (Nonce encrypted) (Ciphertext encrypted) []).

Definition NewDoubleRatchet (sharedSecret remotePublicKey : bytes) (tape : Entropy)
  : result DoubleRatchet * Entropy :=
  let '(r, tape) := rand_Read 32 tape in
  (dhPrivate ← wrap "failed to generate DH private key" r;
   dhPublic ← wrap "failed to generate DH public key" (X25519 dhPrivate Basepoint);
   let dhSelf := {| PublicKey := dhPublic; PrivateKey := dhPrivate |} in
   let rootKey := deriveRootKey sharedSecret in
   sendingChainKey ← wrap "failed to derive sending chain key"
                       (deriveChainKey rootKey (PublicKey dhSelf) remotePublicKey);
   mret {| RootKey := rootKey;
           DHSelf := dhSelf;
           DHRemote := remotePublicKey;
           SendingChain := {| ChainKey := sendingChainKey; MessageNumber := 0 |};
           ReceivingChain := {| ChainKey := replicate 32 x00; MessageNumber := 0 |};
           SessionMessageNumber := 0;
           PreviousCounter := 0 |},
   tape).

(** [Encrypt] advances the sending chain before it seals, so the chain has
    moved also when sealing fails. *)
Definition Encrypt (dr : DoubleRatchet) (plaintext : bytes) (tape : Entropy)
  : result EncryptedMessage * DoubleRatchet * Entropy :=
  let messageKey :=
    deriveMessageKey (ChainKey (SendingChain dr)) (MessageNumber (SendingChain dr)) in
  let dr :=
    {| RootKey := RootKey dr;
       SendingChain :=
         {| ChainKey := advanceChainKey (ChainKey (SendingChain dr));
            MessageNumber := u32 (MessageNumber (SendingChain dr) + 1) |};
       ReceivingChain := ReceivingChain dr;
       DHSelf := DHSelf dr;
       DHRemote := DHRemote dr;
       SessionMessageNumber := SessionMessageNumber dr;
       PreviousCounter := PreviousCounter dr |} in
  let '(r, tape) := encryptWithKey plaintext messageKey tape in
  (r, dr, tape).

Definition Decrypt (dr : DoubleRatchet) (encrypted : EncryptedMessage) (messageNumber : Z)
  : result bytes * DoubleRatchet :=
  let messageKey := deriveMessageKey (ChainKey (ReceivingChain dr)) messageNumber in
  match wrap "failed to decrypt message" (decryptWithKey encrypted messageKey) with
  | Ok plaintext =>
      (Ok plaintext,
       {| RootKey := RootKey dr;
          SendingChain := SendingChain dr;
          ReceivingChain :=
            {| ChainKey := advanceChainKey (ChainKey (ReceivingChain dr));
               MessageNumber := u32 (MessageNumber (ReceivingChain dr) + 1) |};
          DHSelf := DHSelf dr;
          DHRemote := DHRemote dr;
          SessionMessageNumber := SessionMessageNumber dr;
          PreviousCounter := PreviousCounter dr |})
  | Err e => (Err e, dr)
  | Panic msg => (Panic msg, dr)
  end.

Definition PerformDHRatchet (dr : DoubleRatchet) (remotePublicKey : bytes) (tape : Entropy)
  : result unit * DoubleRatchet * Entropy :=
  let '(r, tape) := rand_Read 32 tape in
  let keys :=
    newPrivate ← wrap "failed to generate new DH private key" r;
    newPublic ← wrap "failed to generate new DH public key" (X25519 newPrivate Basepoint);
    sharedSecret ← wrap "failed to perform DH exchange" (X25519 newPrivate remotePublicKey);
    mret (newPrivate, newPublic, sharedSecret) in
  match keys with
  | Ok (newPrivate, newPublic, sharedSecret) =>
      let '(newRootKey, newChainKey) := deriveRootAndChainKeys (RootKey dr) sharedSecret in
      (Ok (),
       {| RootKey := newRootKey;
          DHSelf := {| PublicKey := newPublic; PrivateKey := newPrivate |};
          DHRemote := remotePublicKey;
          SendingChain := {| ChainKey := newChainKey; MessageNumber := 0 |};
          ReceivingChain := ReceivingChain dr;
          PreviousCounter := SessionMessageNumber dr;
          SessionMessageNumber := 0 |},
       tape)
  | Err e => (Err e, dr, tape)
  | Panic msg => (Panic msg, dr, tape)
  end.

Definition SimpleEncrypt (plaintext key : bytes) (tape : Entropy)
  : result EncryptedMessage * Entropy :=
  encryptWithKey plaintext key tape.

Definition SimpleDecrypt (encrypted : EncryptedMessage) (key : bytes) : result bytes :=
  decryptWithKey encrypted key.

End WithPrimitives.

End crypto.

Module network.

(** *** Shared data (client.go) *)

(** A value of a message payload, [map[string]interface{}] in the source:
    the payloads built by the package hold strings and lists of strings. *)
Inductive PayloadValue : Type :=
| VString (s : string)
| VStrings (l : list string).

(** [Message]; the field [Type] is [Type_] here. *)
Record Message : Type := {
  ID : string;
  Type_ : string;
  From : string;
  To : string;
  Timestamp : Z;
  Payload : gmap string PayloadValue;
  Signature : string;
}.

(** A buffered channel.  [select { case ch <- v: ...; default: ... }] sends
    when the buffer has room, takes the default branch when it is full, and
    panics on a closed channel. *)
Record chan (A : Type) : Type := {
  buf : list A;
  cap : nat;
  closed : bool;
}.
Arguments buf {A} _.
Arguments cap {A} _.
Arguments closed {A} _.

Definition make_chan {A} (n : nat) : chan A := {| buf := []; cap := n; closed := false |}.

Inductive select_send (A : Type) : Type :=
| Sent (ch : chan A)
| Default
| SendOnClosed.
Arguments Sent {A} ch.
Arguments Default {A}.
Arguments SendOnClosed {A}.

Definition try_send {A} (ch : chan A) (v : A) : select_send A :=
  if closed ch then SendOnClosed
  else if decide (length (buf ch) < cap ch)%nat
       then Sent {| buf := buf ch ++ [v]; cap := cap ch; closed := false |}
       else Default.

Definition close_chan {A} (ch : chan A) : result (chan A) :=
  if closed ch then Panic "close of closed channel"
  else Ok {| buf := buf ch; cap := cap ch; closed := true |}.

(** *** server.go: data *)

Inductive ConnState : Type := ConnOpen | ConnClosed.

(** A connected client; its [ID] is [ClientID] here, [ID] being the field of
    [Message].  The back pointer [Server] is left out, there is one server;
    [Conn] keeps of the web socket whether it is open. *)
Record ServerClient : Type := {
  ClientID : string;
  UserID : string;
  Conn : ConnState;
  Send : chan Message;
  LastSeen : Z;
}.

(** [RoutedMessage]; the fields [From], [To] and [Message] carry the prefix
    [Routed] here. *)
Record RoutedMessage : Type := {
  RoutedFrom : string;
  RoutedTo : string;
  RoutedMsg : Message;
}.

(** Client records live on the heap and the table [clients] holds pointers
    to them, so a handler that writes [c.UserID] changes the record every
    holder of the pointer sees. *)
Abbreviation ptr := positive.

(** The server: the heap of client records, the table [clients] from client
    ID to record, the routing queue, and the counter of [stats]. *)
Record Server : Type := {
  heap : gmap ptr ServerClient;
  clients : gmap string ptr;
  messageQueue : chan RoutedMessage;
  MessagesRouted : Z;
}.

Definition NewServer : Server :=
  {| heap := ∅; clients := ∅; messageQueue := make_chan 1000; MessagesRouted := 0 |}.

Definition set_heap (s : Server) (h : gmap ptr ServerClient) : Server :=
  {| heap := h; clients := clients s; messageQueue := messageQueue s;
     MessagesRouted := MessagesRouted s |}.

Definition set_clients (s : Server) (m : gmap string ptr) : Server :=
  {| heap := heap s; clients := m; messageQueue := messageQueue s;
     MessagesRouted := MessagesRouted s |}.

Definition set_UserID (c : ServerClient) (u : string) : ServerClient :=
  {| ClientID := ClientID c; UserID := u; Conn := Conn c; Send := Send c;
     LastSeen := LastSeen c |}.

Definition set_Send (c : ServerClient) (ch : chan Message) : ServerClient :=
  {| ClientID := ClientID c; UserID := UserID c; Conn := Conn c; Send := ch;
     LastSeen := LastSeen c |}.

Definition set_Conn (c : ServerClient) (st : ConnState) : ServerClient :=
  {| ClientID := ClientID c; UserID := UserID c; Conn := st; Send := Send c;
     LastSeen := LastSeen c |}.

Definition set_LastSeen (c : ServerClient) (t : Z) : ServerClient :=
  {| ClientID := ClientID c; UserID := UserID c; Conn := Conn c; Send := Send c;
     LastSeen := t |}.

(** *** server.go: functions

    A method of [*ServerClient] takes the pointer [c]; dereferencing a
    pointer the heap does not hold is a nil dereference. *)

Definition nil_deref {A} : result A :=
  Panic "invalid memory address or nil pointer dereference".

Definition addClient (s : Server) (c : ptr) : result Server :=
  match heap s !! c with
  | Some client => Ok (set_clients s (<[ClientID client := c]> (clients s)))
  | None => nil_deref
  end.

(** [removeClient] deletes the table entry under the client's ID, whichever
    pointer it holds, and closes the client's queue. *)
Definition removeClient (s : Server) (c : ptr) : result Server :=
  match heap s !! c with
  | Some client =>
      let s := set_clients s (delete (ClientID client) (clients s)) in
      ch ← close_chan (Send client);
      mret (set_heap s (<[c := set_Send client ch]> (heap s)))
  | None => nil_deref
  end.

(** [handleWebSocket] after a successful upgrade, up to the start of the two
    goroutines of the client: [c] is the address of the new record, [id] what
    [generateClientID] returned, [now] the time. *)
Definition handleWebSocket_accept (s : Server) (c : ptr) (id : string) (now : Z) : Server :=
  let client :=
    {| ClientID := id; UserID := ""; Conn := ConnOpen; Send := make_chan 256;
       LastSeen := now |} in
  set_heap s (<[c := client]> (heap s)).

(** [handleWebSocket] when the new client's goroutines do nothing before the
    handler's last statement, [addClient], has run. *)
Definition handleWebSocket (s : Server) (c : ptr) (id : string) (now : Z) : result Server :=
  addClient (handleWebSocket_accept s c id now) c.

(** [findClientByUserID].  A [range] over a Go map visits the entries in an
    order that is not specified; [iteration] is the order of this call.  The
    table only holds pointers to live records. *)
Fixpoint findClientByUserID_range (h : gmap ptr ServerClient)
    (iteration : list (string * ptr)) (userID : string) : option ptr :=
  match iteration with
  | [] => None
  | (_, c) :: rest =>
      match h !! c with
      | Some client =>
          if decide (UserID client = userID) then Some c
          else findClientByUserID_range h rest userID
      | None => findClientByUserID_range h rest userID
      end
  end.

Definition findClientByUserID (s : Server) (iteration : list (string * ptr))
    (userID : string) : option ptr :=
  findClientByUserID_range (heap s) iteration userID.

Definition range_clients (s : Server) (iteration : list (string * ptr)) : Prop :=
  iteration ≡ₚ map_to_list (clients s).

(** [routeMessage].  The branch without a destination logs and returns. *)
Definition routeMessage (s : Server) (iteration : list (string * ptr))
    (routedMsg : RoutedMessage) : result Server :=
  match findClientByUserID s iteration (RoutedTo routedMsg) with
  | None => Ok s
  | Some dest =>
      match heap s !! dest with
      | None => nil_deref
      | Some destClient =>
          match try_send (Send destClient) (RoutedMsg routedMsg) with
          | Sent ch =>
              Ok {| heap := <[dest := set_Send destClient ch]> (heap s);
                    clients := clients s;
                    messageQueue := messageQueue s;
                    MessagesRouted := i64 (MessagesRouted s + 1) |}
          | Default => Ok s
          | SendOnClosed => Panic "send on closed channel"
          end
      end
  end.

(** One turn of [messageRouter]: take the head of the queue and route it. *)
Definition messageRouter_step (s : Server) (iteration : list (string * ptr))
    : result Server :=
  match buf (messageQueue s) with
  | [] => Ok s
  | routedMsg :: rest =>
      routeMessage
        {| heap := heap s; clients := clients s;
           messageQueue := {| buf := rest; cap := cap (messageQueue s);
                              closed := closed (messageQueue s) |};
           MessagesRouted := MessagesRouted s |}
        iteration routedMsg
  end.

(** [handleClientHello]; [msgID] is what [generateMessageID] returned. *)
Definition handleClientHello (s : Server) (c : ptr) (msg : Message)
    (msgID : string) (now : Z) : result Server :=
  match heap s !! c with
  | None => nil_deref
  | Some client =>
      let client := set_UserID client (From msg) in
      let response :=
        {| ID := msgID;
           Type_ := "server_hello";
           From := "server";
           To := UserID client;
           Timestamp := now;
           Payload :=
             {[ "version" := VString "1.0";
                "session_id" := VString (ClientID client);
                "capabilities" := VStrings ["message_relay"; "offline_storage"] ]};
           Signature := "" |} in
      match try_send (Send client) response with
      | Sent ch => Ok (set_heap s (<[c := set_Send client ch]> (heap s)))
      | Default => Ok (set_heap s (<[c := client]> (heap s)))
      | SendOnClosed => Panic "send on closed channel"
      end
  end.

Definition handleChatMessage (s : Server) (c : ptr) (msg : Message) : result Server :=
  match heap s !! c with
  | None => nil_deref
  | Some client =>
      if decide (To msg = "") then Ok s
      else
        let routedMsg :=
          {| RoutedFrom := UserID client; RoutedTo := To msg; RoutedMsg := msg |} in
        match try_send (messageQueue s) routedMsg with
        | Sent q =>
            Ok {| heap := heap s; clients := clients s; messageQueue := q;
                  MessagesRouted := MessagesRouted s |}
        | Default => Ok s
        | SendOnClosed => Panic "send on closed channel"
        end
  end.

Definition handlePresenceMessage (s : Server) (c : ptr) (msg : Message) : result Server :=
  match heap s !! c with
  | None => nil_deref
  | Some _ => Ok s
  end.

Definition handleMessage (s : Server) (c : ptr) (msg : Message)
    (msgID : string) (now : Z) : result Server :=
  if decide (Type_ msg = "client_hello") then handleClientHello s c msg msgID now
  else if decide (Type_ msg = "chat") then handleChatMessage s c msg
  else if decide (Type_ msg = "presence") then handlePresenceMessage s c msg
  else Ok s.

(** One turn of the loop of [readMessages] on a parsed message. *)
Definition readMessages_message (s : Server) (c : ptr) (msg : Message)
    (msgID : string) (now : Z) : result Server :=
  match heap s !! c with
  | None => nil_deref
  | Some client =>
      handleMessage (set_heap s (<[c := set_LastSeen client now]> (heap s))) c msg msgID now
  end.

(** What [c.Conn.ReadMessage] delivers in a turn of the loop: an error, or a
    frame of [size] bytes, which [json.Unmarshal] parses or not. *)
Inductive frame : Type :=
| ReadFailed
| Frame (size : nat) (parsed : option Message).

(** The exit of [readMessages] on a read error: the deferred function. *)
Definition readMessages_exit (s : Server) (c : ptr) : result Server :=
  s ← removeClient s c;
  match heap s !! c with
  | None => nil_deref
  | Some client => Ok (set_heap s (<[c := set_Conn client ConnClosed]> (heap s)))
  end.

(** One turn of the loop of [readMessages].  The connection's read limit is
    512 bytes ([SetReadLimit]): a longer frame is a read error.  A frame that
    does not parse is logged and skipped. *)
Definition readMessages_turn (s : Server) (c : ptr) (f : frame)
    (msgID : string) (now : Z) : result Server :=
  match f with
  | ReadFailed => readMessages_exit s c
  | Frame size parsed =>
      if decide (512 < size)%nat then readMessages_exit s c
      else
        match parsed with
        | None => Ok s
        | Some msg => readMessages_message s c msg msgID now
        end
  end.

(** Runs of the broker in which the handlers take their turns one after the
    other: a connection is accepted and registered, a parsed message of a
    client is handled, a read loop ends, the router handles the message at
    the head of its queue.  The runs in which a writer takes a message off a
    queue, or in which a handler is overtaken between two of its statements,
    are not among them: [reachable] shows that a state arises in the broker
    and is never taken as an assumption on its states. *)
Inductive event : Type :=
| EvConnect (c : ptr) (id : string) (now : Z)
| EvReceive (c : ptr) (msg : Message) (msgID : string) (now : Z)
| EvReadError (c : ptr)
| EvRoute (iteration : list (string * ptr)).

Definition step (s : Server) (e : event) : result Server :=
  match e with
  | EvConnect c id now => handleWebSocket s c id now
  | EvReceive c msg msgID now => readMessages_message s c msg msgID now
  | EvReadError c => readMessages_exit s c
  | EvRoute iteration => messageRouter_step s iteration
  end.

Definition admissible (s : Server) (e : event) : Prop :=
  match e with
  | EvConnect c _ _ => heap s !! c = None
  | EvReceive c _ _ _ | EvReadError c => Conn <$> heap s !! c = Some ConnOpen
  | EvRoute iteration => range_clients s iteration
  end.

Inductive reachable : Server → Prop :=
| reachable_init : reachable NewServer
| reachable_step s e s' :
    reachable s → admissible s e → step s e = Ok s' → reachable s'.

(** *** client.go: reconnection *)

Inductive ConnectionEventType : Type :=
| ConnectionEventConnected
| ConnectionEventDisconnected
| ConnectionEventReconnecting
| ConnectionEventError.

(** [time.Duration] counts nanoseconds. *)
Definition Second : Z := 1000000000.

(** [ClientOptions] without the two handlers; [UserID] is [OptUserID] here. *)
Record ClientOptions : Type := {
  ServerURL : string;
  OptUserID : string;
  MaxReconnectAttempts : Z;
  ReconnectDelay : Z;
}.

(** The fields of [Client] the reconnection loop reads and writes. *)
Record Client : Type := {
  isConnected : bool;
  serverURL : string;
  userID : string;
  reconnectAttempts : Z;
  maxReconnectAttempts : Z;
  reconnectDelay : Z;
}.

Definition NewClient (opts : ClientOptions) : Client :=
  let maxAttempts :=
    if decide (MaxReconnectAttempts opts = 0) then 10 else MaxReconnectAttempts opts in
  let delay :=
    if decide (ReconnectDelay opts = 0) then 5 * Second else ReconnectDelay opts in
  {| isConnected := false;
     serverURL := ServerURL opts;
     userID := OptUserID opts;
     reconnectAttempts := 0;
     maxReconnectAttempts := maxAttempts;
     reconnectDelay := delay |}.

(** What the loop does to the outside: a call of [sendConnectionEvent], a
    wait on [time.After], the final log line. *)
Inductive effect : Type :=
| sendConnectionEvent (t : ConnectionEventType)
| timeAfter (delay : Z)
| logGivingUp.

#[global] Instance ConnectionEventType_eq_dec : EqDecision ConnectionEventType.
Proof. solve_decision. Defined.

#[global] Instance effect_eq_dec : EqDecision effect.
Proof. solve_decision. Defined.

(** What the outside does to the loop: whether the dial of the attempt with
    a given number succeeds, and whether the context is cancelled when the
    loop looks at it (at the top of the turn, and during the wait). *)
Record Env : Type := {
  dial_ok : Z → bool;
  done_at_top : Z → bool;
  done_in_wait : Z → bool;
}.

(** How the loop ends: [Connect] has returned without error, the attempts
    are used up, the context is done, or a call the loop makes never
    returns.  [OutOfFuel] is for the recursion only. *)
Inductive outcome : Type := Reconnected | GaveUp | Cancelled | Blocked | OutOfFuel.

Definition set_reconnectAttempts (c : Client) (n : Z) : Client :=
  {| isConnected := isConnected c; serverURL := serverURL c; userID := userID c;
     reconnectAttempts := n; maxReconnectAttempts := maxReconnectAttempts c;
     reconnectDelay := reconnectDelay c |}.

(** A call returns, or blocks for ever. *)
Inductive call (A : Type) : Type :=
| Returns (a : A)
| Blocks.
Arguments Returns {A} _.
Arguments Blocks {A}.

(** [Connect] from the point where it holds [connMutex], with the events it
    sends.  It fails when the client is connected already or the dial fails.
    After a successful dial it marks the client connected, resets the attempt
    counter, starts the three goroutines and announces the connection; then
    it calls [sendClientHello], whose [writeMessage] asks [connMutex] for the
    read lock while [Connect] still holds the write lock (its [Unlock] is
    deferred): the call does not return. *)
Definition Connect (env : Env) (c : Client) : list effect * Client * call (result unit) :=
  if isConnected c then ([], c, Returns (Err (errors_New "already connected")))
  else if dial_ok env (reconnectAttempts c) then
    ([sendConnectionEvent ConnectionEventConnected],
     {| isConnected := true; serverURL := serverURL c; userID := userID c;
        reconnectAttempts := 0; maxReconnectAttempts := maxReconnectAttempts c;
        reconnectDelay := reconnectDelay c |},
     Blocks)
  else ([], c, Returns (Err (Errorf "failed to connect to server" (errors_New "dial")))).

(** The wait after a failed attempt (the four lines that compute [delay]). *)
Definition reconnectWait (c : Client) : Z :=
  let delay := i64 (reconnectDelay c * reconnectAttempts c) in
  if decide (delay > 60 * Second) then 60 * Second else delay.

(** [attemptReconnection]: the [for] loop, one turn per unit of fuel. *)
Fixpoint attemptReconnection_loop (fuel : nat) (env : Env) (c : Client)
    : list effect * Client * outcome :=
  match fuel with
  | O => ([], c, OutOfFuel)
  | S fuel =>
      if decide (reconnectAttempts c < maxReconnectAttempts c) then
        if done_at_top env (reconnectAttempts c) then ([], c, Cancelled)
        else
          let c := set_reconnectAttempts c (i64 (reconnectAttempts c + 1)) in
          let announce := sendConnectionEvent ConnectionEventReconnecting in
          match Connect env c with
          | (effs, c, Blocks) => (announce :: effs, c, Blocked)
          | (effs, c, Returns (Ok _)) => (announce :: effs, c, Reconnected)
          | (effs, c, Returns _) =>
              let delay := reconnectWait c in
              if done_in_wait env (reconnectAttempts c)
              then (announce :: effs, c, Cancelled)
              else
                let '(effs', c, o) := attemptReconnection_loop fuel env c in
                (announce :: effs ++ timeAfter delay :: effs', c, o)
          end
      else ([logGivingUp], c, GaveUp)
  end.

(** Every turn but the last raises the counter by one, so the distance to
    the maximum, and one turn for the final test, is fuel enough. *)
Definition attemptReconnection (env : Env) (c : Client) : list effect * Client * outcome :=
  attemptReconnection_loop
    (S (Z.to_nat (maxReconnectAttempts c - reconnectAttempts c))) env c.

End network.

(** ** An executable stand-in for the primitives

    Deterministic test doubles with the interface of the real primitives:
    a 256-bit polynomial digest, an output stream of digests, multiplication
    modulo 2^255 - 19 for the key agreement, and an AEAD that appends a
    16-byte tag computed over key, nonce, additional data and text.  They are
    used to run the package on concrete inputs. *)
Module testdouble.

Definition le_bytes (n : nat) (z : Z) : bytes :=
  map (λ i : nat, byte_of_Z (z ≫ (8 * Z.of_nat i))) (seq 0 n).

Definition le_value (b : bytes) : Z :=
  foldr (λ x acc, Z.of_N (Byte.to_N x) + 256 * acc) 0 b.

Definition digest (m : bytes) : Z :=
  foldl (λ acc x, (acc * 257 + Z.of_N (Byte.to_N x) + 1) `mod` 2 ^ 256) 7 m.

Definition Sum256 (m : bytes) : bytes := le_bytes 32 (digest m).

Definition okm (secret salt info : bytes) (n : nat) : bytes :=
  take n (mjoin (map (λ i : nat, Sum256 (secret ++ salt ++ info ++ [byte_of_Z (Z.of_nat i)]))
                     (seq 1 (S (n / 32))))).

Definition scalarmult (scalar point : bytes) : option bytes :=
  if decide (length scalar = 32%nat ∧ length point = 32%nat) then
    let r := (le_value scalar * le_value point) `mod` (2 ^ 255 - 19) in
    if decide (r = 0) then None else Some (le_bytes 32 r)
  else None.

Definition tag (key nonce ad text : bytes) : bytes :=
  take 16 (Sum256 (key ++ nonce ++ ad ++ text)).

Definition seal (key nonce plaintext ad : bytes) : bytes :=
  plaintext ++ tag key nonce ad plaintext.

Definition open (key nonce ciphertext ad : bytes) : option bytes :=
  let n := (length ciphertext - 16)%nat in
  let text := take n ciphertext in
  if decide (drop n ciphertext = tag key nonce ad text) then Some text else None.

Definition prims : Primitives :=
  {| sha256_Sum256 := Sum256;
     hkdf_okm := okm;
     curve25519_scalarmult := scalarmult;
     aead_seal := seal;
     aead_open := open |}.

End testdouble.

(** ** Vocabulary of the statements

    Notions of the specification the theorems are stated with. *)

(** The bytes a party contributes: its signing key followed by its
    exchange key. *)
Definition identity_bytes (X : crypto.IdentityKeyPair) : bytes :=
  crypto.PublicKey (crypto.SigningKey X) ++ crypto.PublicKey (crypto.ExchangeKey X).

(** The same for an identity in memory. *)
Definition identity_bytes_in (mem : goslice.Memory) (X : crypto.IdentityKeyPair_slices)
  : bytes :=
  goslice.contents mem (crypto.SigningKey_PublicKey X)
  ++ goslice.contents mem (crypto.ExchangeKey_PublicKey X).

(** The two key slices of an identity lie within arrays of the memory. *)
Definition identity_within (mem : goslice.Memory) (X : crypto.IdentityKeyPair_slices)
  : Prop :=
  goslice.within mem (crypto.SigningKey_PublicKey X)
  ∧ goslice.within mem (crypto.ExchangeKey_PublicKey X).

(** The signing public key has no room behind it for the exchange public
    key: appending the one to the other takes a new array.  (So it is for the
    keys of [GenerateIdentityKeyPair], whose slices are as long as their
    arrays.) *)
Definition no_room (X : crypto.IdentityKeyPair_slices) : Prop :=
  (goslice.cap (crypto.SigningKey_PublicKey X)
   < goslice.len (crypto.SigningKey_PublicKey X)
     + goslice.len (crypto.ExchangeKey_PublicKey X))%nat.

Definition bytes_min (a b : bytes) : bytes := if bytes_ltb a b then a else b.
Definition bytes_max (a b : bytes) : bytes := if bytes_ltb a b then b else a.

Definition is_digit (c : Ascii.ascii) : Prop :=
  (48 ≤ Ascii.N_of_ascii c ≤ 57)%N.

(** A group of the safety number: five decimal digits. *)
Definition is_group (g : string) : Prop :=
  String.length g = 5%nat ∧ Forall is_digit (list_ascii_of_string g).

(** The digit the loop prints for group [i], position [j]. *)
Definition digit_char (hash : bytes) (i j : nat) : Ascii.ascii :=
  Ascii.ascii_of_N (48 + Byte.to_N (nth ((i * 5 + j) `mod` 32)%nat hash x00) mod 10).

Definition digit_group (hash : bytes) (i : nat) : string :=
  string_of_list_ascii (map (digit_char hash i) (seq 0 5)).

(** Twelve groups of five digits, separated by single spaces. *)
Definition render (hash : bytes) : string :=
  String.concat " " (map (digit_group hash) (seq 0 12)).


(** Modelled from the spec: the bound MAX_SKIP_PER_CHAIN on the message keys
    a receiving chain may skip, 200 by default.  The source has no such
    constant. *)
Definition MAX_SKIP_PER_CHAIN : Z := 200.

(** Modelled from the spec: the error [TooManySkipped] of a decryption that
    would skip more than MAX_SKIP_PER_CHAIN message keys.  The source has no
    such error. *)
Definition TooManySkipped : error := errors_New "TooManySkipped".

(** Modelled from the spec: [u96_from], the 96-bit encoding of a message
    number used as the AEAD nonce.  The source has no such function; the
    spec does not fix the byte order, so both are given. *)
Definition u96_from_le (n : Z) : bytes :=
  map (λ i : nat, byte_of_Z (n ≫ (8 * Z.of_nat i))) (seq 0 12).

Definition u96_from_be (n : Z) : bytes := reverse (u96_from_le n).

(** The error [Decrypt] returns when the AEAD rejects the message. *)
Definition authentication_error : error :=
  Errorf "failed to decrypt message" (Errorf "failed to decrypt" crypto.errOpen).

(** Concrete inputs the package is run on below. *)
Module sample.

Definition sharedSecret : bytes := list_byte_of_string "shared secret of the handshake".
Definition alice_key : bytes := replicate 32 x11.
Definition bob_key : bytes := replicate 32 x22.
Definition alice_public : bytes :=
  match testdouble.scalarmult alice_key crypto.Basepoint with Some b => b | None => [] end.
Definition bob_public : bytes :=
  match testdouble.scalarmult bob_key crypto.Basepoint with Some b => b | None => [] end.
Definition carol_key : bytes := replicate 32 x66.
Definition carol_public : bytes :=
  match testdouble.scalarmult carol_key crypto.Basepoint with Some b => b | None => [] end.
Definition alice_tape : Entropy := replicate 32 x33 ++ replicate 12 x44.
Definition bob_tape : Entropy := replicate 32 x55.
Definition hi : bytes := list_byte_of_string "hi".

(** A session as [NewDoubleRatchet] leaves it, but for the numbers the
    receiving chain and the session carry. *)
Definition session (receivingNumber : Z) : crypto.DoubleRatchet :=
  {| crypto.RootKey := replicate 32 x01;
     crypto.SendingChain := {| crypto.ChainKey := replicate 32 x02; crypto.MessageNumber := 0 |};
     crypto.ReceivingChain :=
       {| crypto.ChainKey := replicate 32 x00; crypto.MessageNumber := receivingNumber |};
     crypto.DHSelf := {| crypto.PublicKey := alice_public; crypto.PrivateKey := alice_key |};
     crypto.DHRemote := bob_public;
     crypto.SessionMessageNumber := 0;
     crypto.PreviousCounter := 0 |}.

End sample.

(** Two identities whose keys were cut from shared buffers: array 1 holds
    the signing public key of [X] and, behind it, the exchange public key of
    [Y]; the other two keys have arrays of their own. *)
Module shared.

Definition mem : goslice.Memory :=
  {[ 1%positive := replicate 32 x01 ++ replicate 32 x07;
     2%positive := replicate 32 x03;
     3%positive := replicate 32 x05 ]}.

Definition X : crypto.IdentityKeyPair_slices :=
  {| crypto.SigningKey_PublicKey :=
       {| goslice.array := 1; goslice.offset := 0; goslice.len := 32; goslice.cap := 64 |};
     crypto.ExchangeKey_PublicKey :=
       {| goslice.array := 2; goslice.offset := 0; goslice.len := 32; goslice.cap := 32 |} |}.

Definition Y : crypto.IdentityKeyPair_slices :=
  {| crypto.SigningKey_PublicKey :=
       {| goslice.array := 3; goslice.offset := 0; goslice.len := 32; goslice.cap := 32 |};
     crypto.ExchangeKey_PublicKey :=
       {| goslice.array := 1; goslice.offset := 32; goslice.len := 32; goslice.cap := 32 |} |}.

(** The same four keys, each in an array of its own. *)
Definition mem_apart : goslice.Memory :=
  {[ 1%positive := replicate 32 x01;
     2%positive := replicate 32 x03;
     3%positive := replicate 32 x05;
     4%positive := replicate 32 x07 ]}.

Definition X_apart : crypto.IdentityKeyPair_slices :=
  {| crypto.SigningKey_PublicKey :=
       {| goslice.array := 1; goslice.offset := 0; goslice.len := 32; goslice.cap := 32 |};
     crypto.ExchangeKey_PublicKey :=
       {| goslice.array := 2; goslice.offset := 0; goslice.len := 32; goslice.cap := 32 |} |}.

Definition Y_apart : crypto.IdentityKeyPair_slices :=
  {| crypto.SigningKey_PublicKey :=
       {| goslice.array := 3; goslice.offset := 0; goslice.len := 32; goslice.cap := 32 |};
     crypto.ExchangeKey_PublicKey :=
       {| goslice.array := 4; goslice.offset := 0; goslice.len := 32; goslice.cap := 32 |} |}.

End shared.

Module forged.
(** A message no sender sealed: twenty zero bytes under a zero nonce. *)
Definition message : crypto.EncryptedMessage :=
  {| crypto.Ciphertext := replicate 20 x00; crypto.Nonce := replicate 12 x00;
     crypto.Tag := [] |}.
End forged.

(** A run of the broker: the events of a list, one after the other. *)
Fixpoint run (s : network.Server) (events : list network.event) : result network.Server :=
  match events with
  | [] => Ok s
  | e :: events => s ← network.step s e; run s events
  end.

(** The events of a run are admissible, each in the state it meets. *)
Fixpoint admissible_run (s : network.Server) (events : list network.event) : Prop :=
  match events with
  | [] => True
  | e :: events =>
      network.admissible s e
      ∧ match network.step s e with
        | Ok s => admissible_run s events
        | _ => False
        end
  end.

(** A record is active and authenticated when the table of clients points
    to it, its connection is open and a hello has given it a user id. *)
Definition active_authenticated (s : network.Server) (c : network.ptr) (user : string) : Prop :=
  ∃ id client,
    network.clients s !! id = Some c
    ∧ network.heap s !! c = Some client
    ∧ network.Conn client = network.ConnOpen
    ∧ network.UserID client = user
    ∧ user ≠ "".

(** Modelled from the spec: the invariant that a user id has at most one
    active authenticated client record. *)
Definition supersession_invariant (s : network.Server) : Prop :=
  ∀ user c1 c2,
    active_authenticated s c1 user → active_authenticated s c2 user → c1 = c2.

Module wire.
Import network.

Definition hello (user : string) : Message :=
  {| ID := "msg_hello"; Type_ := "client_hello"; From := user; To := "";
     Timestamp := 1700000000;
     Payload := {[ "version" := VString "1.0";
                   "capabilities" := VStrings ["e2e_encryption"; "file_transfer"] ]};
     Signature := "" |}.

Definition chat (from to : string) : Message :=
  {| ID := "msg_chat"; Type_ := "chat"; From := from; To := to;
     Timestamp := 1700000001;
     Payload := {[ "content" := VString "ciphertext" ]};
     Signature := "" |}.

(** Two connections that both say hello as "alice". *)
Definition two_hellos : list event :=
  [ EvConnect 1%positive "client_1" 100;
    EvConnect 2%positive "client_2" 101;
    EvReceive 1%positive (hello "alice") "msg_1" 102;
    EvReceive 2%positive (hello "alice") "msg_2" 103 ].

(** Alice says hello and sends a chat message to carol, who is not
    connected; the router then takes the message off the queue. *)
Definition chat_to_offline : list event :=
  [ EvConnect 1%positive "client_1" 100;
    EvReceive 1%positive (hello "alice") "msg_1" 101;
    EvReceive 1%positive (chat "alice" "carol") "msg_2" 102;
    EvRoute [("client_1", 1%positive)] ].


Definition default_options : ClientOptions :=
  {| ServerURL := "ws://relay.example:8080/ws"; OptUserID := "alice";
     MaxReconnectAttempts := 0; ReconnectDelay := 0 |}.


End wire.



Module peer.
(** A session whose receiving chain is in the state of the sending chain of
    [sample.session 0]. *)
Definition session : crypto.DoubleRatchet :=
  {| crypto.RootKey := replicate 32 x01;
     crypto.SendingChain := {| crypto.ChainKey := replicate 32 x03; crypto.MessageNumber := 0 |};
     crypto.ReceivingChain := crypto.SendingChain (sample.session 0);
     crypto.DHSelf := {| crypto.PublicKey := sample.bob_public; crypto.PrivateKey := sample.bob_key |};
     crypto.DHRemote := sample.alice_public;
     crypto.SessionMessageNumber := 0;
     crypto.PreviousCounter := 0 |}.
End peer.

(** * More of the code

    The rest of keys.go, the helpers of the data models and of the
    application that work with fingerprints and chat ids, and the sending
    side of the client. *)

(** [fmt.Sprintf("%x", b)] for a byte slice: two lower-case hexadecimal
    digits per byte. *)
Definition hex_digit (n : N) : Ascii.ascii :=
  Ascii.ascii_of_N (if (n <? 10)%N then 48 + n else 87 + n).

Definition Sprintf_x (b : bytes) : string :=
  string_of_list_ascii
    (flat_map (λ x, [hex_digit (Byte.to_N x / 16); hex_digit (Byte.to_N x mod 16)]) b).

Definition is_hex_digit (c : Ascii.ascii) : Prop :=
  (48 ≤ Ascii.N_of_ascii c ≤ 57)%N ∨ (97 ≤ Ascii.N_of_ascii c ≤ 102)%N.

(** ** The signature primitives

    The functions of [golang.org/x/crypto/ed25519] keys.go calls.
    [ed25519_public seed] is the public key of the private key made from a
    32-byte seed; the private key itself is the seed followed by the public
    key. *)
Record Ed25519 : Type := {
  ed25519_public : bytes → bytes;
  ed25519_sign : bytes → bytes → bytes;
  ed25519_verify : bytes → bytes → bytes → bool;
}.

(** A public key has 32 bytes, and a signature made with a private key
    verifies under its public key. *)
Record Ed25519Laws (S : Ed25519) : Prop := {
  public_length : ∀ seed, length (ed25519_public S seed) = 32%nat;
  verify_sign : ∀ seed msg,
    length seed = 32%nat →
    ed25519_verify S (ed25519_public S seed) msg
      (ed25519_sign S (seed ++ ed25519_public S seed) msg) = true;
}.

Module keys.
Import crypto.

(** [PreKey] and [OneTimeKey]; their fields carry the name of the struct as
    a prefix here. *)
Record PreKey : Type := {
  PreKey_ID : Z;
  PreKey_KeyPair : KeyPair;
  PreKey_Signature : bytes;
}.

Record OneTimeKey : Type := {
  OneTimeKey_ID : Z;
  OneTimeKey_KeyPair : KeyPair;
}.

Section WithPrimitives.
Context (P : Primitives) (S : Ed25519).

(** [ed25519.GenerateKey(rand.Reader)]: reads a 32-byte seed. *)
Definition ed25519_GenerateKey (tape : Entropy) : result (bytes * bytes) * Entropy :=
  let '(r, tape) := rand_Read 32 tape in
  (seed ← r;
   let publicKey := ed25519_public S seed in
   mret (publicKey, seed ++ publicKey),
   tape).

(** [ed25519.Sign] and [ed25519.Verify] panic on keys of the wrong size. *)
Definition ed25519_Sign (privateKey message : bytes) : result bytes :=
  if decide (length privateKey = 64%nat) then Ok (ed25519_sign S privateKey message)
  else Panic ("ed25519: bad private key length: "
              +:+ Sprintf_d (N.of_nat (length privateKey))).

Definition ed25519_Verify (publicKey message sig : bytes) : result bool :=
  if decide (length publicKey = 32%nat) then Ok (ed25519_verify S publicKey message sig)
  else Panic ("ed25519: bad public key length: "
              +:+ Sprintf_d (N.of_nat (length publicKey))).

(** [generateFingerprint]: [hash] is a [[32]byte], so [hash[:8]] are its
    first eight bytes. *)
Definition generateFingerprint (identity : IdentityKeyPair) : string :=
  let combined :=
    PublicKey (SigningKey identity) ++ PublicKey (ExchangeKey identity) in
  let hash := sha256_Sum256 P combined in
  Sprintf_x (take 8 hash).

Definition GenerateIdentityKeyPair (tape : Entropy)
  : result IdentityKeyPair * Entropy :=
  let '(r, tape) := ed25519_GenerateKey tape in
  match wrap "failed to generate signing key" r with
  | Ok (signingPub, signingPriv) =>
      let '(r, tape) := rand_Read 32 tape in
      (exchangePriv ← wrap "failed to generate exchange private key" r;
       exchangePub ← wrap "failed to generate exchange public key"
                       (X25519 P exchangePriv Basepoint);
       let identity :=
         {| SigningKey := {| PublicKey := signingPub; PrivateKey := signingPriv |};
            ExchangeKey := {| PublicKey := exchangePub; PrivateKey := exchangePriv |};
            Fingerprint := "" |} in
       mret {| SigningKey := SigningKey identity;
               ExchangeKey := ExchangeKey identity;
               Fingerprint := generateFingerprint identity |},
       tape)
  | Err e => (Err e, tape)
  | Panic msg => (Panic msg, tape)
  end.

Definition GeneratePreKey (id : Z) (identityKey : IdentityKeyPair) (tape : Entropy)
  : result PreKey * Entropy :=
  let '(r, tape) := rand_Read 32 tape in
  (privateKey ← wrap "failed to generate prekey private key" r;
   publicKey ← wrap "failed to generate prekey public key"
                 (X25519 P privateKey Basepoint);
   let keyPair := {| PublicKey := publicKey; PrivateKey := privateKey |} in
   signature ← ed25519_Sign (PrivateKey (SigningKey identityKey)) publicKey;
   mret {| PreKey_ID := id; PreKey_KeyPair := keyPair; PreKey_Signature := signature |},
   tape).

(** The loop of [GenerateOneTimeKeys] from index [i] on, [n] turns; an error
    in a turn is the result of the call. *)
Fixpoint GenerateOneTimeKeys_loop (n : nat) (startID i : Z) (tape : Entropy)
  : result (list OneTimeKey) * Entropy :=
  match n with
  | O => (Ok [], tape)
  | Datatypes.S n =>
      let '(r, tape) := rand_Read 32 tape in
      match
        privateKey ← wrap "failed to generate one-time key private key" r;
        publicKey ← wrap "failed to generate one-time key public key"
                      (X25519 P privateKey Basepoint);
        mret {| OneTimeKey_ID := u32 (startID + u32 i);
                OneTimeKey_KeyPair :=
                  {| PublicKey := publicKey; PrivateKey := privateKey |} |}
      with
      | Ok key =>
          let '(rest, tape) := GenerateOneTimeKeys_loop n startID (i + 1) tape in
          (keys ← rest; mret (key :: keys), tape)
      | Err e => (Err e, tape)
      | Panic msg => (Panic msg, tape)
      end
  end.

(** The most [makeslice] allocates: [maxAlloc], 2^48 bytes where addresses
    have 48 bits (64-bit Linux). *)
Definition maxAlloc : Z := 2 ^ 48.

(** [GenerateOneTimeKeys].  [make([]*OneTimeKey, count)] panics when [count]
    is negative or [count] pointers of 8 bytes are more than [maxAlloc]; it
    does so before the loop reads any entropy.  (An allocation below that
    bound that the system cannot serve ends the process: as for every
    allocation of the package, the definition is about the calls whose
    allocations are served.) *)
Definition GenerateOneTimeKeys (startID count : Z) (tape : Entropy)
  : result (list OneTimeKey) * Entropy :=
  if decide (count < 0 ∨ maxAlloc < 8 * count)
  then (Panic "runtime error: makeslice: len out of range", tape)
  else GenerateOneTimeKeys_loop (Z.to_nat count) startID 0 tape.

Definition VerifyPreKey (prekey : PreKey) (identityPublicKey : bytes) : result bool :=
  ed25519_Verify identityPublicKey (PublicKey (PreKey_KeyPair prekey))
    (PreKey_Signature prekey).

(** encryption.go: [GenerateSharedSecret]. *)
Definition GenerateSharedSecret (privateKey publicKey : bytes) : result bytes :=
  X25519 P privateKey publicKey.

End WithPrimitives.
End keys.

(** The stand-in of the signature primitives: the public key is a digest of
    the seed, and a signature is two digests over public key and message. *)
Module testsign.

Definition public (seed : bytes) : bytes := testdouble.Sum256 (seed ++ [x70]).

Definition signature (publicKey msg : bytes) : bytes :=
  testdouble.Sum256 (publicKey ++ msg) ++ testdouble.Sum256 (msg ++ publicKey).

Definition sign (privateKey msg : bytes) : bytes := signature (drop 32 privateKey) msg.

Definition verify (publicKey msg sig : bytes) : bool :=
  bool_decide (sig = signature publicKey msg).

Definition prims : Ed25519 :=
  {| ed25519_public := public; ed25519_sign := sign; ed25519_verify := verify |}.

End testsign.

(** ** Conversations

    A sender that encrypts a list of plaintexts one after the other, and a
    receiver that decrypts a list of messages one after the other, each under
    the number its receiving chain has reached; both stop at the first call
    that fails. *)
Module conversation.
Import crypto.

Section WithPrimitives.
Context (P : Primitives).

Fixpoint EncryptAll (dr : DoubleRatchet) (plaintexts : list bytes) (tape : Entropy)
  : result (list EncryptedMessage) * DoubleRatchet * Entropy :=
  match plaintexts with
  | [] => (Ok [], dr, tape)
  | plaintext :: plaintexts =>
      match Encrypt P dr plaintext tape with
      | (Ok msg, dr, tape) =>
          let '(r, dr, tape) := EncryptAll dr plaintexts tape in
          (msgs ← r; mret (msg :: msgs), dr, tape)
      | (Err e, dr, tape) => (Err e, dr, tape)
      | (Panic m, dr, tape) => (Panic m, dr, tape)
      end
  end.

Fixpoint DecryptAll (dr : DoubleRatchet) (msgs : list EncryptedMessage)
  : result (list bytes) * DoubleRatchet :=
  match msgs with
  | [] => (Ok [], dr)
  | msg :: msgs =>
      match Decrypt P dr msg (MessageNumber (ReceivingChain dr)) with
      | (Ok plaintext, dr) =>
          let '(r, dr) := DecryptAll dr msgs in
          (plaintexts ← r; mret (plaintext :: plaintexts), dr)
      | (Err e, dr) => (Err e, dr)
      | (Panic m, dr) => (Panic m, dr)
      end
  end.

End WithPrimitives.
End conversation.

(** ** Invariants of the broker *)

(** The user id [user] belongs to the one client [c] of the table. *)
Definition only_client_of (s : network.Server) (c : network.ptr) (user : string) : Prop :=
  (∃ id client,
     network.clients s !! id = Some c
     ∧ network.heap s !! c = Some client
     ∧ network.UserID client = user)
  ∧ ∀ id' c' client',
      network.clients s !! id' = Some c' →
      network.heap s !! c' = Some client' →
      network.UserID client' = user → c' = c.

(** [string(rune(r))]: the UTF-8 encoding of the code point [r], and of
    U+FFFD when [r] is not a code point. *)
Definition rune_string (r : N) : string :=
  let ch (n : N) := Ascii.ascii_of_N n in
  let cont (n : N) := ch (128 + n mod 64)%N in
  if (r <? 128)%N then String (ch r) ""
  else if (r <? 2048)%N then String (ch (192 + r / 64)%N) (String (cont r) "")
  else if ((55296 <=? r) && (r <=? 57343) || (1114111 <? r))%N
       then String (ch 239%N) (String (ch 191%N) (String (ch 189%N) ""))
  else if (r <? 65536)%N
       then String (ch (224 + r / 4096)%N) (String (cont (r / 64)%N) (String (cont r) ""))
  else String (ch (240 + r / 262144)%N)
         (String (cont (r / 4096)%N) (String (cont (r / 64)%N) (String (cont r) ""))).

(** Go's [<] on strings. *)
Definition string_ltb (a b : string) : bool :=
  bytes_ltb (list_byte_of_string a) (list_byte_of_string b).

(** ** internal/models/user.go *)
Module models.

Definition UserStatus : Type := string.
Definition UserStatusOnline : UserStatus := "online".
Definition UserStatusAway : UserStatus := "away".
Definition UserStatusBusy : UserStatus := "busy".
Definition UserStatusOffline : UserStatus := "offline".

(** [User] and [Contact]; times are seconds.  The fields the two structs
    share carry the prefix [Contact_] in the contact. *)
Record User : Type := {
  ID : string;
  DisplayName : string;
  PublicKey : bytes;
  Fingerprint : string;
  Status : UserStatus;
  StatusMessage : string;
  LastSeen : Z;
  Verified : bool;
  Blocked : bool;
  CreatedAt : Z;
  UpdatedAt : Z;
}.

Record Contact : Type := {
  Contact_UserID : string;
  Contact_DisplayName : string;
  Contact_Nickname : string;
  Contact_PublicKey : bytes;
  Contact_Fingerprint : string;
  Contact_Verified : bool;
  Contact_Blocked : bool;
  Contact_Favorite : bool;
  Contact_Notes : string;
  Contact_Status : UserStatus;
  Contact_StatusMessage : string;
  Contact_LastSeen : Z;
  Contact_AddedAt : Z;
  Contact_UpdatedAt : Z;
}.

(** [generateFingerprint]: a letter per byte, for the first eight bytes. *)
Definition generateFingerprint (publicKey : bytes) : string :=
  if decide (length publicKey < 8)%nat then "invalid"
  else
    foldl (λ result b,
             result +:+ rune_string (Byte.to_N (byte_of_N (97 + Byte.to_N b mod 26)%N)))
          "" (take 8 publicKey).

(** [formatSafetyNumber]: the index [i % len(fingerprint)] divides by zero
    on the empty fingerprint. *)
Definition formatSafetyNumber (fingerprint : string) : result string :=
  if decide (String.length fingerprint = 0%nat)
  then Panic "runtime error: integer divide by zero"
  else
    Ok (foldl (λ safetyNumber i,
                 let safetyNumber :=
                   if (0 <? i)%nat && (i `mod` 5 =? 0)%nat
                   then safetyNumber +:+ " " else safetyNumber in
                 let c :=
                   nth (i `mod` String.length fingerprint)%nat
                     (list_ascii_of_string fingerprint) Ascii.zero in
                 let digit := (Ascii.N_of_ascii c mod 10)%N in
                 safetyNumber +:+ rune_string (48 + digit)%N)
              "" (seq 0 60)).

Definition NewUser (id displayName : string) (publicKey : bytes) (now : Z) : User :=
  {| ID := id;
     DisplayName := displayName;
     PublicKey := publicKey;
     Fingerprint := generateFingerprint publicKey;
     Status := UserStatusOffline;
     StatusMessage := "";
     LastSeen := now;
     Verified := false;
     Blocked := false;
     CreatedAt := now;
     UpdatedAt := now |}.

Definition NewContact (user : User) (now : Z) : Contact :=
  {| Contact_UserID := ID user;
     Contact_DisplayName := DisplayName user;
     Contact_Nickname := "";
     Contact_PublicKey := PublicKey user;
     Contact_Fingerprint := Fingerprint user;
     Contact_Verified := false;
     Contact_Blocked := false;
     Contact_Favorite := false;
     Contact_Notes := "";
     Contact_Status := Status user;
     Contact_StatusMessage := StatusMessage user;
     Contact_LastSeen := LastSeen user;
     Contact_AddedAt := now;
     Contact_UpdatedAt := now |}.

Definition GetDisplayName (c : Contact) : string :=
  if decide (Contact_Nickname c ≠ "") then Contact_Nickname c else Contact_DisplayName c.

Definition Contact_IsOnline (c : Contact) : bool :=
  bool_decide (Contact_Status c = UserStatusOnline).

Definition GetSafetyNumber (c : Contact) : result string :=
  formatSafetyNumber (Contact_Fingerprint c).

End models.

(** ** pkg/core: the application *)
Module core.

(** [getChatID]. *)
Definition getChatID (user1 user2 : string) : string :=
  if string_ltb user1 user2
  then "chat_" +:+ user1 +:+ "_" +:+ user2
  else "chat_" +:+ user2 +:+ "_" +:+ user1.

(** The contact [AddContact] builds and stores.  The fields it does not name
    have their zero values, but for the two time stamps, which are left to
    [storage.SaveContact]: [addedAt] and [updatedAt] are what it leaves
    there. *)
Definition AddContact_contact (userID displayName : string) (addedAt updatedAt : Z)
  : models.Contact :=
  {| models.Contact_UserID := userID;
     models.Contact_DisplayName := displayName;
     models.Contact_Nickname := "";
     models.Contact_PublicKey := [];
     models.Contact_Fingerprint := "";
     models.Contact_Verified := false;
     models.Contact_Blocked := false;
     models.Contact_Favorite := false;
     models.Contact_Notes := "";
     models.Contact_Status := models.UserStatusOffline;
     models.Contact_StatusMessage := "";
     models.Contact_LastSeen := 0;
     models.Contact_AddedAt := addedAt;
     models.Contact_UpdatedAt := updatedAt |}.

End core.

(** ** client.go: sending *)
Module outbox.
Import network.

(** [connMutex]: free, or held for writing.  (A read lock is taken and
    released within one call.) *)
Inductive RWMutex : Type := Free | WriteLocked.

(** The methods that take [connMutex], on the lock and the client.  Each
    waits for the lock; a lock held by a call that does not return is never
    released. *)
Definition IsConnected (connMutex : RWMutex) (c : Client) : call bool :=
  match connMutex with
  | WriteLocked => Blocks
  | Free => Returns (isConnected c)
  end.

(** [Connect] as a whole: the lock, and then [network.Connect], which leaves
    the lock held when it does not return. *)
Definition Connect (env : Env) (connMutex : RWMutex) (c : Client)
  : list effect * Client * RWMutex * call (result unit) :=
  match connMutex with
  | WriteLocked => ([], c, WriteLocked, Blocks)
  | Free =>
      match network.Connect env c with
      | (effs, c, Blocks) => (effs, c, WriteLocked, Blocks)
      | (effs, c, Returns r) => (effs, c, Free, Returns r)
      end
  end.

Definition set_isConnected (c : Client) (b : bool) : Client :=
  {| isConnected := b; serverURL := serverURL c; userID := userID c;
     reconnectAttempts := reconnectAttempts c;
     maxReconnectAttempts := maxReconnectAttempts c;
     reconnectDelay := reconnectDelay c |}.

Definition Disconnect (connMutex : RWMutex) (c : Client)
  : list effect * Client * RWMutex * call (result unit) :=
  match connMutex with
  | WriteLocked => ([], c, WriteLocked, Blocks)
  | Free =>
      if negb (isConnected c) then ([], c, Free, Returns (Ok ()))
      else ([sendConnectionEvent ConnectionEventDisconnected],
            set_isConnected c false, Free, Returns (Ok ()))
  end.

(** [handleConnectionError], up to the start of the reconnection goroutine. *)
Definition handleConnectionError (connMutex : RWMutex) (c : Client)
  : list effect * Client * RWMutex * call unit :=
  match connMutex with
  | WriteLocked => ([], c, WriteLocked, Blocks)
  | Free =>
      ([sendConnectionEvent ConnectionEventError], set_isConnected c false, Free,
       Returns ())
  end.

(** [SendMessage] on a client [c] with the queue [outgoing] and the context
    done or not.  When the queue has room and the context is done, [select]
    picks either of the two cases; [pick_send] is its pick. *)
Definition SendMessage (connMutex : RWMutex) (c : Client) (outgoing : chan Message)
    (ctx_done : bool) (to content msgType : string) (msgID : string) (now : Z)
    (pick_send : bool)
  : call (result unit) * chan Message :=
  match IsConnected connMutex c with
  | Blocks => (Blocks, outgoing)
  | Returns connected =>
      if negb connected then (Returns (Err (errors_New "not connected")), outgoing)
      else
        let msg :=
          {| ID := msgID; Type_ := msgType; From := userID c; To := to; Timestamp := now;
             Payload := {[ "content" := VString content ]}; Signature := "" |} in
        match try_send outgoing msg with
        | Sent q =>
            if ctx_done && negb pick_send
            then (Returns (Err (errors_New "client is shutting down")), outgoing)
            else (Returns (Ok ()), q)
        | Default =>
            if ctx_done
            then (Returns (Err (errors_New "client is shutting down")), outgoing)
            else (Returns (Err (errors_New "outgoing message queue is full")), outgoing)
        | SendOnClosed =>
            if ctx_done && negb pick_send
            then (Returns (Err (errors_New "client is shutting down")), outgoing)
            else (Returns (Panic "send on closed channel"), outgoing)
        end
  end.

(** What the methods above keep true of a client made by [NewClient]: it is
    marked connected only while [connMutex] is held. *)
Definition connected_is_locked (connMutex : RWMutex) (c : Client) : Prop :=
  isConnected c = true → connMutex = WriteLocked.

(** What the loop of [attemptReconnection] does from attempt [first + 1] on
    when [n] attempts fail and the dial of the next one succeeds. *)
Definition reconnecting_attempts (c : Client) (first : Z) (n : nat) : list effect :=
  flat_map (λ i : nat,
              [ sendConnectionEvent ConnectionEventReconnecting;
                timeAfter (reconnectWait (set_reconnectAttempts c (first + 1 + Z.of_nat i))) ])
           (seq 0 n)
  ++ [ sendConnectionEvent ConnectionEventReconnecting;
       sendConnectionEvent ConnectionEventConnected ].

End outbox.

(** ** What the loops of user.go print *)

Definition is_lower_letter (c : Ascii.ascii) : Prop :=
  (97 ≤ Ascii.N_of_ascii c ≤ 122)%N.

(** The letter [generateFingerprint] prints for a byte. *)
Definition fingerprint_letter (b : byte) : Ascii.ascii :=
  Ascii.ascii_of_N (97 + Byte.to_N b mod 26).

(** The digit [formatSafetyNumber] prints at position [k]. *)
Definition fingerprint_digit (fingerprint : string) (k : nat) : Ascii.ascii :=
  Ascii.ascii_of_N
    (48 + Ascii.N_of_ascii
            (nth (k `mod` String.length fingerprint)%nat
               (list_ascii_of_string fingerprint) Ascii.zero) mod 10).

Definition fingerprint_group (fingerprint : string) (i : nat) : string :=
  string_of_list_ascii (map (λ j, fingerprint_digit fingerprint (i * 5 + j)%nat) (seq 0 5)).

Definition fingerprint_render (fingerprint : string) : string :=
  String.concat " " (map (fingerprint_group fingerprint) (seq 0 12)).

(** ** Inputs the properties are run on *)
Module trial.
Import network.

(** Entropy for an identity (64 bytes), a prekey (32) and two one-time keys. *)
Definition tape : Entropy :=
  replicate 32 x61 ++ replicate 32 x62 ++ replicate 32 x63
  ++ replicate 32 x64 ++ replicate 32 x65.

Definition alice : crypto.IdentityKeyPair :=
  {| crypto.SigningKey :=
       {| crypto.PublicKey := replicate 32 x01; crypto.PrivateKey := replicate 64 x02 |};
     crypto.ExchangeKey :=
       {| crypto.PublicKey := replicate 32 x03; crypto.PrivateKey := replicate 32 x04 |};
     crypto.Fingerprint := "" |}.

Definition bob : crypto.IdentityKeyPair :=
  {| crypto.SigningKey :=
       {| crypto.PublicKey := replicate 32 x05; crypto.PrivateKey := replicate 64 x06 |};
     crypto.ExchangeKey :=
       {| crypto.PublicKey := replicate 32 x07; crypto.PrivateKey := replicate 32 x08 |};
     crypto.Fingerprint := "" |}.

(** Alice and bob connect and say hello; alice sends a chat message to bob. *)
Definition chat_queued : list event :=
  [ EvConnect 1%positive "client_1" 100;
    EvConnect 2%positive "client_2" 101;
    EvReceive 1%positive (wire.hello "alice") "msg_1" 102;
    EvReceive 2%positive (wire.hello "bob") "msg_2" 103;
    EvReceive 1%positive (wire.chat "alice" "bob") "msg_3" 104 ].

Definition both_greeted : list event := take 4 chat_queued.

Definition table : list (string * ptr) :=
  [("client_1", 1%positive); ("client_2", 2%positive)].

(** A server that answers the third dial. *)
Definition third_dial_answers : Env :=
  {| dial_ok := λ k, bool_decide (k = 3);
     done_at_top := λ _, false; done_in_wait := λ _, false |}.

Definition online : Client :=
  {| isConnected := true; serverURL := "ws://relay.example:8080/ws"; userID := "alice";
     reconnectAttempts := 0; maxReconnectAttempts := 10; reconnectDelay := 5 * Second |}.

End trial.

(** * Part II: properties *)

(** Reduction of the error plumbing. *)
Ltac bind_step := cbn [wrap mbind result_bind mret result_ret].

(** ** Facts about bytes *)

Lemma byte_to_N_lt (b : byte) : (Byte.to_N b < 256)%N.
Proof. pose proof (Byte.to_N_bounded b). lia. Qed.

Lemma byte_to_N_inj (a b : byte) : Byte.to_N a = Byte.to_N b → a = b.
Proof.
  intros H. pose proof (Byte.of_to_N a) as Ha.
  rewrite H, Byte.of_to_N in Ha. congruence.
Qed.

Lemma byte_of_N_to_N (n : N) : (n < 256)%N → Byte.to_N (byte_of_N n) = n.
Proof.
  intros Hn. unfold byte_of_N. rewrite N.mod_small by assumption.
  destruct (Byte.of_N n) as [b|] eqn:E.
  - by apply Byte.to_of_N.
  - apply Byte.of_N_None_iff in E. lia.
Qed.

Lemma N_lt_256_log2 (n : N) : (n < 256)%N → n = 0%N ∨ (N.log2 n < 8)%N.
Proof.
  intros Hn. destruct (N.eq_dec n 0%N) as [->|Hne]; [by left|right].
  apply N.log2_lt_pow2; [lia|]. exact Hn.
Qed.

Lemma N_lxor_lt_256 (a b : N) : (a < 256 → b < 256 → N.lxor a b < 256)%N.
Proof.
  intros Ha Hb.
  destruct (N.eq_dec (N.lxor a b) 0%N) as [->|Hne]; [lia|].
  change 256%N with (2 ^ 8)%N. apply N.log2_lt_pow2; [lia|].
  pose proof (N.log2_lxor a b) as Hl.
  destruct (N_lt_256_log2 a Ha) as [->|Ha'], (N_lt_256_log2 b Hb) as [->|Hb'];
    simpl in *; lia.
Qed.

Lemma N_lor_lt_256 (a b : N) : (a < 256 → b < 256 → N.lor a b < 256)%N.
Proof.
  intros Ha Hb.
  destruct (N.eq_dec (N.lor a b) 0%N) as [->|Hne]; [lia|].
  change 256%N with (2 ^ 8)%N. apply N.log2_lt_pow2; [lia|].
  rewrite N.log2_lor.
  destruct (N_lt_256_log2 a Ha) as [->|Ha'], (N_lt_256_log2 b Hb) as [->|Hb'];
    simpl in *; lia.
Qed.

Lemma byte_xor_to_N (a b : byte) :
  Byte.to_N (byte_xor a b) = N.lxor (Byte.to_N a) (Byte.to_N b).
Proof. apply byte_of_N_to_N, N_lxor_lt_256; apply byte_to_N_lt. Qed.

Lemma byte_or_to_N (a b : byte) :
  Byte.to_N (byte_or a b) = N.lor (Byte.to_N a) (Byte.to_N b).
Proof. apply byte_of_N_to_N, N_lor_lt_256; apply byte_to_N_lt. Qed.

Lemma byte_xor_x00 (a b : byte) : byte_xor a b = x00 ↔ a = b.
Proof.
  split.
  - intros H. apply byte_to_N_inj, N.lxor_eq.
    rewrite <- byte_xor_to_N, H. reflexivity.
  - intros ->. apply byte_to_N_inj. rewrite byte_xor_to_N, N.lxor_nilpotent.
    reflexivity.
Qed.

Lemma byte_or_x00 (a b : byte) : byte_or a b = x00 ↔ a = x00 ∧ b = x00.
Proof.
  split.
  - intros H. assert (Hz : N.lor (Byte.to_N a) (Byte.to_N b) = 0%N).
    { rewrite <- byte_or_to_N, H. reflexivity. }
    apply N.lor_eq_0_iff in Hz as [Ha Hb].
    split; apply byte_to_N_inj; assumption.
  - intros [-> ->]. reflexivity.
Qed.

Lemma bytes_ltb_irrefl (a : bytes) : bytes_ltb a a = false.
Proof.
  induction a as [|x a IH]; simpl; [done|].
  by rewrite N.ltb_irrefl.
Qed.

Lemma bytes_ltb_asym (a b : bytes) : bytes_ltb a b = true → bytes_ltb b a = false.
Proof.
  revert b. induction a as [|x a IH]; intros [|y b]; simpl; try done.
  destruct (N.ltb_spec (Byte.to_N x) (Byte.to_N y)),
           (N.ltb_spec (Byte.to_N y) (Byte.to_N x)); try done; try lia.
  apply IH.
Qed.

Lemma bytes_ltb_total (a b : bytes) :
  bytes_ltb a b = false → bytes_ltb b a = false → a = b.
Proof.
  revert b. induction a as [|x a IH]; intros [|y b]; simpl; try done.
  destruct (N.ltb_spec (Byte.to_N x) (Byte.to_N y)),
           (N.ltb_spec (Byte.to_N y) (Byte.to_N x)); try done.
  intros Hab Hba. f_equal; [apply byte_to_N_inj; lia | by apply IH].
Qed.

(** ** keys.go: the comparator and the safety number *)

Lemma SecureCompare_fold (a b : bytes) (r : byte) :
  length a = length b →
  foldl (λ result ab, byte_or result (byte_xor ab.1 ab.2)) r (zip a b) = x00
  ↔ r = x00 ∧ a = b.
Proof.
  revert b r. induction a as [|x a IH]; intros [|y b] r Hlen; simpl in *; try done.
  - split; [by intros ->|by intros [-> _]].
  - rewrite IH by lia. rewrite byte_or_x00, byte_xor_x00.
    split.
    + intros [[-> ->] ->]. done.
    + intros [-> [= -> ->]]. done.
Qed.

(** C10: [SecureCompare a b] is true exactly when [a] and [b] have the same
    length and hold the same byte at every index. *)
Theorem SecureCompare_true_iff (a b : bytes) :
  crypto.SecureCompare a b = true
  ↔ length a = length b ∧ ∀ i : nat, a !! i = b !! i.
Proof.
  unfold crypto.SecureCompare.
  destruct (Nat.eqb_spec (length a) (length b)) as [Hlen|Hlen]; simpl.
  - rewrite bool_decide_eq_true, SecureCompare_fold by done.
    split.
    + intros [_ ->]. done.
    + intros [_ Hi]. split; [done|]. by apply list_eq.
  - split; [done|]. intros [? _]. done.
Qed.

Section slices.
Context (growslice : nat → nat → nat).
Import goslice.

Lemma contents_length mem s :
  within mem s → length (contents mem s) = len s.
Proof.
  intros (arr & Harr & Hlen & _). unfold contents. rewrite Harr. simpl.
  rewrite length_take, length_drop. lia.
Qed.

Lemma within_in_dom mem s : within mem s → array s ∈ dom mem.
Proof. intros (arr & Harr & _). apply elem_of_dom. eauto. Qed.

Lemma within_not_fresh mem s : within mem s → array s ≠ fresh (dom mem).
Proof. intros Hin%within_in_dom Heq. rewrite Heq in Hin. by apply is_fresh in Hin. Qed.

Lemma contents_insert_ne mem p arr s :
  array s ≠ p → contents (<[p := arr]> mem) s = contents mem s.
Proof. intros Hne. unfold contents. by rewrite lookup_insert_ne. Qed.

Lemma within_insert_ne mem p arr s :
  array s ≠ p → within mem s → within (<[p := arr]> mem) s.
Proof.
  intros Hne (arr' & Harr & Hlen). exists arr'. by rewrite lookup_insert_ne.
Qed.

(** Without room, [append] copies to a new array and leaves the memory it
    found as it was. *)
Lemma append_no_room mem s data :
  (cap s < len s + length data)%nat →
  append growslice mem s data =
  ({| array := fresh (dom mem); offset := 0; len := len s + length data;
      cap := growslice (cap s) (len s + length data) |},
   <[fresh (dom mem) :=
       contents mem s ++ data
       ++ replicate (growslice (cap s) (len s + length data) - (len s + length data)) x00]>
     mem).
Proof. intros Hroom. unfold append. by rewrite decide_False by lia. Qed.

(** In either case the slice [append] returns holds the bytes of the slice
    followed by the data. *)
Lemma append_contents mem s data :
  within mem s →
  contents (append growslice mem s data).2 (append growslice mem s data).1
  = contents mem s ++ data.
Proof.
  intros Hin. pose proof (contents_length mem s Hin) as Hlen.
  destruct Hin as (arr & Harr & Hl & Hc). unfold append.
  case_decide as Hroom; cbn [fst snd].
  - rewrite Harr. unfold contents. cbn [array offset len].
    rewrite lookup_insert_eq, Harr. cbn [default from_option]. unfold write, id.
    rewrite <- (take_take_drop arr (offset s) (len s)), <- app_assoc.
    rewrite drop_app_length' by (rewrite length_take; lia).
    rewrite app_assoc, take_app_length'; [done|].
    rewrite length_app, length_take, length_drop. lia.
  - unfold contents at 1. cbn [array offset len].
    rewrite lookup_insert_eq. cbn [default from_option]. unfold id.
    rewrite drop_0, app_assoc, take_app_length'; [done|].
    rewrite length_app. lia.
Qed.
End slices.

Section safety_number.
Context (P : Primitives) (growslice : nat → nat → nat).
Import goslice.

Lemma Sprintf_d_digit (n : N) :
  Sprintf_d (n mod 10) = String (Ascii.ascii_of_N (48 + n mod 10)) "".
Proof.
  assert (Hlt : (n mod 10 < 10)%N) by (apply N.mod_upper_bound; lia).
  destruct (n mod 10)%N as [|p]; [reflexivity|].
  do 4 (destruct p as [p|p|]; try reflexivity; try lia).
Qed.

Lemma digit_char_is_digit hash i j : is_digit (digit_char hash i j).
Proof.
  unfold is_digit, digit_char.
  generalize (Byte.to_N (nth ((i * 5 + j) `mod` 32)%nat hash x00)). intros n.
  assert (Hlt : (n mod 10 < 10)%N) by (apply N.mod_upper_bound; lia).
  generalize dependent (n mod 10)%N. intros d Hd.
  rewrite Ascii.N_ascii_embedding by lia. lia.
Qed.

Lemma digit_group_is_group hash i : is_group (digit_group hash i).
Proof.
  unfold is_group, digit_group. rewrite list_ascii_of_string_of_list_ascii.
  split; [reflexivity|].
  apply Forall_map, Forall_forall. intros. apply digit_char_is_digit.
Qed.

Lemma safetyNumber_loop_render hash : crypto.safetyNumber_loop hash = render hash.
Proof.
  unfold crypto.safetyNumber_loop.
  cbn -[Nat.modulo nth Sprintf_d N.modulo]. rewrite !Sprintf_d_digit. reflexivity.
Qed.

Lemma bytes_min_max_comm (a b : bytes) :
  bytes_min a b ++ bytes_max a b = bytes_min b a ++ bytes_max b a.
Proof.
  unfold bytes_min, bytes_max.
  destruct (bytes_ltb a b) eqn:Hab, (bytes_ltb b a) eqn:Hba; try done.
  - apply bytes_ltb_asym in Hab. congruence.
  - by rewrite (bytes_ltb_total a b).
Qed.

(** [GetSafetyNumber] as the three [append]s and the loop. *)
Lemma GetSafetyNumber_appends mem X Y :
  crypto.GetSafetyNumber P growslice mem X Y =
  let a1 := append growslice mem (crypto.SigningKey_PublicKey X)
              (contents mem (crypto.ExchangeKey_PublicKey X)) in
  let a2 := append growslice a1.2 (crypto.SigningKey_PublicKey Y)
              (contents a1.2 (crypto.ExchangeKey_PublicKey Y)) in
  let a3 := if bytes_ltb (contents a2.2 a1.1) (contents a2.2 a2.1)
            then append growslice a2.2 a1.1 (contents a2.2 a2.1)
            else append growslice a2.2 a2.1 (contents a2.2 a1.1) in
  (render (sha256_Sum256 P (contents a3.2 a3.1)), a3.2).
Proof.
  unfold crypto.GetSafetyNumber. cbn zeta.
  destruct (append growslice mem _ _) as [lc mem1]. simpl.
  destruct (append growslice mem1 _ _) as [rc mem2]. simpl.
  destruct (bytes_ltb _ _);
    destruct (append growslice mem2 _ _) as [combined mem3]; simpl;
    by rewrite safetyNumber_loop_render.
Qed.

(** Where the claim of the specification holds: for identities whose
    signing public keys have no room behind them, [GetSafetyNumber] hashes
    the smaller of the two identities' key bytes followed by the larger, does
    not depend on which identity is the local one, and leaves the arrays of
    the memory as they were. *)
Lemma GetSafetyNumber_no_room mem X Y :
  identity_within mem X → identity_within mem Y → no_room X → no_room Y →
  (crypto.GetSafetyNumber P growslice mem X Y).1
  = render (sha256_Sum256 P
              (bytes_min (identity_bytes_in mem X) (identity_bytes_in mem Y)
               ++ bytes_max (identity_bytes_in mem X) (identity_bytes_in mem Y)))
  ∧ ∀ p arr, mem !! p = Some arr →
             (crypto.GetSafetyNumber P growslice mem X Y).2 !! p = Some arr.
Proof.
  intros [HXs HXe] [HYs HYe] HX HY. unfold no_room in *.
  rewrite GetSafetyNumber_appends.
  rewrite append_no_room by (rewrite contents_length by done; lia).
  cbn [fst snd].
  set (p1 := fresh (dom mem)).
  set (lc := {| array := p1 |}).
  set (mem1 := <[p1 := _]> mem).
  assert (Hp1 : ∀ s, within mem s → array s ≠ p1) by apply within_not_fresh.
  assert (Hmem1 : ∀ s, within mem s → contents mem1 s = contents mem s)
    by (intros; apply contents_insert_ne; auto).
  rewrite (Hmem1 (crypto.ExchangeKey_PublicKey Y)) by done.
  assert (HYs1 : within mem1 (crypto.SigningKey_PublicKey Y))
    by (apply within_insert_ne; auto).
  rewrite (append_no_room growslice mem1) by (rewrite contents_length by done; lia).
  cbn [fst snd].
  set (p2 := fresh (dom mem1)).
  set (rc := {| array := p2 |}).
  set (mem2 := <[p2 := _]> mem1).
  assert (Hp12 : p1 ≠ p2).
  { intros Heq. assert (Hin : p1 ∈ dom mem1) by (apply elem_of_dom; unfold mem1;
      rewrite lookup_insert_eq; eauto).
    rewrite Heq in Hin. by apply is_fresh in Hin. }
  assert (Hlc : contents mem2 lc = identity_bytes_in mem X).
  { unfold mem2. rewrite contents_insert_ne by done.
    unfold contents, mem1, lc. simpl. rewrite lookup_insert_eq. simpl.
    rewrite drop_0, app_assoc, take_app_length'; [done|].
    rewrite length_app, !contents_length by done. reflexivity. }
  assert (Hrc : contents mem2 rc = identity_bytes_in mem Y).
  { unfold contents at 1, mem2, rc. simpl. rewrite lookup_insert_eq. simpl.
    rewrite drop_0, app_assoc, take_app_length'.
    - unfold identity_bytes_in, mem1. by rewrite contents_insert_ne by auto.
    - rewrite length_app, (contents_length mem1) by done.
      rewrite contents_length by done. reflexivity. }
  assert (Hlc_in : within mem2 lc).
  { eexists. unfold mem2, mem1. rewrite lookup_insert_ne by done.
    rewrite lookup_insert_eq. split; [done|]. simpl.
    rewrite !length_app, length_replicate, !contents_length by done. lia. }
  assert (Hrc_in : within mem2 rc).
  { eexists. unfold mem2. rewrite lookup_insert_eq. split; [done|]. simpl.
    rewrite !length_app, length_replicate, (contents_length mem1) by done.
    rewrite contents_length by done. lia. }
  rewrite Hlc, Hrc. cbn zeta.
  assert (Hdom1 : ∀ p, p ∈ dom mem → p ≠ p1).
  { intros p Hp Heq. rewrite Heq in Hp. by apply is_fresh in Hp. }
  assert (Hdom2 : ∀ p, p ∈ dom mem1 → p ≠ p2).
  { intros p Hp Heq. rewrite Heq in Hp. by apply is_fresh in Hp. }
  assert (Hsub : ∀ p, p ∈ dom mem → p ∈ dom mem1).
  { intros p Hp. unfold mem1. rewrite dom_insert. apply elem_of_union. by right. }
  assert (Hkeep : ∀ p arr, mem !! p = Some arr → mem2 !! p = Some arr ∧ p ∈ dom mem).
  { intros p arr Hp.
    assert (Hin : p ∈ dom mem) by (apply elem_of_dom; eauto).
    split; [|done]. unfold mem2. rewrite lookup_insert_ne; [|symmetry; auto].
    unfold mem1. rewrite lookup_insert_ne; [done|]. symmetry. auto. }
  assert (Hfresh3 : ∀ p, p ∈ dom mem → p ≠ fresh (dom mem2)).
  { intros p Hp Heq.
    assert (Hin : p ∈ dom mem2).
    { unfold mem2. rewrite dom_insert. apply elem_of_union. right. by apply Hsub. }
    rewrite Heq in Hin. by apply is_fresh in Hin. }
  unfold bytes_min, bytes_max.
  destruct (bytes_ltb (identity_bytes_in mem X) (identity_bytes_in mem Y)); cbn [fst snd].
  - rewrite append_contents, Hlc by done. split; [done|].
    intros p arr Hp. destruct (Hkeep p arr Hp) as [Hp2 Hin].
    unfold append. case_decide; cbn [snd].
    + destruct Hlc_in as (arr1 & -> & _). cbn [array lc].
      rewrite lookup_insert_ne; [done|]. symmetry. auto.
    + rewrite lookup_insert_ne; [done|]. symmetry. auto.
  - rewrite append_contents, Hrc by done. split; [done|].
    intros p arr Hp. destruct (Hkeep p arr Hp) as [Hp2 Hin].
    unfold append. case_decide; cbn [snd].
    + destruct Hrc_in as (arr1 & -> & _). cbn [array rc].
      rewrite lookup_insert_ne; [done|]. symmetry. auto.
    + rewrite lookup_insert_ne; [done|]. symmetry. auto.
Qed.

Lemma GetSafetyNumber_no_room_symmetric mem X Y :
  identity_within mem X → identity_within mem Y → no_room X → no_room Y →
  (crypto.GetSafetyNumber P growslice mem X Y).1
  = (crypto.GetSafetyNumber P growslice mem Y X).1
  ∧ ∃ groups : list string,
      (crypto.GetSafetyNumber P growslice mem X Y).1 = String.concat " " groups
      ∧ length groups = 12%nat
      ∧ Forall is_group groups.
Proof.
  intros HX HY HnX HnY.
  destruct (GetSafetyNumber_no_room mem X Y) as [-> _]; try done.
  destruct (GetSafetyNumber_no_room mem Y X) as [-> _]; try done.
  split; [by rewrite bytes_min_max_comm|].
  eexists. split; [reflexivity|]. split; [reflexivity|].
  apply Forall_map, Forall_forall. intros. apply digit_group_is_group.
Qed.

(** C6, the code at the failing input.  The signing public key of [X] is
    the first half of a 64-byte array whose second half is the exchange
    public key of [Y].  With [X] as the local identity the first [append]
    writes the exchange key of [X] over the exchange key of [Y], and the
    digest is taken over the keys of [X] followed by the signing key of [Y]
    and the exchange key of [X]; with [Y] as the local identity the keys of
    [Y] are copied before they are overwritten, and the digest is taken over
    the keys of [X] followed by those of [Y].  The two safety numbers are
    digests of different bytes (and differ under the stand-in digest), and
    the first is not the one of the specification. *)
Theorem GetSafetyNumber_shared_array_not_symmetric :
  identity_bytes_in shared.mem shared.X = replicate 32 x01 ++ replicate 32 x03
  ∧ identity_bytes_in shared.mem shared.Y = replicate 32 x05 ++ replicate 32 x07
  ∧ (crypto.GetSafetyNumber P growslice shared.mem shared.X shared.Y).1
    = render (sha256_Sum256 P (replicate 32 x01 ++ replicate 32 x03
                               ++ replicate 32 x05 ++ replicate 32 x03))
  ∧ (crypto.GetSafetyNumber P growslice shared.mem shared.Y shared.X).1
    = render (sha256_Sum256 P (replicate 32 x01 ++ replicate 32 x03
                               ++ replicate 32 x05 ++ replicate 32 x07))
  ∧ contents (crypto.GetSafetyNumber P growslice shared.mem shared.X shared.Y).2
      (crypto.ExchangeKey_PublicKey shared.Y) = replicate 32 x03
  ∧ (crypto.GetSafetyNumber testdouble.prims growslice shared.mem shared.X shared.Y).1
    ≠ (crypto.GetSafetyNumber testdouble.prims growslice shared.mem shared.Y shared.X).1.
Proof.
  split; [vm_compute; reflexivity|]. split; [vm_compute; reflexivity|].
  split; [|split; [|split]].
  - rewrite GetSafetyNumber_appends. cbn zeta. cbn [fst].
    apply (f_equal (λ b, render (sha256_Sum256 P b))). vm_compute. reflexivity.
  - rewrite GetSafetyNumber_appends. cbn zeta. cbn [fst].
    apply (f_equal (λ b, render (sha256_Sum256 P b))). vm_compute. reflexivity.
  - rewrite GetSafetyNumber_appends. cbn zeta. cbn [snd].
    vm_compute. reflexivity.
  - vm_compute. discriminate.
Qed.
End safety_number.

(** ** The stand-in primitives keep the laws *)

Lemma testdouble_Sum256_length m : length (testdouble.Sum256 m) = 32%nat.
Proof. unfold testdouble.Sum256, testdouble.le_bytes. by rewrite length_map, length_seq. Qed.

Lemma testdouble_tag_length key nonce ad text :
  length (testdouble.tag key nonce ad text) = 16%nat.
Proof.
  unfold testdouble.tag. rewrite length_take, testdouble_Sum256_length. reflexivity.
Qed.

Lemma testdouble_laws : PrimitivesLaws testdouble.prims.
Proof.
  split; simpl.
  - apply testdouble_Sum256_length.
  - intros key nonce plaintext ad. unfold testdouble.open, testdouble.seal.
    rewrite length_app, testdouble_tag_length.
    replace (length plaintext + 16 - 16)%nat with (length plaintext) by lia.
    rewrite take_app_length, drop_app_length. by rewrite decide_True.
  - intros key nonce plaintext ad. unfold testdouble.seal.
    by rewrite length_app, testdouble_tag_length.
Qed.

(** ** encryption.go: the session *)

Section session.
Context (P : Primitives).
Import crypto.

Lemma rand_Read_Ok n tape b tape' :
  rand_Read n tape = (Ok b, tape') → b = take n tape ∧ tape' = drop n tape.
Proof. unfold rand_Read. case_decide; naive_solver. Qed.

Lemma deriveMessageKey_length chainKey n :
  PrimitivesLaws P → length (deriveMessageKey P chainKey n) = 32%nat.
Proof.
  intros HP. unfold deriveMessageKey.
  rewrite length_take, (Sum256_length P HP). reflexivity.
Qed.

Lemma encryptWithKey_Ok plaintext key tape msg tape' :
  encryptWithKey P plaintext key tape = (Ok msg, tape') →
  length key = KeySize
  ∧ (NonceSize ≤ length tape)%nat
  ∧ Z.of_nat (length plaintext) ≤ 2 ^ 38 - 64
  ∧ tape' = drop NonceSize tape
  ∧ msg = {| Ciphertext := aead_seal P key (take NonceSize tape) plaintext [];
             Nonce := take NonceSize tape;
             Tag := [] |}.
Proof.
  unfold encryptWithKey, chacha20poly1305_New, rand_Read, Seal.
  destruct (decide (length key = KeySize)) as [Hk|]; simpl; [|done].
  destruct (decide (NonceSize ≤ length tape)%nat) as [Ht|]; simpl; [|done].
  rewrite decide_True by (rewrite length_take; unfold NonceSize in *; lia).
  destruct (decide (Z.of_nat (length plaintext) ≤ 2 ^ 38 - 64)); simpl; [|done].
  intros [= <- <-]. done.
Qed.

(** A message sealed under a key opens under the same key. *)
Lemma decryptWithKey_encryptWithKey plaintext key tape msg tape' :
  PrimitivesLaws P →
  encryptWithKey P plaintext key tape = (Ok msg, tape') →
  decryptWithKey P msg key = Ok plaintext.
Proof.
  intros HP (Hk & Ht & Hp & _ & ->)%encryptWithKey_Ok.
  unfold decryptWithKey, chacha20poly1305_New, Open. simpl.
  rewrite decide_True by done. simpl.
  rewrite decide_True by (rewrite length_take; unfold NonceSize in *; lia).
  rewrite (seal_length P HP).
  rewrite decide_False by (unfold Overhead; lia).
  rewrite decide_True by lia.
  rewrite (open_seal P HP). reflexivity.
Qed.

(** The round trip of the interface by key. *)
Lemma SimpleDecrypt_SimpleEncrypt plaintext key tape msg tape' :
  PrimitivesLaws P →
  SimpleEncrypt P plaintext key tape = (Ok msg, tape') →
  SimpleDecrypt P msg key = Ok plaintext.
Proof. apply decryptWithKey_encryptWithKey. Qed.

(** The round trip the session offers: when the receiving chain of the
    receiver is in the state of the sending chain of the sender, the
    message decrypts to the plaintext, and the two chains move in step. *)
Lemma Decrypt_Encrypt_matching_chain alice bob plaintext tape msg alice' tape' :
  PrimitivesLaws P →
  ReceivingChain bob = SendingChain alice →
  Encrypt P alice plaintext tape = (Ok msg, alice', tape') →
  ∃ bob',
    Decrypt P bob msg (MessageNumber (SendingChain alice)) = (Ok plaintext, bob')
    ∧ ReceivingChain bob' = SendingChain alice'.
Proof.
  intros HP Hchain. unfold Encrypt.
  destruct (encryptWithKey P plaintext _ tape) as [r tape1] eqn:Henc.
  intros [= -> <- <-].
  apply (decryptWithKey_encryptWithKey _ _ _ _ _ HP) in Henc.
  unfold Decrypt. rewrite Hchain, Henc. simpl. eauto.
Qed.

(** The session [NewDoubleRatchet] returns has the all-zero receiving
    chain key, whatever the shared secret and the keys. *)
Lemma NewDoubleRatchet_ReceivingChain sharedSecret remotePublicKey tape dr tape' :
  NewDoubleRatchet P sharedSecret remotePublicKey tape = (Ok dr, tape') →
  ReceivingChain dr = {| ChainKey := replicate 32 x00; MessageNumber := 0 |}.
Proof.
  unfold NewDoubleRatchet.
  destruct (rand_Read 32 tape) as [[dhPrivate| |] tape1]; bind_step; [|done..].
  destruct (X25519 P dhPrivate Basepoint) as [dhPublic| |]; bind_step; [|done..].
  destruct (deriveChainKey P _ _ _) as [ck| |]; bind_step; [|done..].
  by intros [= <- <-].
Qed.

(** So the key under which a new session opens message [n] is the same
    for every session: it does not depend on the shared secret. *)
Lemma NewDoubleRatchet_Decrypt_key sharedSecret remotePublicKey tape dr tape' msg n :
  NewDoubleRatchet P sharedSecret remotePublicKey tape = (Ok dr, tape') →
  (Decrypt P dr msg n).1 =
  wrap "failed to decrypt message"
    (decryptWithKey P msg (deriveMessageKey P (replicate 32 x00) n)).
Proof.
  intros Hnew%NewDoubleRatchet_ReceivingChain. unfold Decrypt. rewrite Hnew. simpl.
  by destruct (wrap _ _).
Qed.

(** No function of the package writes a receiving chain key other than by
    advancing it: [Encrypt] and [PerformDHRatchet] keep the receiving
    chain. *)
Lemma Encrypt_ReceivingChain dr plaintext tape r dr' tape' :
  Encrypt P dr plaintext tape = (r, dr', tape') → ReceivingChain dr' = ReceivingChain dr.
Proof.
  unfold Encrypt. destruct (encryptWithKey _ _ _ _). by intros [= <- <- <-].
Qed.

Lemma PerformDHRatchet_ReceivingChain dr remotePublicKey tape r dr' tape' :
  PerformDHRatchet P dr remotePublicKey tape = (r, dr', tape') →
  ReceivingChain dr' = ReceivingChain dr.
Proof.
  unfold PerformDHRatchet.
  destruct (rand_Read 32 tape) as [[newPrivate| |] tape1]; bind_step;
    try (by intros [= <- <- <-]).
  destruct (X25519 P newPrivate Basepoint) as [newPublic| |]; bind_step;
    try (by intros [= <- <- <-]).
  destruct (X25519 P newPrivate remotePublicKey) as [sharedSecret| |]; bind_step;
    try destruct (deriveRootAndChainKeys P _ _); by intros [= <- <- <-].
Qed.
End session.

Section session_claims.
Context (P : Primitives).
Import crypto.

Lemma deriveRootAndChainKeys_okm rootKey dhOutput :
  deriveRootAndChainKeys P rootKey dhOutput =
  (hkdf_okm P dhOutput rootKey (list_byte_of_string "SecureChat-RootChain") 32,
   drop 32 (hkdf_okm P dhOutput rootKey (list_byte_of_string "SecureChat-RootChain") 64)).
Proof. reflexivity. Qed.

Lemma Decrypt_keeps_ratchet_keys dr encrypted n :
  RootKey (Decrypt P dr encrypted n).2 = RootKey dr
  ∧ DHSelf (Decrypt P dr encrypted n).2 = DHSelf dr
  ∧ DHRemote (Decrypt P dr encrypted n).2 = DHRemote dr
  ∧ SendingChain (Decrypt P dr encrypted n).2 = SendingChain dr.
Proof.
  unfold Decrypt.
  destruct (wrap _ (decryptWithKey P encrypted _)); done.
Qed.

(** C2, as amended: [Decrypt] keeps no store of skipped keys and enforces
    no bound on the message number.  Whatever number the caller passes, the
    outcome is that of opening the message under the key derived from the
    current receiving chain key and that number.  When the message opens,
    [Decrypt] returns the plaintext, advances the receiving chain key once
    and adds one to its message number (it does not move to the header's
    number); nothing else of the session changes.  When it does not open,
    [Decrypt] returns the error of the cipher, wrapped as "failed to decrypt
    message" (there is no error for too many skipped keys), and the session
    is as it was.  The number the receiving chain has reached plays no part:
    two sessions with the same receiving chain key return the same. *)
Theorem Decrypt_any_message_number dr encrypted n :
  (∀ plaintext,
     decryptWithKey P encrypted (deriveMessageKey P (ChainKey (ReceivingChain dr)) n)
       = Ok plaintext →
     ∃ dr',
       Decrypt P dr encrypted n = (Ok plaintext, dr')
       ∧ ChainKey (ReceivingChain dr') = advanceChainKey P (ChainKey (ReceivingChain dr))
       ∧ MessageNumber (ReceivingChain dr') = u32 (MessageNumber (ReceivingChain dr) + 1)
       ∧ RootKey dr' = RootKey dr
       ∧ SendingChain dr' = SendingChain dr
       ∧ DHSelf dr' = DHSelf dr
       ∧ DHRemote dr' = DHRemote dr
       ∧ SessionMessageNumber dr' = SessionMessageNumber dr
       ∧ PreviousCounter dr' = PreviousCounter dr)
  ∧ (∀ e,
       decryptWithKey P encrypted (deriveMessageKey P (ChainKey (ReceivingChain dr)) n)
         = Err e →
       Decrypt P dr encrypted n = (Err (Errorf "failed to decrypt message" e), dr))
  ∧ (∀ m,
       decryptWithKey P encrypted (deriveMessageKey P (ChainKey (ReceivingChain dr)) n)
         = Panic m →
       Decrypt P dr encrypted n = (Panic m, dr))
  ∧ (Decrypt P dr encrypted n).1 ≠ Err TooManySkipped
  ∧ (∀ dr2,
       ChainKey (ReceivingChain dr2) = ChainKey (ReceivingChain dr) →
       (Decrypt P dr2 encrypted n).1 = (Decrypt P dr encrypted n).1).
Proof.
  split; [|split; [|split; [|split]]].
  - intros plaintext Hopen. unfold Decrypt. rewrite Hopen. cbn [wrap].
    eexists. split; [reflexivity|]. repeat split.
  - intros e Hopen. unfold Decrypt. by rewrite Hopen.
  - intros m Hopen. unfold Decrypt. by rewrite Hopen.
  - unfold Decrypt. by destruct (decryptWithKey P encrypted _).
  - intros dr2 Hkey. unfold Decrypt. rewrite Hkey.
    by destruct (wrap _ (decryptWithKey P encrypted _)).
Qed.

(** C3, as amended: the DH ratchet is [PerformDHRatchet], which the caller
    invokes with the new remote public key; [Decrypt] takes no header and
    never changes the root key, the DH keys or the sending chain.  A
    successful [PerformDHRatchet] draws a fresh private key from the
    CSRNG, makes it and its public key the new [DHSelf], records the remote
    key, derives the new root key and the new sending chain key from one
    HKDF over the DH output of the fresh private key and the remote key,
    salted with the old root key, and resets the sending chain's message
    number to 0. *)
Theorem PerformDHRatchet_sending_step dr remotePublicKey tape dr' tape' :
  PerformDHRatchet P dr remotePublicKey tape = (Ok (), dr', tape') →
  (∃ newPublic sharedSecret,
     X25519 P (take 32 tape) Basepoint = Ok newPublic
     ∧ X25519 P (take 32 tape) remotePublicKey = Ok sharedSecret
     ∧ tape' = drop 32 tape
     ∧ DHSelf dr' = {| PublicKey := newPublic; PrivateKey := take 32 tape |}
     ∧ DHRemote dr' = remotePublicKey
     ∧ RootKey dr' =
         hkdf_okm P sharedSecret (RootKey dr)
           (list_byte_of_string "SecureChat-RootChain") 32
     ∧ ChainKey (SendingChain dr') =
         drop 32 (hkdf_okm P sharedSecret (RootKey dr)
                    (list_byte_of_string "SecureChat-RootChain") 64)
     ∧ MessageNumber (SendingChain dr') = 0
     ∧ SessionMessageNumber dr' = 0
     ∧ PreviousCounter dr' = SessionMessageNumber dr)
  ∧ (∀ encrypted n,
       RootKey (Decrypt P dr encrypted n).2 = RootKey dr
       ∧ DHSelf (Decrypt P dr encrypted n).2 = DHSelf dr
       ∧ DHRemote (Decrypt P dr encrypted n).2 = DHRemote dr
       ∧ SendingChain (Decrypt P dr encrypted n).2 = SendingChain dr).
Proof.
  intros H. split; [|intros; apply Decrypt_keeps_ratchet_keys].
  revert H. unfold PerformDHRatchet.
  destruct (rand_Read 32 tape) as [r tape1] eqn:Hrand.
  destruct r as [newPrivate| |]; bind_step; [|done..].
  apply rand_Read_Ok in Hrand as [-> ->].
  destruct (X25519 P (take 32 tape) Basepoint) as [newPublic| |]; bind_step; [|done..].
  destruct (X25519 P (take 32 tape) remotePublicKey) as [sharedSecret| |];
    bind_step; [|done..].
  rewrite deriveRootAndChainKeys_okm. intros [= <- <-].
  exists newPublic, sharedSecret. repeat split.
Qed.

(** C4: when the AEAD rejects the message ([Open] returns its
    authentication error), [Decrypt] returns the authentication error and
    the session it leaves is the session it was given, field for field: root
    key, both chain keys and message numbers, DH keys.  (SHA-256 digests have
    32 bytes, so the message key is one the cipher accepts.) *)
Theorem Decrypt_auth_failure_atomic dr encrypted n :
  (∀ m, length (sha256_Sum256 P m) = 32%nat) →
  Open P (deriveMessageKey P (ChainKey (ReceivingChain dr)) n)
    (Nonce encrypted) (Ciphertext encrypted) [] = Err errOpen →
  Decrypt P dr encrypted n = (Err authentication_error, dr).
Proof.
  intros Hlen Hopen. unfold Decrypt, decryptWithKey, chacha20poly1305_New.
  rewrite decide_True; [|unfold deriveMessageKey; by rewrite length_take, Hlen].
  bind_step. rewrite Hopen. reflexivity.
Qed.

(** Whatever makes [Decrypt] fail, the session stays as it was. *)
Lemma Decrypt_failure_keeps_session dr encrypted n :
  is_Ok (Decrypt P dr encrypted n).1 = false → (Decrypt P dr encrypted n).2 = dr.
Proof.
  unfold Decrypt. by destruct (wrap _ (decryptWithKey P encrypted _)).
Qed.

(** C5, as amended: the nonce [Encrypt] seals under is the next twelve
    bytes read from the CSRNG.  The ciphertext of the message it returns is
    the plaintext sealed, under the message key of the chain, with those
    twelve bytes as nonce, and the same bytes are shipped in the [Nonce]
    field; the sending chain's message number does not enter the nonce. *)
Theorem Encrypt_nonce_is_rand_Read dr plaintext tape msg dr' tape' :
  Encrypt P dr plaintext tape = (Ok msg, dr', tape') →
  rand_Read NonceSize tape = (Ok (take 12 tape), tape')
  ∧ Nonce msg = take 12 tape
  ∧ Seal P (deriveMessageKey P (ChainKey (SendingChain dr))
              (MessageNumber (SendingChain dr)))
      (take 12 tape) plaintext [] = Ok (Ciphertext msg)
  ∧ Ciphertext msg =
      aead_seal P (deriveMessageKey P (ChainKey (SendingChain dr))
                     (MessageNumber (SendingChain dr)))
        (take 12 tape) plaintext [].
Proof.
  unfold Encrypt.
  destruct (encryptWithKey P plaintext _ tape) as [r tape1] eqn:Henc.
  intros [= -> <- <-]. revert Henc.
  unfold encryptWithKey, chacha20poly1305_New.
  case_decide as Hkey; cbn [wrap]; [|done].
  unfold rand_Read. case_decide as Htape; bind_step; [|done].
  destruct (Seal P _ (take NonceSize tape) plaintext []) as [ciphertext| |] eqn:Hseal;
    bind_step; [|done..].
  intros [= <- <-]. cbn [Nonce Ciphertext]. split; [done|]. split; [done|].
  split; [exact Hseal|].
  revert Hseal. unfold Seal. repeat case_decide; [|done..]. by intros [= <-].
Qed.
End session_claims.

(** *** The session on concrete inputs *)

(** C1, the code at the failing input: two parties open a session over the
    same shared secret with [NewDoubleRatchet]; the first encrypts "hi", the
    second's [Decrypt] of that message, with the message number 0 it was sent
    under, fails with the authentication error. *)
Theorem fresh_sessions_do_not_round_trip :
  ∃ alice tape bob sent alice' tape',
    crypto.NewDoubleRatchet testdouble.prims sample.sharedSecret sample.bob_public
      sample.alice_tape = (Ok alice, tape)
    ∧ crypto.NewDoubleRatchet testdouble.prims sample.sharedSecret sample.alice_public
        sample.bob_tape = (Ok bob, [])
    ∧ crypto.Encrypt testdouble.prims alice sample.hi tape = (Ok sent, alice', tape')
    ∧ crypto.Decrypt testdouble.prims bob sent 0 = (Err authentication_error, bob).
Proof.
  do 6 eexists.
  split; [vm_compute; reflexivity|].
  split; [vm_compute; reflexivity|].
  split; [vm_compute; reflexivity|].
  vm_compute; reflexivity.
Qed.

(** C2, counterexample: a session whose receiving chain is at message number
    0 is handed a message under number 1000, more than MAX_SKIP_PER_CHAIN
    ahead.  [Decrypt] does not fail: it returns the plaintext, and the
    receiving chain's number becomes 1. *)
Lemma Decrypt_accepts_message_number_1000 :
  ∃ sent bob',
    crypto.encryptWithKey testdouble.prims sample.hi
      (crypto.deriveMessageKey testdouble.prims (replicate 32 x00) 1000)
      (replicate 12 x44) = (Ok sent, [])
    ∧ 1000 - crypto.MessageNumber (crypto.ReceivingChain (sample.session 0))
      > MAX_SKIP_PER_CHAIN
    ∧ crypto.Decrypt testdouble.prims (sample.session 0) sent 1000 = (Ok sample.hi, bob')
    ∧ crypto.MessageNumber (crypto.ReceivingChain bob') = 1.
Proof.
  do 2 eexists.
  split; [vm_compute; reflexivity|].
  split; [vm_compute; reflexivity|].
  split; vm_compute; reflexivity.
Qed.

Lemma Decrypt_any_message_number_witness :
  (∃ dr', crypto.Decrypt testdouble.prims (sample.session 0)
            {| crypto.Ciphertext :=
                 testdouble.seal
                   (crypto.deriveMessageKey testdouble.prims (replicate 32 x00) 1000)
                   (replicate 12 x44) sample.hi [];
               crypto.Nonce := replicate 12 x44;
               crypto.Tag := [] |} 1000 = (Ok sample.hi, dr'))
  ∧ crypto.Decrypt testdouble.prims (sample.session 0) forged.message 1000
    = (Err authentication_error, sample.session 0).
Proof.
  split.
  - destruct (Decrypt_any_message_number testdouble.prims (sample.session 0)
                {| crypto.Ciphertext :=
                     testdouble.seal
                       (crypto.deriveMessageKey testdouble.prims (replicate 32 x00) 1000)
                       (replicate 12 x44) sample.hi [];
                   crypto.Nonce := replicate 12 x44;
                   crypto.Tag := [] |} 1000) as (Hopens & _).
    destruct (Hopens sample.hi) as (dr' & H & _).
    + vm_compute. reflexivity.
    + exists dr'. exact H.
  - destruct (Decrypt_any_message_number testdouble.prims (sample.session 0)
                forged.message 1000) as (_ & Hfails & _).
    apply Hfails. vm_compute. reflexivity.
Defined.

(** C3, counterexample: a session whose receiving chain is at message
    number 3 is handed a remote public key different from the one it holds.
    The ratchet step succeeds and leaves the receiving chain, key and number,
    as it was: no receiving chain key is derived and the number is not reset
    to 0. *)
Lemma PerformDHRatchet_keeps_receiving_chain :
  ∃ dr' tape',
    sample.carol_public ≠ crypto.DHRemote (sample.session 3)
    ∧ crypto.PerformDHRatchet testdouble.prims (sample.session 3) sample.carol_public
        sample.bob_tape = (Ok (), dr', tape')
    ∧ crypto.DHRemote dr' = sample.carol_public
    ∧ crypto.ChainKey (crypto.ReceivingChain dr') =
      crypto.ChainKey (crypto.ReceivingChain (sample.session 3))
    ∧ crypto.MessageNumber (crypto.ReceivingChain dr') = 3.
Proof.
  do 2 eexists.
  split; [vm_compute; discriminate|].
  split; [vm_compute; reflexivity|].
  split; [vm_compute; reflexivity|].
  split; vm_compute; reflexivity.
Qed.

Lemma PerformDHRatchet_sending_step_witness :
  ∃ dr' tape',
    sample.carol_public ≠ crypto.DHRemote (sample.session 3)
    ∧ crypto.PerformDHRatchet testdouble.prims (sample.session 3) sample.carol_public
        sample.bob_tape = (Ok (), dr', tape')
    ∧ crypto.MessageNumber (crypto.SendingChain dr') = 0
    ∧ crypto.DHRemote dr' = sample.carol_public.
Proof.
  destruct (crypto.PerformDHRatchet testdouble.prims (sample.session 3) sample.carol_public
              sample.bob_tape) as [[r dr'] tape'] eqn:E.
  assert (r = Ok ()) as -> by (vm_compute in E; congruence).
  exists dr', tape'. split; [vm_compute; discriminate|]. split; [reflexivity|].
  destruct (PerformDHRatchet_sending_step testdouble.prims _ _ _ _ _ E)
    as [(pk & ss & _ & _ & _ & _ & Hremote & _ & _ & Hn & _) _].
  split; assumption.
Defined.

Lemma Decrypt_auth_failure_witness :
  crypto.Decrypt testdouble.prims (sample.session 0) forged.message 0
  = (Err authentication_error, sample.session 0).
Proof.
  apply (Decrypt_auth_failure_atomic testdouble.prims (sample.session 0) forged.message 0).
  - apply testdouble_Sum256_length.
  - vm_compute. reflexivity.
Defined.

(** C5, counterexample: from one session state, with the sending chain at
    message number 0, two calls of [Encrypt] that differ only in what the
    CSRNG delivers seal under different nonces: each ciphertext is the
    plaintext sealed under the twelve bytes the CSRNG delivered, which are
    not the 96-bit encoding of 0 in either byte order, and it differs from
    what sealing under that encoding gives. *)
Lemma Encrypt_nonce_not_message_number :
  ∃ msg1 msg2 dr1 dr2,
    crypto.MessageNumber (crypto.SendingChain (sample.session 0)) = 0
    ∧ crypto.Encrypt testdouble.prims (sample.session 0) sample.hi (replicate 12 x44)
      = (Ok msg1, dr1, [])
    ∧ crypto.Encrypt testdouble.prims (sample.session 0) sample.hi (replicate 12 x45)
      = (Ok msg2, dr2, [])
    ∧ crypto.Ciphertext msg1
      = testdouble.seal (crypto.deriveMessageKey testdouble.prims (replicate 32 x02) 0)
          (replicate 12 x44) sample.hi []
    ∧ crypto.Ciphertext msg2
      = testdouble.seal (crypto.deriveMessageKey testdouble.prims (replicate 32 x02) 0)
          (replicate 12 x45) sample.hi []
    ∧ crypto.Ciphertext msg1 ≠ crypto.Ciphertext msg2
    ∧ crypto.Ciphertext msg1
      ≠ testdouble.seal (crypto.deriveMessageKey testdouble.prims (replicate 32 x02) 0)
          (u96_from_le 0) sample.hi []
    ∧ crypto.Ciphertext msg1
      ≠ testdouble.seal (crypto.deriveMessageKey testdouble.prims (replicate 32 x02) 0)
          (u96_from_be 0) sample.hi []
    ∧ crypto.Nonce msg1 ≠ crypto.Nonce msg2
    ∧ crypto.Nonce msg1 ≠ u96_from_le 0
    ∧ crypto.Nonce msg1 ≠ u96_from_be 0.
Proof.
  do 4 eexists.
  split; [reflexivity|].
  split; [vm_compute; reflexivity|].
  split; [vm_compute; reflexivity|].
  split; [vm_compute; reflexivity|].
  split; [vm_compute; reflexivity|].
  repeat split; vm_compute; discriminate.
Qed.

Lemma Encrypt_nonce_is_rand_Read_witness :
  ∃ msg dr' tape',
    crypto.Encrypt testdouble.prims (sample.session 0) sample.hi (replicate 12 x44)
      = (Ok msg, dr', tape')
    ∧ crypto.Nonce msg = replicate 12 x44
    ∧ crypto.Ciphertext msg
      = testdouble.seal (crypto.deriveMessageKey testdouble.prims (replicate 32 x02) 0)
          (replicate 12 x44) sample.hi [].
Proof.
  destruct (crypto.Encrypt testdouble.prims (sample.session 0) sample.hi (replicate 12 x44))
    as [[r dr'] tape'] eqn:E.
  destruct r as [msg| |]; [|vm_compute in E; discriminate..].
  exists msg, dr', tape'. split; [reflexivity|].
  destruct (Encrypt_nonce_is_rand_Read testdouble.prims _ _ _ _ _ _ E)
    as (_ & Hnonce & _ & Hsealed).
  split; [exact Hnonce|exact Hsealed].
Defined.

(** ** server.go: the broker *)

Section broker.
Import network.

Lemma reachable_run s events :
  reachable s → admissible_run s events →
  ∃ s', run s events = Ok s' ∧ reachable s'.
Proof.
  revert s. induction events as [|e events IH]; intros s Hs Hadm; simpl in *.
  - eauto.
  - destruct Hadm as [He Hrest].
    destruct (step s e) as [s1| |] eqn:Hstep; [|done..].
    bind_step. apply IH; [|done]. by eapply reachable_step.
Qed.

Lemma try_send_Sent {A} (ch ch' : chan A) v :
  try_send ch v = Sent ch' →
  closed ch = false ∧ closed ch' = false ∧ buf ch' = buf ch ++ [v] ∧ cap ch' = cap ch.
Proof.
  unfold try_send. destruct (closed ch); [done|].
  case_decide; [|done]. by intros [= <-].
Qed.

(** C7, as amended: the broker keeps no index by user id and supersedes
    nothing.  A hello changes the record of the client that sent it and
    nothing else: it writes the user id of the message into the record and,
    when the client's queue holds fewer messages than its capacity (256),
    appends to it the server_hello (from "server", to that user id, carrying
    the client's ID as session id); when the queue is full the server_hello
    is dropped.  The table of clients, the routing queue, the counter and
    every other record, an earlier one with the same user id included, stay
    as they were. *)
Theorem handleClientHello_touches_only_sender s c msg msgID now s' :
  handleClientHello s c msg msgID now = Ok s' →
  clients s' = clients s
  ∧ messageQueue s' = messageQueue s
  ∧ MessagesRouted s' = MessagesRouted s
  ∧ (∀ c', c' ≠ c → heap s' !! c' = heap s !! c')
  ∧ ∃ client,
      heap s !! c = Some client
      ∧ closed (Send client) = false
      ∧ heap s' !! c =
          Some {| ClientID := ClientID client;
                  UserID := From msg;
                  Conn := Conn client;
                  Send :=
                    if decide (length (buf (Send client)) < cap (Send client))%nat
                    then
                      {| buf :=
                           buf (Send client)
                           ++ [ {| ID := msgID;
                                   Type_ := "server_hello";
                                   From := "server";
                                   To := From msg;
                                   Timestamp := now;
                                   Payload :=
                                     {[ "version" := VString "1.0";
                                        "session_id" := VString (ClientID client);
                                        "capabilities" :=
                                          VStrings ["message_relay"; "offline_storage"] ]};
                                   Signature := "" |} ];
                         cap := cap (Send client);
                         closed := false |}
                    else Send client;
                  LastSeen := LastSeen client |}.
Proof.
  unfold handleClientHello.
  destruct (heap s !! c) as [client|] eqn:Hc; [|done].
  unfold try_send. cbn [set_UserID Send UserID ClientID].
  destruct (closed (Send client)) eqn:Hcl; [done|].
  case_decide as Hroom; intros [= <-]; cbn [clients messageQueue MessagesRouted heap set_heap].
  - split; [done|]. split; [done|]. split; [done|]. split.
    + intros c' Hne. by rewrite lookup_insert_ne.
    + exists client. split; [done|]. split; [done|].
      rewrite lookup_insert_eq, decide_True by done. reflexivity.
  - split; [done|]. split; [done|]. split; [done|]. split.
    + intros c' Hne. by rewrite lookup_insert_ne.
    + exists client. split; [done|]. split; [done|].
      rewrite lookup_insert_eq, decide_False by done. reflexivity.
Qed.

Lemma findClientByUserID_range_None h iteration userID :
  (∀ id c client, (id, c) ∈ iteration → h !! c = Some client → UserID client ≠ userID) →
  findClientByUserID_range h iteration userID = None.
Proof.
  induction iteration as [|[id c] rest IH]; intros Hno; simpl; [done|].
  destruct (h !! c) as [client|] eqn:Hc.
  - rewrite decide_False by (apply (Hno id c); [apply list_elem_of_here|done]).
    apply IH. intros id' c' client' Hin. apply (Hno id'). by apply list_elem_of_further.
  - apply IH. intros id' c' client' Hin. apply (Hno id'). by apply list_elem_of_further.
Qed.

(** C8, as amended: when no client in the table carries the destination's
    user id, [routeMessage] returns without any effect on the broker: no
    queue, the sender's included, receives a message, and the counter of
    routed messages stays.  (The source logs the fact and leaves offline
    delivery as a TODO.) *)
Theorem routeMessage_offline_drops s iteration routedMsg :
  range_clients s iteration →
  (∀ id c client,
     clients s !! id = Some c → heap s !! c = Some client →
     UserID client ≠ RoutedTo routedMsg) →
  routeMessage s iteration routedMsg = Ok s.
Proof.
  intros Hrange Hoffline. unfold routeMessage, findClientByUserID.
  rewrite findClientByUserID_range_None; [done|].
  intros id c client Hin. apply (Hoffline id).
  apply elem_of_map_to_list. by rewrite <- Hrange.
Qed.

(** Accepting a chat message queues nothing for any client either. *)
Lemma handleChatMessage_heap s c msg s' :
  handleChatMessage s c msg = Ok s' → heap s' = heap s ∧ clients s' = clients s.
Proof.
  unfold handleChatMessage.
  destruct (heap s !! c); [|done].
  case_decide; [by intros [= <-]|].
  destruct (try_send _ _); [|by intros [= <-]|done]. by intros [= <-].
Qed.
End broker.

(** C7, counterexample: two connections say hello as "alice", one after the
    other.  The state is reachable, both records are in the table with open
    connections and the user id "alice": the earlier one was neither closed
    nor replaced, and which of the two [findClientByUserID] returns depends
    on the order in which the table is visited. *)
Lemma two_hellos_coexist :
  ∃ s,
    run network.NewServer wire.two_hellos = Ok s
    ∧ network.reachable s
    ∧ active_authenticated s 1%positive "alice"
    ∧ active_authenticated s 2%positive "alice"
    ∧ ¬ supersession_invariant s
    ∧ network.findClientByUserID s [("client_1", 1%positive); ("client_2", 2%positive)]
        "alice" = Some 1%positive
    ∧ network.findClientByUserID s [("client_2", 2%positive); ("client_1", 1%positive)]
        "alice" = Some 2%positive.
Proof.
  destruct (reachable_run network.NewServer wire.two_hellos) as (s & Hrun & Hreach).
  { constructor. }
  { vm_compute. repeat split. }
  exists s. split; [done|]. split; [done|].
  assert (H1 : active_authenticated s 1%positive "alice").
  { exists "client_1". vm_compute in Hrun. injection Hrun as <-.
    eexists. repeat split; try (vm_compute; reflexivity). done. }
  assert (H2 : active_authenticated s 2%positive "alice").
  { exists "client_2". vm_compute in Hrun. injection Hrun as <-.
    eexists. repeat split; try (vm_compute; reflexivity). done. }
  split; [done|]. split; [done|].
  split; [intros Hinv; by specialize (Hinv _ _ _ H1 H2)|].
  vm_compute in Hrun. injection Hrun as <-.
  split; vm_compute; reflexivity.
Qed.

Lemma handleClientHello_touches_only_sender_witness :
  ∃ s s' second,
    run network.NewServer (take 3 wire.two_hellos) = Ok s
    ∧ network.handleClientHello s 2%positive (wire.hello "alice") "msg_2" 103 = Ok s'
    ∧ network.heap s' !! 1%positive = network.heap s !! 1%positive
    ∧ network.heap s' !! 2%positive = Some second
    ∧ network.UserID second = "alice"
    ∧ map network.Type_ (network.buf (network.Send second)) = ["server_hello"].
Proof.
  destruct (reachable_run network.NewServer (take 3 wire.two_hellos)) as (s & Hrun & _).
  { constructor. }
  { vm_compute. repeat split. }
  exists s.
  destruct (network.handleClientHello s 2%positive (wire.hello "alice") "msg_2" 103)
    as [s'| |] eqn:Hhello;
    [|exfalso; vm_compute in Hrun; injection Hrun as <-; vm_compute in Hhello;
      discriminate..].
  destruct (handleClientHello_touches_only_sender _ _ _ _ _ _ Hhello)
    as (_ & _ & _ & Hother & client & Hclient & _ & Hsecond).
  exists s'. eexists. split; [done|]. split; [reflexivity|].
  split; [apply Hother; lia|]. split; [exact Hsecond|]. split; [reflexivity|].
  vm_compute in Hrun. injection Hrun as <-.
  vm_compute in Hclient. injection Hclient as <-. reflexivity.
Defined.

(** C8, counterexample: alice, connected and greeted, sends a chat message
    to carol, who has no connection, and the router handles it.  Afterwards
    the routing queue is empty, nothing was routed, and all alice's queue
    holds is the server_hello: no error came back to her. *)
Lemma chat_to_offline_gets_no_reply :
  ∃ s alice,
    run network.NewServer wire.chat_to_offline = Ok s
    ∧ network.reachable s
    ∧ network.heap s !! 1%positive = Some alice
    ∧ map network.Type_ (network.buf (network.Send alice)) = ["server_hello"]
    ∧ network.buf (network.messageQueue s) = []
    ∧ network.MessagesRouted s = 0.
Proof.
  destruct (reachable_run network.NewServer wire.chat_to_offline) as (s & Hrun & Hreach).
  { constructor. }
  { vm_compute. repeat split. reflexivity. }
  exists s. vm_compute in Hrun. injection Hrun as <-.
  eexists. split; [vm_compute; reflexivity|]. split; [done|].
  split; [vm_compute; reflexivity|]. repeat split.
Qed.

Lemma routeMessage_offline_drops_witness :
  ∃ s,
    run network.NewServer (take 2 wire.chat_to_offline) = Ok s
    ∧ network.routeMessage s [("client_1", 1%positive)]
        {| network.RoutedFrom := "alice"; network.RoutedTo := "carol";
           network.RoutedMsg := wire.chat "alice" "carol" |} = Ok s.
Proof.
  destruct (reachable_run network.NewServer (take 2 wire.chat_to_offline))
    as (s & Hrun & _).
  { constructor. }
  { vm_compute. repeat split. }
  exists s. split; [done|].
  vm_compute in Hrun. injection Hrun as <-.
  apply routeMessage_offline_drops.
  - vm_compute. reflexivity.
  - intros id c client Hid Hc.
    apply elem_of_map_to_list in Hid. vm_compute in Hid.
    apply list_elem_of_singleton in Hid. injection Hid as -> ->.
    vm_compute in Hc. injection Hc as <-. simpl. discriminate.
Defined.

(** ** client.go: reconnection *)

Section reconnection.
Import network.

Lemma i64_small z : - 2 ^ 63 ≤ z < 2 ^ 63 → i64 z = z.
Proof. intros Hz. unfold i64. rewrite Z.mod_small; lia. Qed.


Lemma Connect_fails env c :
  dial_ok env (reconnectAttempts c) = false →
  ∃ e, Connect env c = ([], c, Returns (Err e)).
Proof.
  intros Hdial. unfold Connect. destruct (isConnected c); [eauto|].
  rewrite Hdial. eauto.
Qed.

(** One turn of the loop. *)
Lemma attemptReconnection_loop_turn fuel env c :
  attemptReconnection_loop (S fuel) env c =
  if decide (reconnectAttempts c < maxReconnectAttempts c) then
    if done_at_top env (reconnectAttempts c) then ([], c, Cancelled)
    else
      let c := set_reconnectAttempts c (i64 (reconnectAttempts c + 1)) in
      let announce := sendConnectionEvent ConnectionEventReconnecting in
      match Connect env c with
      | (effs, c, Blocks) => (announce :: effs, c, Blocked)
      | (effs, c, Returns (Ok _)) => (announce :: effs, c, Reconnected)
      | (effs, c, Returns _) =>
          let delay := reconnectWait c in
          if done_in_wait env (reconnectAttempts c)
          then (announce :: effs, c, Cancelled)
          else
            let '(effs', c, o) := attemptReconnection_loop fuel env c in
            (announce :: effs ++ timeAfter delay :: effs', c, o)
      end
  else ([logGivingUp], c, GaveUp).
Proof. reflexivity. Qed.

(** [Connect] either blocks after the "connected" event, with the client
    marked connected and the counter at 0, or returns an error and has done
    nothing. *)
Lemma Connect_effects env c :
  (Connect env c =
   ([sendConnectionEvent ConnectionEventConnected],
    {| isConnected := true; serverURL := serverURL c; userID := userID c;
       reconnectAttempts := 0; maxReconnectAttempts := maxReconnectAttempts c;
       reconnectDelay := reconnectDelay c |},
    Blocks)
   ∧ isConnected c = false ∧ dial_ok env (reconnectAttempts c) = true)
  ∨ ∃ e, Connect env c = ([], c, Returns (Err e)).
Proof.
  unfold Connect. destruct (isConnected c); [eauto|].
  destruct (dial_ok env _); eauto.
Qed.









End reconnection.



(** The round trip on matching chains, run once. *)
Lemma Decrypt_Encrypt_matching_chain_example :
  ∃ msg alice' tape' bob',
    crypto.Encrypt testdouble.prims (sample.session 0) sample.hi (replicate 12 x44)
      = (Ok msg, alice', tape')
    ∧ crypto.Decrypt testdouble.prims peer.session msg 0 = (Ok sample.hi, bob').
Proof.
  destruct (crypto.Encrypt testdouble.prims (sample.session 0) sample.hi (replicate 12 x44))
    as [[r alice'] tape'] eqn:E.
  destruct r as [msg| |]; [|vm_compute in E; discriminate..].
  destruct (Decrypt_Encrypt_matching_chain testdouble.prims (sample.session 0) peer.session
              sample.hi _ msg alice' tape' testdouble_laws eq_refl E) as (bob' & H & _).
  exists msg, alice', tape', bob'. split; [reflexivity|exact H].
Defined.


(** * More of the code: properties *)

(** ** keys.go: identities and prekeys *)

Lemma testsign_laws : Ed25519Laws testsign.prims.
Proof.
  split; cbn [ed25519_public ed25519_sign ed25519_verify testsign.prims].
  - intros seed. unfold testsign.public. apply testdouble_Sum256_length.
  - intros seed msg Hseed. unfold testsign.verify, testsign.sign.
    rewrite <- Hseed, drop_app_length. by rewrite bool_decide_eq_true.
Qed.

Lemma hex_digit_code (n : N) :
  (n < 16)%N →
  Ascii.N_of_ascii (hex_digit n) = (if (n <? 10)%N then 48 + n else 87 + n)%N.
Proof.
  intros Hn. unfold hex_digit. apply Ascii.N_ascii_embedding.
  destruct (N.ltb_spec n 10); lia.
Qed.

Lemma hex_digit_is_hex (n : N) : (n < 16)%N → is_hex_digit (hex_digit n).
Proof.
  intros Hn. unfold is_hex_digit. rewrite hex_digit_code by done.
  destruct (N.ltb_spec n 10); lia.
Qed.

Lemma hex_digit_inj (n m : N) :
  (n < 16)%N → (m < 16)%N → hex_digit n = hex_digit m → n = m.
Proof.
  intros Hn Hm Heq. apply (f_equal Ascii.N_of_ascii) in Heq.
  rewrite !hex_digit_code in Heq by done.
  destruct (N.ltb_spec n 10), (N.ltb_spec m 10); lia.
Qed.

Lemma byte_nibbles (x : byte) :
  (Byte.to_N x / 16 < 16)%N ∧ (Byte.to_N x mod 16 < 16)%N.
Proof.
  pose proof (byte_to_N_lt x). split.
  - apply N.Div0.div_lt_upper_bound. lia.
  - apply N.mod_upper_bound. lia.
Qed.

Lemma length_string_of_list_ascii (l : list Ascii.ascii) :
  String.length (string_of_list_ascii l) = length l.
Proof. induction l as [|c l IH]; simpl; congruence. Qed.

Lemma Sprintf_x_length (b : bytes) : String.length (Sprintf_x b) = (2 * length b)%nat.
Proof.
  unfold Sprintf_x. rewrite length_string_of_list_ascii.
  induction b as [|x b IH]; simpl; lia.
Qed.

Lemma Sprintf_x_hex (b : bytes) :
  Forall is_hex_digit (list_ascii_of_string (Sprintf_x b)).
Proof.
  unfold Sprintf_x. rewrite list_ascii_of_string_of_list_ascii.
  induction b as [|x b IH]; simpl; [constructor|].
  destruct (byte_nibbles x).
  apply Forall_cons; split; [by apply hex_digit_is_hex|].
  apply Forall_cons; split; [by apply hex_digit_is_hex|done].
Qed.

(** The hexadecimal form determines the bytes. *)
Lemma Sprintf_x_inj (a b : bytes) : Sprintf_x a = Sprintf_x b → a = b.
Proof.
  unfold Sprintf_x. intros H.
  apply (f_equal list_ascii_of_string) in H.
  rewrite !list_ascii_of_string_of_list_ascii in H.
  revert b H. induction a as [|x a IH]; intros [|y b]; simpl; try done.
  intros [= Hhi Hlo Hrest]. f_equal; [|by apply IH].
  destruct (byte_nibbles x), (byte_nibbles y).
  apply hex_digit_inj in Hhi, Hlo; try done.
  apply byte_to_N_inj.
  rewrite (N.div_mod' (Byte.to_N x) 16), (N.div_mod' (Byte.to_N y) 16). lia.
Qed.

Section keys_properties.
Context (P : Primitives) (S : Ed25519).
Import crypto keys.

(** X1: a fingerprint is sixteen lower-case hexadecimal digits, and two
    identities have the same fingerprint exactly when the SHA-256 digests of
    their public keys (signing key, then exchange key) agree on the first
    eight bytes. *)
Theorem generateFingerprint_16_hex_digits (X Y : IdentityKeyPair) :
  (∀ m, length (sha256_Sum256 P m) = 32%nat) →
  String.length (generateFingerprint P X) = 16%nat
  ∧ Forall is_hex_digit (list_ascii_of_string (generateFingerprint P X))
  ∧ (generateFingerprint P X = generateFingerprint P Y
     ↔ take 8 (sha256_Sum256 P (identity_bytes X))
       = take 8 (sha256_Sum256 P (identity_bytes Y))).
Proof.
  intros Hlen. unfold generateFingerprint. fold (identity_bytes X) (identity_bytes Y).
  split; [|split].
  - rewrite Sprintf_x_length, length_take, Hlen. reflexivity.
  - apply Sprintf_x_hex.
  - split; [apply Sprintf_x_inj|by intros ->].
Qed.

Lemma ed25519_GenerateKey_Ok tape pub priv tape' :
  ed25519_GenerateKey S tape = (Ok (pub, priv), tape') →
  (32 ≤ length tape)%nat
  ∧ pub = ed25519_public S (take 32 tape)
  ∧ priv = take 32 tape ++ ed25519_public S (take 32 tape)
  ∧ tape' = drop 32 tape.
Proof.
  unfold ed25519_GenerateKey, rand_Read.
  case_decide; bind_step; [|done]. by intros [= <- <- <-].
Qed.

Lemma GenerateIdentityKeyPair_SigningKey tape identity tape' :
  GenerateIdentityKeyPair P S tape = (Ok identity, tape') →
  (32 ≤ length tape)%nat
  ∧ SigningKey identity =
      {| PublicKey := ed25519_public S (take 32 tape);
         PrivateKey := take 32 tape ++ ed25519_public S (take 32 tape) |}.
Proof.
  unfold GenerateIdentityKeyPair.
  destruct (ed25519_GenerateKey S tape) as [r tape1] eqn:Hgen.
  destruct r as [[pub priv]| |]; bind_step; [|done..].
  apply ed25519_GenerateKey_Ok in Hgen as (Hlen & -> & -> & ->).
  destruct (rand_Read 32 (drop 32 tape)) as [[exchangePriv| |] tape2]; bind_step; [|done..].
  destruct (X25519 P _ Basepoint) as [exchangePub| |]; bind_step; [|done..].
  by intros [= <- <-].
Qed.

(** X2: a successful [GenerateIdentityKeyPair] takes exactly 64 bytes from
    the CSRNG, the first 32 as the seed of the signing key and the next 32
    as the exchange private key; the signing private key is the seed
    followed by the public key, the exchange public key is the X25519 image
    of the private key, and the fingerprint stored in the identity is the
    fingerprint of its two public keys. *)
Theorem GenerateIdentityKeyPair_Ok tape identity tape' :
  GenerateIdentityKeyPair P S tape = (Ok identity, tape') →
  (64 ≤ length tape)%nat
  ∧ tape' = drop 64 tape
  ∧ SigningKey identity =
      {| PublicKey := ed25519_public S (take 32 tape);
         PrivateKey := take 32 tape ++ ed25519_public S (take 32 tape) |}
  ∧ PrivateKey (ExchangeKey identity) = take 32 (drop 32 tape)
  ∧ X25519 P (take 32 (drop 32 tape)) Basepoint = Ok (PublicKey (ExchangeKey identity))
  ∧ Fingerprint identity = generateFingerprint P identity.
Proof.
  unfold GenerateIdentityKeyPair.
  destruct (ed25519_GenerateKey S tape) as [r tape1] eqn:Hgen.
  destruct r as [[pub priv]| |]; bind_step; [|done..].
  apply ed25519_GenerateKey_Ok in Hgen as (Hlen & -> & -> & ->).
  destruct (rand_Read 32 (drop 32 tape)) as [r tape2] eqn:Hrand.
  destruct r as [exchangePriv| |]; bind_step; [|done..].
  assert (Hlen2 : (32 ≤ length (drop 32 tape))%nat).
  { revert Hrand. unfold rand_Read. by case_decide. }
  apply rand_Read_Ok in Hrand as [-> ->].
  destruct (X25519 P _ Basepoint) as [exchangePub| |] eqn:HX; bind_step; [|done..].
  intros [= <- <-]. rewrite length_drop in Hlen2. rewrite drop_drop.
  repeat split; try done. lia.
Qed.

(** X3: without enough entropy [GenerateIdentityKeyPair] fails, and the
    error tells which key it could not make: the signing key when fewer than
    32 bytes are left, the exchange private key when fewer than 64 are. *)
Theorem GenerateIdentityKeyPair_short_entropy tape :
  (length tape < 64)%nat →
  ∃ e,
    (GenerateIdentityKeyPair P S tape).1
    = Err (Errorf (if decide (length tape < 32)%nat
                   then "failed to generate signing key"
                   else "failed to generate exchange private key") e).
Proof.
  intros Hlen. unfold GenerateIdentityKeyPair, ed25519_GenerateKey, rand_Read.
  destruct (decide (32 ≤ length tape)%nat) as [H32|H32]; bind_step.
  - rewrite decide_False by (rewrite length_drop; lia). bind_step.
    rewrite decide_False by lia. eauto.
  - rewrite decide_True by lia. eauto.
Qed.

(** X4: a prekey made by [GeneratePreKey] for an identity made by
    [GenerateIdentityKeyPair] verifies under the identity's signing public
    key. *)
Theorem VerifyPreKey_GeneratePreKey tape identity tape1 id prekey tape2 :
  Ed25519Laws S →
  GenerateIdentityKeyPair P S tape = (Ok identity, tape1) →
  GeneratePreKey P S id identity tape1 = (Ok prekey, tape2) →
  VerifyPreKey S prekey (PublicKey (SigningKey identity)) = Ok true.
Proof.
  intros HS (Hlen & Hsk)%GenerateIdentityKeyPair_SigningKey.
  unfold GeneratePreKey, VerifyPreKey, ed25519_Sign, ed25519_Verify.
  rewrite Hsk. cbn [PublicKey PrivateKey].
  destruct (rand_Read 32 tape1) as [[privateKey| |] tape3]; bind_step; [|done..].
  destruct (X25519 P privateKey Basepoint) as [publicKey| |]; bind_step; [|done..].
  case_decide; bind_step; [|done]. intros [= <- <-]. simpl.
  rewrite decide_True by apply (public_length S HS).
  rewrite (verify_sign S HS); [done|].
  rewrite length_take. lia.
Qed.

(** X5: [GeneratePreKey] signs with the signing private key it is handed
    without checking it: when the CSRNG and X25519 deliver the prekey and the
    signing private key is not 64 bytes long, the call panics instead of
    returning an error. *)
Theorem GeneratePreKey_bad_private_key id identity tape :
  length (PrivateKey (SigningKey identity)) ≠ 64%nat →
  is_Ok (X25519 P (take 32 tape) Basepoint) = true →
  (32 ≤ length tape)%nat →
  (GeneratePreKey P S id identity tape).1
  = Panic ("ed25519: bad private key length: "
           +:+ Sprintf_d (N.of_nat (length (PrivateKey (SigningKey identity))))).
Proof.
  intros Hlen HX Htape. unfold GeneratePreKey, rand_Read, ed25519_Sign.
  rewrite decide_True by done. bind_step.
  destruct (X25519 P (take 32 tape) Basepoint); [|done..]. bind_step.
  by rewrite decide_False.
Qed.

Lemma GenerateOneTimeKeys_loop_Ok n startID i tape keys tape' :
  GenerateOneTimeKeys_loop P n startID i tape = (Ok keys, tape') →
  length keys = n
  ∧ (32 * n ≤ length tape)%nat
  ∧ tape' = drop (32 * n) tape
  ∧ ∀ k key,
      keys !! k = Some key →
      OneTimeKey_ID key = u32 (startID + (i + Z.of_nat k))
      ∧ PrivateKey (OneTimeKey_KeyPair key) = take 32 (drop (32 * k) tape)
      ∧ X25519 P (PrivateKey (OneTimeKey_KeyPair key)) Basepoint
        = Ok (PublicKey (OneTimeKey_KeyPair key)).
Proof.
  revert i tape keys tape'. induction n as [|n IH]; intros i tape keys tape'.
  - simpl. intros [= <- <-]. rewrite drop_0.
    split; [done|]. split; [lia|]. split; [done|]. intros k key. done.
  - cbn [GenerateOneTimeKeys_loop].
    destruct (rand_Read 32 tape) as [r tape1] eqn:Hrand.
    destruct r as [privateKey| |]; bind_step; [|done..].
    assert (Hlen : (32 ≤ length tape)%nat).
    { revert Hrand. unfold rand_Read. by case_decide. }
    apply rand_Read_Ok in Hrand as [-> ->].
    destruct (X25519 P (take 32 tape) Basepoint) as [publicKey| |] eqn:HX;
      bind_step; [|done..].
    destruct (GenerateOneTimeKeys_loop P n startID (i + 1) (drop 32 tape))
      as [rest tape2] eqn:Hrest.
    destruct rest as [rest| |]; bind_step; [|done..].
    intros [= <- <-].
    apply IH in Hrest as (Hl & Ht & -> & Hkeys).
    rewrite length_drop in Ht. rewrite drop_drop.
    split; [simpl; lia|]. split; [lia|]. split; [f_equal; lia|].
    intros [|k] key; simpl.
    + intros [= <-]. cbn [OneTimeKey_ID OneTimeKey_KeyPair PrivateKey PublicKey].
      split; [|split; [|exact HX]].
      * unfold u32. by rewrite Z.add_0_r, Zplus_mod_idemp_r.
      * reflexivity.
    + intros Hk. apply Hkeys in Hk as (Hid & Hpriv & Hpub).
      split; [|split; [|exact Hpub]].
      * rewrite Hid. f_equal. lia.
      * rewrite Hpriv, drop_drop. do 2 f_equal. lia.
Qed.

(** X6: a successful [GenerateOneTimeKeys(startID, count)] returns [count]
    keys and takes [32 * count] bytes from the CSRNG; the key at index [k]
    has the ID [startID + k] (modulo 2^32), the [k]-th block of 32 bytes as
    its private key and the X25519 image of it as its public key. *)
Theorem GenerateOneTimeKeys_Ok startID count tape keys tape' :
  GenerateOneTimeKeys P startID count tape = (Ok keys, tape') →
  0 ≤ count
  ∧ Z.of_nat (length keys) = count
  ∧ tape' = drop (32 * Z.to_nat count) tape
  ∧ ∀ k key,
      keys !! k = Some key →
      OneTimeKey_ID key = u32 (startID + Z.of_nat k)
      ∧ PrivateKey (OneTimeKey_KeyPair key) = take 32 (drop (32 * k) tape)
      ∧ X25519 P (PrivateKey (OneTimeKey_KeyPair key)) Basepoint
        = Ok (PublicKey (OneTimeKey_KeyPair key)).
Proof.
  unfold GenerateOneTimeKeys. case_decide; [done|].
  intros (Hl & _ & Ht & Hkeys)%GenerateOneTimeKeys_loop_Ok.
  split; [lia|]. split; [lia|]. split; [done|].
  intros k key Hk. by apply Hkeys in Hk.
Qed.

(** X7: the IDs of the keys of one call of [GenerateOneTimeKeys] differ
    from each other, also when they wrap around 2^32, as long as the call
    asks for at most 2^32 keys. *)
Theorem GenerateOneTimeKeys_IDs_distinct startID count tape keys tape' j k kj kk :
  GenerateOneTimeKeys P startID count tape = (Ok keys, tape') →
  count ≤ 2 ^ 32 →
  keys !! j = Some kj → keys !! k = Some kk →
  j ≠ k → OneTimeKey_ID kj ≠ OneTimeKey_ID kk.
Proof.
  unfold GenerateOneTimeKeys. case_decide; [done|].
  intros (Hl & _ & _ & Hkeys)%GenerateOneTimeKeys_loop_Ok Hmax Hj Hk Hjk.
  pose proof (lookup_lt_Some _ _ _ Hj). pose proof (lookup_lt_Some _ _ _ Hk).
  apply Hkeys in Hj as [-> _]. apply Hkeys in Hk as [-> _].
  rewrite !Z.add_0_l. unfold u32. intros Heq. apply Hjk.
  assert (Hdiv : ((startID + Z.of_nat j) - (startID + Z.of_nat k)) mod 2 ^ 32 = 0).
  { rewrite Zminus_mod, Heq, Z.sub_diag. reflexivity. }
  apply Z.mod_divide in Hdiv; [|lia]. destruct Hdiv as [q Hq].
  assert (q = 0) by nia. lia.
Qed.

Lemma GenerateOneTimeKeys_loop_short n startID i tape :
  (length tape < 32 * n)%nat →
  ∃ e, (GenerateOneTimeKeys_loop P n startID i tape).1 = Err e.
Proof.
  revert i tape. induction n as [|n IH]; intros i tape Hlen; [simpl in Hlen; lia|].
  cbn [GenerateOneTimeKeys_loop]. unfold rand_Read.
  case_decide; bind_step; [|eauto].
  destruct (X25519 P (take 32 tape) Basepoint) as [publicKey| |] eqn:HX; bind_step.
  - destruct (IH (i + 1) (drop 32 tape)) as [e He].
    { rewrite length_drop. lia. }
    destruct (GenerateOneTimeKeys_loop P n startID (i + 1) (drop 32 tape)) as [rest t].
    simpl in *. subst rest. bind_step. eauto.
  - eauto.
  - unfold X25519 in HX. by destruct (curve25519_scalarmult _ _ _).
Qed.

(** X8: the edges of [GenerateOneTimeKeys].  Asked for no keys it returns
    the empty list and leaves the CSRNG alone.  Asked for a negative number,
    or for more than 2^45 keys (more pointers than [make] allocates), it
    panics before it reads any entropy.  For a count [make] accepts, when the
    CSRNG holds fewer than [32 * count] bytes it returns an error and no keys
    at all, not the keys it could still make. *)
Theorem GenerateOneTimeKeys_edges startID count tape :
  (count = 0 → GenerateOneTimeKeys P startID count tape = (Ok [], tape))
  ∧ (count < 0 ∨ 2 ^ 45 < count →
     GenerateOneTimeKeys P startID count tape
     = (Panic "runtime error: makeslice: len out of range", tape))
  ∧ (0 ≤ count ≤ 2 ^ 45 →
     Z.of_nat (length tape) < 32 * count →
     ∃ e, (GenerateOneTimeKeys P startID count tape).1 = Err e).
Proof.
  unfold GenerateOneTimeKeys, maxAlloc. split; [|split].
  - intros ->. reflexivity.
  - intros Hout. by rewrite decide_True by lia.
  - intros Hin Hshort. rewrite decide_False by lia.
    apply GenerateOneTimeKeys_loop_short. lia.
Qed.
End keys_properties.

(** ** encryption.go: more of the session *)

Section session_more.
Context (P : Primitives).
Import crypto conversation.

Lemma deriveChainKey_Ok rootKey localPublic remotePublic :
  deriveChainKey P rootKey localPublic remotePublic
  = Ok (hkdf_okm P rootKey [] (localPublic ++ remotePublic) 32).
Proof. reflexivity. Qed.

(** X9: [NewDoubleRatchet] succeeds exactly when the CSRNG delivers 32
    bytes and X25519 accepts them as a private key (the derivation of the
    chain key cannot fail).  It then has taken exactly those 32 bytes; the
    root key is the SHA-256 digest of the shared secret, the sending chain
    key is the first 32 bytes of HKDF over the root key with the own and the
    remote public key as info, and both chains start at message number 0. *)
Theorem NewDoubleRatchet_outcome sharedSecret remotePublicKey tape :
  (is_Ok (NewDoubleRatchet P sharedSecret remotePublicKey tape).1 = true
   ↔ (32 ≤ length tape)%nat ∧ is_Ok (X25519 P (take 32 tape) Basepoint) = true)
  ∧ ∀ dr tape',
      NewDoubleRatchet P sharedSecret remotePublicKey tape = (Ok dr, tape') →
      tape' = drop 32 tape
      ∧ PrivateKey (DHSelf dr) = take 32 tape
      ∧ X25519 P (take 32 tape) Basepoint = Ok (PublicKey (DHSelf dr))
      ∧ DHRemote dr = remotePublicKey
      ∧ RootKey dr = sha256_Sum256 P sharedSecret
      ∧ SendingChain dr =
          {| ChainKey :=
               hkdf_okm P (sha256_Sum256 P sharedSecret) []
                 (PublicKey (DHSelf dr) ++ remotePublicKey) 32;
             MessageNumber := 0 |}
      ∧ MessageNumber (ReceivingChain dr) = 0.
Proof.
  unfold NewDoubleRatchet, rand_Read.
  destruct (decide (32 ≤ length tape)%nat) as [Hlen|Hlen]; bind_step.
  - destruct (X25519 P (take 32 tape) Basepoint) as [dhPublic| |]; bind_step.
    + rewrite deriveChainKey_Ok. bind_step. split; [done|].
      intros dr tape' [= <- <-]. done.
    + split; [|done]. split; [done|]. by intros [_ ?].
    + split; [|done]. split; [done|]. by intros [_ ?].
  - split; [|done]. simpl. split; [done|]. intros [? _]. lia.
Qed.

Lemma Encrypt_Ok dr plaintext tape msg dr' tape' :
  Encrypt P dr plaintext tape = (Ok msg, dr', tape') →
  encryptWithKey P plaintext
    (deriveMessageKey P (ChainKey (SendingChain dr)) (MessageNumber (SendingChain dr)))
    tape = (Ok msg, tape')
  ∧ SendingChain dr' =
      {| ChainKey := advanceChainKey P (ChainKey (SendingChain dr));
         MessageNumber := u32 (MessageNumber (SendingChain dr) + 1) |}.
Proof.
  unfold Encrypt. destruct (encryptWithKey P plaintext _ tape) as [r t].
  by intros [= -> <- <-].
Qed.

(** X10: a conversation in order.  When the receiving chain of the receiver
    is in the state of the sending chain of the sender and the sender
    encrypts a list of plaintexts one after the other, the receiver, who
    decrypts the messages in the same order, each under the number its
    receiving chain has reached, gets the plaintexts back, all of them and
    in order; afterwards the two chains are in the same state again. *)
Theorem DecryptAll_EncryptAll alice bob plaintexts tape msgs alice' tape' :
  PrimitivesLaws P →
  ReceivingChain bob = SendingChain alice →
  EncryptAll P alice plaintexts tape = (Ok msgs, alice', tape') →
  ∃ bob',
    DecryptAll P bob msgs = (Ok plaintexts, bob')
    ∧ ReceivingChain bob' = SendingChain alice'
    ∧ length msgs = length plaintexts.
Proof.
  intros HP. revert alice bob tape msgs alice' tape'.
  induction plaintexts as [|p ps IH]; intros alice bob tape msgs alice' tape' Hchain.
  - simpl. intros [= <- <- <-]. eauto.
  - cbn [EncryptAll].
    destruct (Encrypt P alice p tape) as [[r alice1] tape1] eqn:Henc.
    destruct r as [msg| |]; [|done..].
    destruct (EncryptAll P alice1 ps tape1) as [[r alice2] tape2] eqn:Hall.
    destruct r as [rest| |]; bind_step; [|done..].
    intros [= <- <- <-].
    apply Encrypt_Ok in Henc as [Henc Hsend].
    apply (decryptWithKey_encryptWithKey _ _ _ _ _ _ HP) in Henc.
    cbn [DecryptAll]. unfold Decrypt at 1.
    rewrite Hchain, Henc. cbn [wrap].
    set (bob1 := {| RootKey := RootKey bob |}).
    destruct (IH alice1 bob1 tape1 rest alice2 tape2) as (bob' & Hdec & Hch & Hlen);
      [by rewrite Hsend|done|].
    rewrite Hdec. bind_step. exists bob'. simpl. auto.
Qed.

(** X11: a failed [Encrypt] still spends a message number.  When the CSRNG
    cannot deliver the twelve bytes of the nonce, [Encrypt] returns the error
    "failed to generate nonce" and no message, yet the session it leaves has
    the sending chain key advanced and the message number raised by one. *)
Theorem Encrypt_without_entropy_advances_chain dr plaintext tape :
  (∀ m, length (sha256_Sum256 P m) = 32%nat) →
  (length tape < 12)%nat →
  ∃ e dr',
    Encrypt P dr plaintext tape = (Err (Errorf "failed to generate nonce" e), dr', tape)
    ∧ ChainKey (SendingChain dr') = advanceChainKey P (ChainKey (SendingChain dr))
    ∧ MessageNumber (SendingChain dr') = u32 (MessageNumber (SendingChain dr) + 1).
Proof.
  intros Hlen Htape. unfold Encrypt, encryptWithKey, chacha20poly1305_New.
  rewrite decide_True by (unfold deriveMessageKey; by rewrite length_take, Hlen).
  cbn [wrap]. unfold rand_Read. rewrite decide_False by (unfold NonceSize; lia).
  bind_step. eauto.
Qed.

(** X12: [PerformDHRatchet] is all or nothing: when it does not succeed
    (the CSRNG is short of 32 bytes, or X25519 rejects the new private key or
    the remote public key) the session is left exactly as it was. *)
Theorem PerformDHRatchet_failure_keeps_session dr remotePublicKey tape r dr' tape' :
  PerformDHRatchet P dr remotePublicKey tape = (r, dr', tape') →
  r ≠ Ok () →
  dr' = dr
  ∧ ((length tape < 32)%nat →
     ∃ e, r = Err (Errorf "failed to generate new DH private key" e) ∧ tape' = tape).
Proof.
  unfold PerformDHRatchet, rand_Read.
  destruct (decide (32 ≤ length tape)%nat) as [Hlen|Hlen]; bind_step.
  - destruct (X25519 P (take 32 tape) Basepoint) as [newPublic| |]; bind_step;
      [|intros [= <- <- <-] _; split; [done|lia]..].
    destruct (X25519 P (take 32 tape) remotePublicKey) as [sharedSecret| |]; bind_step;
      [|intros [= <- <- <-] _; split; [done|lia]..].
    destruct (deriveRootAndChainKeys P _ _). by intros [= <- <- <-].
  - intros [= <- <- <-] _. split; [done|]. eauto.
Qed.

(** X13: the interface by key.  A message [SimpleEncrypt] returns opens
    under the same key to the plaintext; its nonce is the twelve bytes taken
    from the CSRNG, its ciphertext is sixteen bytes longer than the plaintext,
    its [Tag] field is empty, and the key has 32 bytes. *)
Theorem SimpleEncrypt_round_trip plaintext key tape msg tape' :
  PrimitivesLaws P →
  SimpleEncrypt P plaintext key tape = (Ok msg, tape') →
  SimpleDecrypt P msg key = Ok plaintext
  ∧ length key = 32%nat
  ∧ Nonce msg = take 12 tape
  ∧ length (Nonce msg) = 12%nat
  ∧ tape' = drop 12 tape
  ∧ length (Ciphertext msg) = (length plaintext + 16)%nat
  ∧ Tag msg = [].
Proof.
  intros HP Henc. split; [by eapply decryptWithKey_encryptWithKey|].
  apply encryptWithKey_Ok in Henc as (Hk & Ht & _ & -> & ->). simpl.
  unfold NonceSize in *. rewrite length_take, (seal_length P HP).
  repeat split; try done. lia.
Qed.

(** X14: a key that is not 32 bytes long is refused on both sides with the
    error "failed to create AEAD cipher", and [SimpleEncrypt] refuses it
    before it takes anything from the CSRNG. *)
Theorem Simple_bad_key_length plaintext msg key tape :
  length key ≠ 32%nat →
  ∃ e,
    SimpleEncrypt P plaintext key tape
    = (Err (Errorf "failed to create AEAD cipher" e), tape)
    ∧ SimpleDecrypt P msg key = Err (Errorf "failed to create AEAD cipher" e).
Proof.
  intros Hk. unfold SimpleEncrypt, SimpleDecrypt, encryptWithKey, decryptWithKey,
    chacha20poly1305_New.
  rewrite decide_False by done. bind_step. eauto.
Qed.

(** X15: [Decrypt] hands the nonce of the message to the cipher unchecked.
    A message whose nonce is not twelve bytes long makes [Decrypt] panic
    instead of returning an error; a message with a twelve-byte nonce and
    fewer than sixteen bytes of ciphertext is refused with the
    authentication error.  In both cases the session is not changed. *)
Theorem Decrypt_malformed_message dr encrypted n :
  (∀ m, length (sha256_Sum256 P m) = 32%nat) →
  (length (Nonce encrypted) ≠ 12%nat →
   Decrypt P dr encrypted n
   = (Panic "chacha20poly1305: bad nonce length passed to Open", dr))
  ∧ (length (Nonce encrypted) = 12%nat →
     (length (Ciphertext encrypted) < 16)%nat →
     Decrypt P dr encrypted n = (Err authentication_error, dr)).
Proof.
  intros Hlen.
  assert (Hk : length (deriveMessageKey P (ChainKey (ReceivingChain dr)) n) = KeySize).
  { unfold deriveMessageKey. by rewrite length_take, Hlen. }
  unfold Decrypt, decryptWithKey, chacha20poly1305_New, Open.
  rewrite decide_True by done. bind_step. split.
  - intros Hn. by rewrite decide_False.
  - intros Hn Hc. rewrite decide_True by done. by rewrite decide_True.
Qed.
End session_more.

(** ** server.go: invariants and routing *)

Section broker_more.
Import network.

Lemma try_send_cases {A} (ch : chan A) v :
  closed ch = false →
  (length (buf ch) < cap ch)%nat
  ∧ try_send ch v = Sent {| buf := buf ch ++ [v]; cap := cap ch; closed := false |}
  ∨ (cap ch ≤ length (buf ch))%nat ∧ try_send ch v = Default.
Proof.
  intros Hcl. unfold try_send. rewrite Hcl.
  case_decide; [left|right]; split; try done; lia.
Qed.

Lemma findClientByUserID_range_Some h iteration userID c :
  findClientByUserID_range h iteration userID = Some c →
  ∃ id client, (id, c) ∈ iteration ∧ h !! c = Some client ∧ UserID client = userID.
Proof.
  induction iteration as [|[id c'] rest IH]; simpl; [done|].
  destruct (h !! c') as [client|] eqn:Hc'.
  - case_decide as Hu.
    + intros [= <-]. exists id, client. split; [apply list_elem_of_here|done].
    + intros (id' & cl & Hin & ?)%IH. exists id', cl.
      split; [by apply list_elem_of_further|done].
  - intros (id' & cl & Hin & ?)%IH. exists id', cl.
    split; [by apply list_elem_of_further|done].
Qed.

Lemma findClientByUserID_range_found h iteration userID id c client :
  (id, c) ∈ iteration → h !! c = Some client → UserID client = userID →
  is_Some (findClientByUserID_range h iteration userID).
Proof.
  induction iteration as [|[id' c'] rest IH]; intros Hin Hc Hu; [by inversion Hin|].
  simpl. destruct (h !! c') as [client'|] eqn:Hc'.
  - case_decide; [eauto|].
    apply IH; try done. apply elem_of_cons in Hin as [[= -> ->]|Hin]; [|done].
    congruence.
  - apply IH; try done. apply elem_of_cons in Hin as [[= -> ->]|Hin]; [|done].
    congruence.
Qed.

(** When a user id belongs to one client of the table, every order of
    visiting the table finds that client. *)
Lemma findClientByUserID_only_client s iteration c user :
  range_clients s iteration → only_client_of s c user →
  findClientByUserID s iteration user = Some c.
Proof.
  intros Hrange [(id & client & Hid & Hc & Hu) Honly]. unfold findClientByUserID.
  destruct (findClientByUserID_range_found (heap s) iteration user id c client)
    as [c' Hfind]; try done.
  { rewrite Hrange. by apply elem_of_map_to_list. }
  rewrite Hfind. f_equal.
  apply findClientByUserID_range_Some in Hfind as (id' & client' & Hin & Hc' & Hu').
  apply (Honly id' c' client'); try done.
  apply elem_of_map_to_list. by rewrite <- Hrange.
Qed.

Lemma messageRouter_step_only_client s iteration routedMsg rest c client :
  range_clients s iteration →
  buf (messageQueue s) = routedMsg :: rest →
  only_client_of s c (RoutedTo routedMsg) →
  heap s !! c = Some client →
  if closed (Send client)
  then messageRouter_step s iteration = Panic "send on closed channel"
  else
    ∃ s',
      messageRouter_step s iteration = Ok s'
      ∧ buf (messageQueue s') = rest
      ∧ clients s' = clients s
      ∧ (∀ c', c' ≠ c → heap s' !! c' = heap s !! c')
      ∧ if decide (length (buf (Send client)) < cap (Send client))%nat
        then heap s' !! c =
               Some (set_Send client
                       {| buf := buf (Send client) ++ [RoutedMsg routedMsg];
                          cap := cap (Send client); closed := false |})
             ∧ MessagesRouted s' = i64 (MessagesRouted s + 1)
        else heap s' !! c = Some client ∧ MessagesRouted s' = MessagesRouted s.
Proof.
  intros Hrange Hbuf Honly Hc.
  unfold messageRouter_step. rewrite Hbuf. unfold routeMessage.
  rewrite (findClientByUserID_only_client _ iteration c); [|done|done].
  simpl. rewrite Hc. unfold try_send.
  destruct (closed (Send client)); [done|].
  case_decide as Hroom.
  - eexists. split; [reflexivity|]. simpl. repeat split; try done.
    + intros c' Hne. by rewrite lookup_insert_ne.
    + by rewrite lookup_insert_eq.
  - eexists. split; [reflexivity|]. simpl. repeat split; done.
Qed.

(** X18: a turn of the router on a message for a user id that belongs to
    one client of the table, in any state, with no other goroutine acting
    between the lookup and the send.  Whatever the
    order in which the table is visited, the message leaves the routing
    queue.  When the client's queue is open and holds fewer messages than its
    capacity, the message is appended to it and the counter of routed
    messages goes up by one; when it is open and full, the message is dropped
    and the counter stays; no other record changes and nothing goes back to
    the sender.  When the client's queue has been closed (its read loop has
    ended since the table was read), the send panics. *)
Theorem messageRouter_step_delivers s iteration routedMsg rest c client :
  range_clients s iteration →
  buf (messageQueue s) = routedMsg :: rest →
  only_client_of s c (RoutedTo routedMsg) →
  heap s !! c = Some client →
  if closed (Send client)
  then messageRouter_step s iteration = Panic "send on closed channel"
  else
    ∃ s',
      messageRouter_step s iteration = Ok s'
      ∧ buf (messageQueue s') = rest
      ∧ clients s' = clients s
      ∧ (∀ c', c' ≠ c → heap s' !! c' = heap s !! c')
      ∧ if decide (length (buf (Send client)) < cap (Send client))%nat
        then heap s' !! c =
               Some (set_Send client
                       {| buf := buf (Send client) ++ [RoutedMsg routedMsg];
                          cap := cap (Send client); closed := false |})
             ∧ MessagesRouted s' = i64 (MessagesRouted s + 1)
        else heap s' !! c = Some client ∧ MessagesRouted s' = MessagesRouted s.
Proof. apply messageRouter_step_only_client. Qed.

(** X19: what one client sends touches no other client.  Handling a
    message of any type from the client [c] leaves the table of clients and
    the record of every other client as they were; and a message that is
    neither a client_hello nor a chat (a presence message, a message of an
    unknown type) changes nothing but the time the sender was last seen: it
    is not answered, not even with an error. *)
Theorem readMessages_message_frame s c msg msgID now s' :
  readMessages_message s c msg msgID now = Ok s' →
  clients s' = clients s
  ∧ (∀ c', c' ≠ c → heap s' !! c' = heap s !! c')
  ∧ (Type_ msg ≠ "client_hello" → Type_ msg ≠ "chat" →
     ∃ client,
       heap s !! c = Some client
       ∧ s' = set_heap s (<[c := set_LastSeen client now]> (heap s))).
Proof.
  unfold readMessages_message.
  destruct (heap s !! c) as [client|] eqn:Hc; [|done].
  unfold handleMessage, handleClientHello, handleChatMessage, handlePresenceMessage.
  simpl. rewrite lookup_insert_eq.
  repeat case_decide; try done.
  - destruct (try_send _ _); [| |done]; intros [= <-]; simpl;
      (split; [done|]); (split; [|done]); intros c' Hne;
      by rewrite !lookup_insert_ne.
  - intros [= <-]. simpl. split; [done|]. split; [|done]. intros c' Hne.
    by rewrite lookup_insert_ne.
  - destruct (try_send _ _); [| |done]; intros [= <-]; simpl;
      (split; [done|]); (split; [|done]); intros c' Hne;
      by rewrite lookup_insert_ne.
  - intros [= <-]. simpl. split; [done|]. split; [|eauto]. intros c' Hne.
    by rewrite lookup_insert_ne.
  - intros [= <-]. simpl. split; [done|]. split; [|eauto]. intros c' Hne.
    by rewrite lookup_insert_ne.
Qed.

(** X20: a chat message is forwarded as it came.  The read loop of a client
    reads a frame of at most 512 bytes that parses to a chat message with a
    destination; the routing queue is open, empty and has room, and the
    destination user id belongs to one client whose queue is open and has
    room.  After the turn of the read loop and a turn of the router, with
    nothing in between, the destination's queue ends with the very message
    that was read: the broker neither checks nor rewrites its [From] field,
    and it does not ask whether the sender has said hello.  A frame of more
    than 512 bytes is not handled at all: the read loop ends as on a read
    error. *)
Theorem chat_is_forwarded_unchanged s c sender size msg msgID now iteration dest destClient :
  heap s !! c = Some sender →
  (size ≤ 512)%nat →
  Type_ msg = "chat" → To msg ≠ "" →
  closed (messageQueue s) = false →
  buf (messageQueue s) = [] →
  (0 < cap (messageQueue s))%nat →
  range_clients s iteration →
  only_client_of s dest (To msg) →
  heap s !! dest = Some destClient →
  closed (Send destClient) = false →
  (length (buf (Send destClient)) < cap (Send destClient))%nat →
  (∃ s1 s' client',
     readMessages_turn s c (Frame size (Some msg)) msgID now = Ok s1
     ∧ messageRouter_step s1 iteration = Ok s'
     ∧ heap s' !! dest = Some client'
     ∧ buf (Send client') = buf (Send destClient) ++ [msg]
     ∧ buf (messageQueue s') = []
     ∧ MessagesRouted s' = i64 (MessagesRouted s + 1))
  ∧ ∀ size' parsed,
      (512 < size')%nat →
      readMessages_turn s c (Frame size' parsed) msgID now = readMessages_exit s c.
Proof.
  intros Hc Hsize Htype Hto Hqcl Hempty Hqcap Hrange Honly Hd Hdcl Hroom.
  split; [|by intros size' parsed Hbig; unfold readMessages_turn; rewrite decide_True].
  set (s0 := set_heap s (<[c := set_LastSeen sender now]> (heap s))).
  set (routed := {| RoutedFrom := UserID sender; RoutedTo := To msg; RoutedMsg := msg |}).
  set (s1 := {| heap := heap s0; clients := clients s;
                messageQueue := {| buf := [routed]; cap := cap (messageQueue s);
                                   closed := false |};
                MessagesRouted := MessagesRouted s |}).
  assert (Hstep1 : readMessages_turn s c (Frame size (Some msg)) msgID now = Ok s1).
  { unfold readMessages_turn. rewrite decide_False by lia.
    unfold readMessages_message. rewrite Hc.
    unfold handleMessage. rewrite decide_False by (rewrite Htype; done).
    rewrite decide_True by done. unfold handleChatMessage. simpl.
    rewrite lookup_insert_eq, decide_False by done.
    unfold try_send. simpl. rewrite Hqcl, Hempty. simpl.
    rewrite decide_True by lia. reflexivity. }
  assert (Hd1 : ∃ destClient1,
             heap s1 !! dest = Some destClient1 ∧ Send destClient1 = Send destClient).
  { simpl. destruct (decide (dest = c)) as [->|Hne].
    - rewrite lookup_insert_eq. simplify_eq. eauto.
    - rewrite lookup_insert_ne by done. eauto. }
  destruct Hd1 as (destClient1 & Hd1 & Hsend1).
  assert (Honly1 : only_client_of s1 dest (To msg)).
  { destruct Honly as [(id & cl & Hid & Hcl & Hu) Honly]. split.
    - exists id, destClient1. split; [done|]. split; [done|].
      revert Hd1. simpl. destruct (decide (dest = c)) as [->|Hne].
      + rewrite lookup_insert_eq. intros [= <-]. simpl. by simplify_eq.
      + rewrite lookup_insert_ne by done. intros. by simplify_eq.
    - intros id' c' client' Hid'. simpl. destruct (decide (c' = c)) as [->|Hne].
      + rewrite lookup_insert_eq. intros [= <-]. simpl. by apply (Honly id' c sender).
      + rewrite lookup_insert_ne by done. apply (Honly id' c'). done. }
  pose proof (messageRouter_step_only_client s1 iteration routed [] dest destClient1
                Hrange eq_refl Honly1 Hd1) as Hres.
  rewrite Hsend1, Hdcl in Hres. destruct Hres as (s' & Hstep2 & Hq & _ & _ & Hres).
  rewrite decide_True in Hres by done. destruct Hres as [Hheap Hcount].
  exists s1, s'. eexists. split; [exact Hstep1|]. split; [exact Hstep2|].
  split; [exact Hheap|]. split; [reflexivity|]. split; [exact Hq|exact Hcount].
Qed.

(** X21: the end of a read loop and the table of clients.  When the loop of
    a client ends whose record the table holds under the client's ID only
    (as [addClient] enters it), the client's connection and queue are closed
    afterwards, no entry of the table points to the client, and no lookup by
    user id, in whatever order the table is visited, returns it.  When the
    loop ends before [handleWebSocket] has reached its [addClient] (the
    goroutine is started first), [addClient] enters the client afterwards:
    the table then points to a client whose connection and queue are
    closed. *)
Theorem readMessages_exit_unregisters s c :
  (∀ client s',
     heap s !! c = Some client →
     (∀ id, clients s !! id = Some c → id = ClientID client) →
     readMessages_exit s c = Ok s' →
     heap s' !! c = Some (set_Conn (set_Send client
                             {| buf := buf (Send client); cap := cap (Send client);
                                closed := true |}) ConnClosed)
     ∧ (∀ id, clients s' !! id ≠ Some c)
     ∧ ∀ iteration user,
         range_clients s' iteration → findClientByUserID s' iteration user ≠ Some c)
  ∧ ∀ id now,
      heap s !! c = None →
      ∃ s1 s2 client,
        readMessages_exit (handleWebSocket_accept s c id now) c = Ok s1
        ∧ addClient s1 c = Ok s2
        ∧ clients s2 !! id = Some c
        ∧ heap s2 !! c = Some client
        ∧ ClientID client = id ∧ UserID client = ""
        ∧ closed (Send client) = true ∧ Conn client = ConnClosed.
Proof.
  split.
  - intros client s' Hc Hkey Hexit.
    assert (Hcl : closed (Send client) = false).
    { revert Hexit. unfold readMessages_exit, removeClient. rewrite Hc.
      unfold close_chan. by destruct (closed (Send client)). }
    assert (Hnot : ∀ id, clients s' !! id ≠ Some c).
    { revert Hexit. unfold readMessages_exit, removeClient. rewrite Hc.
      unfold close_chan. rewrite Hcl. bind_step. simpl.
      rewrite lookup_insert_eq. intros [= <-]. simpl. intros id.
      destruct (decide (id = ClientID client)) as [->|Hne].
      - by rewrite lookup_delete_eq.
      - rewrite lookup_delete_ne by done. intros Hid. by apply Hkey in Hid. }
    split; [|split; [done|]].
    + revert Hexit. unfold readMessages_exit, removeClient. rewrite Hc.
      unfold close_chan. rewrite Hcl. bind_step. simpl.
      rewrite lookup_insert_eq. intros [= <-]. simpl. by rewrite lookup_insert_eq.
    + intros iteration user Hrange Hfind.
      apply findClientByUserID_range_Some in Hfind as (id & cl & Hin & _).
      apply (Hnot id). apply elem_of_map_to_list. by rewrite <- Hrange.
  - intros id now Hfresh.
    unfold readMessages_exit, removeClient, handleWebSocket_accept, addClient, close_chan.
    cbn [heap set_heap clients set_clients]. rewrite lookup_insert_eq.
    cbn [Send make_chan closed]. bind_step.
    cbn [heap set_heap clients set_clients]. rewrite lookup_insert_eq.
    eexists. eexists. eexists. split; [reflexivity|].
    cbn [heap set_heap clients set_clients]. rewrite lookup_insert_eq.
    split; [reflexivity|].
    cbn [heap set_heap clients set_clients ClientID set_Conn set_Send].
    rewrite !lookup_insert_eq. by repeat split.
Qed.
End broker_more.

(** ** user.go: fingerprints and safety numbers of contacts *)

Lemma string_app_assoc (a b c : string) : (a +:+ b) +:+ c = a +:+ (b +:+ c).
Proof.
  induction a as [|x a IH]; [done|].
  change (String x ((a +:+ b) +:+ c) = String x (a +:+ b +:+ c)). by rewrite IH.
Qed.

Lemma rune_string_ascii (r : N) :
  (r < 128)%N → rune_string r = String (Ascii.ascii_of_N r) "".
Proof. intros Hr. unfold rune_string. by destruct (N.ltb_spec r 128); [|lia]. Qed.

Lemma foldl_ext {A B} (f g : A → B → A) (a : A) (l : list B) :
  (∀ a x, f a x = g a x) → foldl f a l = foldl g a l.
Proof. intros Hfg. revert a. induction l as [|x l IH]; intros a; simpl; congruence. Qed.

Lemma foldl_append_chars {B} (f : B → Ascii.ascii) (acc : string) (l : list B) :
  foldl (λ acc b, acc +:+ String (f b) "") acc l = acc +:+ string_of_list_ascii (map f l).
Proof.
  revert acc. induction l as [|x l IH]; intros acc; simpl.
  - induction acc as [|y acc IHacc]; [done|].
    change (String y acc = String y (acc +:+ "")). by rewrite <- IHacc.
  - rewrite IH, string_app_assoc. reflexivity.
Qed.

(** The loop of [formatSafetyNumber], for any way of choosing the digits. *)
Lemma safety_number_loop (c : nat → Ascii.ascii) :
  foldl (λ acc i,
           (if (0 <? i)%nat && (i `mod` 5 =? 0)%nat then acc +:+ " " else acc)
           +:+ String (c i) "")
        "" (seq 0 60)
  = String.concat " "
      (map (λ i, string_of_list_ascii (map (λ j, c (i * 5 + j)%nat) (seq 0 5))) (seq 0 12)).
Proof. reflexivity. Qed.

Lemma fingerprint_letter_code (b : byte) :
  Ascii.N_of_ascii (fingerprint_letter b) = (97 + Byte.to_N b mod 26)%N.
Proof.
  unfold fingerprint_letter.
  assert (Byte.to_N b mod 26 < 26)%N by (apply N.mod_upper_bound; lia).
  generalize dependent (Byte.to_N b mod 26)%N. intros d Hd.
  apply Ascii.N_ascii_embedding. lia.
Qed.

Lemma fingerprint_digit_is_digit fingerprint k : is_digit (fingerprint_digit fingerprint k).
Proof.
  unfold is_digit, fingerprint_digit.
  generalize (Ascii.N_of_ascii
                (nth (k `mod` String.length fingerprint)%nat
                   (list_ascii_of_string fingerprint) Ascii.zero)). intros n.
  assert (Hlt : (n mod 10 < 10)%N) by (apply N.mod_upper_bound; lia).
  generalize dependent (n mod 10)%N. intros d Hd.
  rewrite Ascii.N_ascii_embedding by lia. lia.
Qed.

Section contacts.
Import models.

Lemma generateFingerprint_letters publicKey :
  (8 ≤ length publicKey)%nat →
  generateFingerprint publicKey
  = string_of_list_ascii (map fingerprint_letter (take 8 publicKey)).
Proof.
  intros Hlen. unfold generateFingerprint. rewrite decide_False by lia.
  rewrite (foldl_ext _ (λ acc b, acc +:+ String (fingerprint_letter b) ""));
    [apply (foldl_append_chars fingerprint_letter "")|].
  intros acc b. unfold fingerprint_letter.
  assert (Byte.to_N b mod 26 < 26)%N by (apply N.mod_upper_bound; lia).
  generalize dependent (Byte.to_N b mod 26)%N. intros d Hd.
  rewrite byte_of_N_to_N by lia. by rewrite rune_string_ascii by lia.
Qed.

Lemma formatSafetyNumber_render fingerprint :
  fingerprint ≠ "" →
  formatSafetyNumber fingerprint = Ok (fingerprint_render fingerprint).
Proof.
  intros Hne. unfold formatSafetyNumber.
  rewrite decide_False by (by destruct fingerprint).
  f_equal. unfold fingerprint_render, fingerprint_group.
  rewrite <- (safety_number_loop (fingerprint_digit fingerprint)).
  apply foldl_ext. intros acc i. cbn zeta. f_equal.
  unfold fingerprint_digit.
  generalize (Ascii.N_of_ascii
                (nth (i `mod` String.length fingerprint)%nat
                   (list_ascii_of_string fingerprint) Ascii.zero)). intros n.
  assert (Hlt : (n mod 10 < 10)%N) by (apply N.mod_upper_bound; lia).
  generalize dependent (n mod 10)%N. intros d Hd.
  by rewrite rune_string_ascii by lia.
Qed.

Lemma generateFingerprint_nonempty publicKey : generateFingerprint publicKey ≠ "".
Proof.
  destruct (decide (length publicKey < 8)%nat) as [Hlen|Hlen].
  - unfold generateFingerprint. by rewrite decide_True.
  - rewrite generateFingerprint_letters by lia.
    destruct publicKey as [|b rest]; [simpl in Hlen; lia|]. done.
Qed.

(** X22: the fingerprint of a user with a public key of eight bytes or more
    is eight lower-case letters, the letter ['a' + b mod 26] for each of the
    first eight bytes [b]; so two keys have the same fingerprint exactly when
    their first eight bytes agree modulo 26. *)
Theorem user_generateFingerprint_letters (publicKey publicKey' : bytes) :
  (8 ≤ length publicKey)%nat → (8 ≤ length publicKey')%nat →
  String.length (generateFingerprint publicKey) = 8%nat
  ∧ Forall is_lower_letter (list_ascii_of_string (generateFingerprint publicKey))
  ∧ generateFingerprint publicKey
    = string_of_list_ascii (map fingerprint_letter (take 8 publicKey))
  ∧ (generateFingerprint publicKey = generateFingerprint publicKey'
     ↔ map (λ b, Byte.to_N b mod 26)%N (take 8 publicKey)
       = map (λ b, Byte.to_N b mod 26)%N (take 8 publicKey')).
Proof.
  intros Hlen Hlen'. rewrite !generateFingerprint_letters by done.
  split; [|split; [|split; [done|]]].
  - rewrite length_string_of_list_ascii, length_map, length_take. lia.
  - rewrite list_ascii_of_string_of_list_ascii.
    apply Forall_map, Forall_forall. intros b _. unfold is_lower_letter.
    rewrite fingerprint_letter_code.
    assert (Byte.to_N b mod 26 < 26)%N by (apply N.mod_upper_bound; lia).
    generalize dependent (Byte.to_N b mod 26)%N. intros d Hd. lia.
  - split.
    + intros Heq. apply (f_equal list_ascii_of_string) in Heq.
      rewrite !list_ascii_of_string_of_list_ascii in Heq.
      apply (f_equal (map Ascii.N_of_ascii)) in Heq. rewrite !map_map in Heq.
      revert Heq. generalize (take 8 publicKey) (take 8 publicKey').
      induction l as [|b l IH]; intros [|b' l']; simpl; try done.
      rewrite !fingerprint_letter_code. intros [= Hb Hl].
      f_equal; [lia|by apply IH].
    + intros Heq. f_equal. revert Heq.
      generalize (take 8 publicKey) (take 8 publicKey').
      induction l as [|b l IH]; intros [|b' l']; simpl; try done.
      intros [= Hb Hl]. f_equal; [|by apply IH].
      unfold fingerprint_letter. by rewrite Hb.
Qed.

(** X23: on a fingerprint that is not empty [formatSafetyNumber] returns
    twelve groups of five decimal digits joined by single spaces (71
    characters); the digit at position [k] is the code of the character
    [k mod len] of the fingerprint, modulo 10. *)
Theorem formatSafetyNumber_groups (fingerprint : string) :
  fingerprint ≠ "" →
  ∃ groups : list string,
    formatSafetyNumber fingerprint = Ok (String.concat " " groups)
    ∧ length groups = 12%nat
    ∧ Forall is_group groups
    ∧ String.length (String.concat " " groups) = 71%nat
    ∧ String.concat " " groups = fingerprint_render fingerprint.
Proof.
  intros Hne. rewrite formatSafetyNumber_render by done.
  exists (map (fingerprint_group fingerprint) (seq 0 12)).
  split; [reflexivity|]. split; [reflexivity|]. split; [|split; reflexivity].
  apply Forall_map, Forall_forall. intros i _.
  unfold is_group, fingerprint_group. rewrite list_ascii_of_string_of_list_ascii.
  split; [reflexivity|].
  apply Forall_map, Forall_forall. intros. apply fingerprint_digit_is_digit.
Qed.

(** X24: which contacts have a safety number.  A contact made by
    [NewContact] from a user made by [NewUser] has one, whatever the public
    key: the one of the fingerprint of the key, and so the same one for all
    keys shorter than eight bytes.  The contact [AddContact] stores has an
    empty fingerprint, and [GetSafetyNumber] on it divides by zero. *)
Theorem GetSafetyNumber_of_contacts :
  (∀ id displayName publicKey now now',
     GetSafetyNumber (NewContact (NewUser id displayName publicKey now) now')
     = Ok (fingerprint_render (generateFingerprint publicKey)))
  ∧ (∀ id displayName publicKey now now',
       (length publicKey < 8)%nat →
       GetSafetyNumber (NewContact (NewUser id displayName publicKey now) now')
       = Ok (fingerprint_render "invalid"))
  ∧ ∀ userID displayName addedAt updatedAt,
      GetSafetyNumber (core.AddContact_contact userID displayName addedAt updatedAt)
      = Panic "runtime error: integer divide by zero".
Proof.
  split; [|split].
  - intros. apply formatSafetyNumber_render, generateFingerprint_nonempty.
  - intros id displayName publicKey now now' Hlen.
    unfold GetSafetyNumber, NewContact, NewUser. cbn [Contact_Fingerprint Fingerprint].
    unfold generateFingerprint. rewrite decide_True by done.
    by apply formatSafetyNumber_render.
  - reflexivity.
Qed.
End contacts.

(** ** core: chat IDs *)

Lemma string_ltb_asym (a b : string) : string_ltb a b = true → string_ltb b a = false.
Proof. apply bytes_ltb_asym. Qed.

Lemma string_ltb_total (a b : string) :
  string_ltb a b = false → string_ltb b a = false → a = b.
Proof.
  intros Hab Hba.
  rewrite <- (string_of_list_byte_of_string a), <- (string_of_list_byte_of_string b).
  f_equal. by apply bytes_ltb_total.
Qed.

(** X25: the chat ID does not depend on the order of the two users, so the
    ID under which a received message is filed ([From], [To]) is the one the
    receiver asks for (own ID, other ID); and it is "chat_", the smaller ID,
    "_", the larger ID. *)
Theorem getChatID_symmetric (user1 user2 : string) :
  core.getChatID user1 user2 = core.getChatID user2 user1
  ∧ ((string_ltb user2 user1 = false →
      core.getChatID user1 user2 = "chat_" +:+ user1 +:+ "_" +:+ user2)
     ∧ (string_ltb user2 user1 = true →
        core.getChatID user1 user2 = "chat_" +:+ user2 +:+ "_" +:+ user1)).
Proof.
  unfold core.getChatID.
  destruct (string_ltb user1 user2) eqn:H12, (string_ltb user2 user1) eqn:H21;
    try (split; [done|split; done]).
  - apply string_ltb_asym in H12. congruence.
  - by rewrite (string_ltb_total user1 user2).
Qed.

(** X26: chat IDs do not tell pairs of users apart when user IDs may hold an
    underscore: the pair ([a_b], [c]) and the pair ([a], [b_c]) get the same
    chat ID. *)
Theorem getChatID_underscore (a b c : string) :
  string_ltb (a +:+ "_" +:+ b) c = true →
  string_ltb a (b +:+ "_" +:+ c) = true →
  core.getChatID (a +:+ "_" +:+ b) c = core.getChatID a (b +:+ "_" +:+ c).
Proof.
  intros H1 H2. unfold core.getChatID. rewrite H1, H2.
  by rewrite !string_app_assoc.
Qed.

(** ** client.go: sending and reconnecting *)

Section client_more.
Import network.

(** X27: [SendMessage] and [connMutex].  [Connect], [Disconnect] and
    [handleConnectionError] keep a client marked connected only while
    [connMutex] is held, which is so of a client made by [NewClient]; and
    while the lock is held [SendMessage] does not return.  So on a client in
    such a state [SendMessage] either blocks or returns "not connected", and
    the outgoing queue is as it was: it queues nothing.  Only on a client
    marked connected with the lock free, a state these methods do not lead
    to, does the call reach the queue: with the queue open and the context
    not done it appends a message that carries the client's own user id as
    [From], the destination, the type and the content, and returns no error
    when the queue has room, and returns "outgoing message queue is full"
    when it has none. *)
Theorem SendMessage_outcome opts env connMutex c outgoing ctx_done to content msgType msgID
    now pick_send :
  outbox.connected_is_locked outbox.Free (NewClient opts)
  ∧ (outbox.connected_is_locked connMutex c →
     outbox.connected_is_locked (outbox.Connect env connMutex c).1.2
       (outbox.Connect env connMutex c).1.1.2
     ∧ outbox.connected_is_locked (outbox.Disconnect connMutex c).1.2
         (outbox.Disconnect connMutex c).1.1.2
     ∧ outbox.connected_is_locked (outbox.handleConnectionError connMutex c).1.2
         (outbox.handleConnectionError connMutex c).1.1.2)
  ∧ (outbox.connected_is_locked connMutex c →
     outbox.SendMessage connMutex c outgoing ctx_done to content msgType msgID now pick_send
     = match connMutex with
       | outbox.WriteLocked => (Blocks, outgoing)
       | outbox.Free => (Returns (Err (errors_New "not connected")), outgoing)
       end)
  ∧ (connMutex = outbox.Free → isConnected c = true →
     closed outgoing = false → ctx_done = false →
     outbox.SendMessage connMutex c outgoing ctx_done to content msgType msgID now pick_send
     = if decide (length (buf outgoing) < cap outgoing)%nat
       then (Returns (Ok ()),
             {| buf :=
                  buf outgoing
                  ++ [ {| ID := msgID; Type_ := msgType; From := userID c; To := to;
                          Timestamp := now;
                          Payload := {[ "content" := VString content ]};
                          Signature := "" |} ];
                cap := cap outgoing; closed := false |})
       else (Returns (Err (errors_New "outgoing message queue is full")), outgoing)).
Proof.
  split; [done|]. split; [|split].
  - intros Hinv. unfold outbox.connected_is_locked in *.
    unfold outbox.Connect, outbox.Disconnect, outbox.handleConnectionError.
    destruct connMutex; [|done].
    assert (Hc : isConnected c = false).
    { destruct (isConnected c); [by specialize (Hinv eq_refl)|done]. }
    rewrite Hc. cbn [negb fst snd].
    destruct (Connect_effects env c) as [[-> _]|[e ->]]; cbn [fst snd];
      (split; [|split]); try done; intros; congruence.
  - intros Hinv. unfold outbox.SendMessage, outbox.IsConnected.
    destruct connMutex; [|done].
    destruct (isConnected c) eqn:Hconn; [|done].
    by specialize (Hinv Hconn).
  - intros -> Hconn Hcl Hctx. unfold outbox.SendMessage, outbox.IsConnected.
    rewrite Hconn, Hctx. simpl. unfold try_send. rewrite Hcl.
    by case_decide.
Qed.

Lemma reconnecting_attempts_S c first n :
  outbox.reconnecting_attempts c first (S n) =
  sendConnectionEvent ConnectionEventReconnecting
  :: timeAfter (reconnectWait (set_reconnectAttempts c (first + 1)))
  :: outbox.reconnecting_attempts (set_reconnectAttempts c (first + 1)) (first + 1) n.
Proof.
  unfold outbox.reconnecting_attempts.
  rewrite <- cons_seq, <- seq_shift. cbn [flat_map app].
  rewrite Z.add_0_r. do 3 f_equal.
  rewrite !flat_map_concat_map, map_map. f_equal.
  apply map_ext. intros i. unfold reconnectWait. cbn.
  replace (first + 1 + 1 + Z.of_nat i) with (first + 1 + Z.of_nat (S i)) by lia.
  reflexivity.
Qed.

Lemma attemptReconnection_loop_blocks env n fuel c :
  isConnected c = false →
  (∀ k, done_at_top env k = false) →
  (∀ k, done_in_wait env k = false) →
  - 2 ^ 63 ≤ reconnectAttempts c →
  reconnectAttempts c + Z.of_nat n < maxReconnectAttempts c →
  maxReconnectAttempts c < 2 ^ 63 →
  (∀ i, (i < n)%nat → dial_ok env (reconnectAttempts c + 1 + Z.of_nat i) = false) →
  dial_ok env (reconnectAttempts c + 1 + Z.of_nat n) = true →
  (n < fuel)%nat →
  attemptReconnection_loop fuel env c =
  (outbox.reconnecting_attempts c (reconnectAttempts c) n,
   {| isConnected := true; serverURL := serverURL c; userID := userID c;
      reconnectAttempts := 0; maxReconnectAttempts := maxReconnectAttempts c;
      reconnectDelay := reconnectDelay c |},
   Blocked).
Proof.
  intros Hconn Htop Hwait. revert fuel c Hconn.
  induction n as [|n IH]; intros fuel c Hconn Hlo Hn Hhi Hfail Hok Hfuel;
    (destruct fuel as [|fuel]; [lia|]); rewrite attemptReconnection_loop_turn;
    rewrite decide_True by lia; rewrite Htop; rewrite i64_small by lia; cbn zeta.
  - unfold Connect. cbn [isConnected set_reconnectAttempts reconnectAttempts].
    rewrite Hconn. rewrite Z.add_0_r in Hok. rewrite Hok. reflexivity.
  - destruct (Connect_fails env (set_reconnectAttempts c (reconnectAttempts c + 1)))
      as [e ->].
    { simpl. rewrite <- (Z.add_0_r (_ + 1)). apply (Hfail 0%nat). lia. }
    rewrite Hwait.
    rewrite (IH fuel (set_reconnectAttempts c (reconnectAttempts c + 1)));
      try done; simpl; try lia.
    + by rewrite reconnecting_attempts_S.
    + intros i Hi. replace (reconnectAttempts c + 1 + 1 + Z.of_nat i)
        with (reconnectAttempts c + 1 + Z.of_nat (S i)) by lia.
      apply Hfail. lia.
    + by replace (reconnectAttempts c + 1 + 1 + Z.of_nat n)
        with (reconnectAttempts c + 1 + Z.of_nat (S n)) by lia.
Qed.



(** X28: a dial that succeeds does not end the loop, it blocks it.  From a
    client that is not connected, with no cancellation, when the next [n]
    dials fail and the one after succeeds within the allowed attempts,
    [attemptReconnection] announces each attempt and waits after each failed
    one; in the last attempt [Connect] marks the client connected, sets the
    attempt counter back to 0 and sends the "connected" event, and then does
    not return: it waits for [connMutex], which it holds itself. *)
Theorem attemptReconnection_blocks_in_Connect env c n :
  isConnected c = false →
  (∀ k, done_at_top env k = false) →
  (∀ k, done_in_wait env k = false) →
  0 ≤ reconnectAttempts c →
  reconnectAttempts c + Z.of_nat n < maxReconnectAttempts c →
  maxReconnectAttempts c < 2 ^ 63 →
  (∀ i, (i < n)%nat → dial_ok env (reconnectAttempts c + 1 + Z.of_nat i) = false) →
  dial_ok env (reconnectAttempts c + 1 + Z.of_nat n) = true →
  attemptReconnection env c =
  (outbox.reconnecting_attempts c (reconnectAttempts c) n,
   {| isConnected := true; serverURL := serverURL c; userID := userID c;
      reconnectAttempts := 0; maxReconnectAttempts := maxReconnectAttempts c;
      reconnectDelay := reconnectDelay c |},
   Blocked)
  ∧ outbox.Connect env outbox.Free
      (set_reconnectAttempts c (reconnectAttempts c + 1 + Z.of_nat n))
    = ([sendConnectionEvent ConnectionEventConnected],
       {| isConnected := true; serverURL := serverURL c; userID := userID c;
          reconnectAttempts := 0; maxReconnectAttempts := maxReconnectAttempts c;
          reconnectDelay := reconnectDelay c |},
       outbox.WriteLocked, Blocks).
Proof.
  intros Hconn Htop Hwait Hlo Hn Hhi Hfail Hok. split.
  - unfold attemptReconnection.
    apply attemptReconnection_loop_blocks; try done; lia.
  - unfold outbox.Connect, Connect. simpl. by rewrite Hconn, Hok.
Qed.

End client_more.

(** * More of the code: the properties on concrete inputs *)

(** ** keys.go *)

Lemma generateFingerprint_16_hex_digits_witness :
  String.length (keys.generateFingerprint testdouble.prims trial.alice) = 16%nat
  ∧ Forall is_hex_digit
      (list_ascii_of_string (keys.generateFingerprint testdouble.prims trial.alice)).
Proof.
  destruct (generateFingerprint_16_hex_digits testdouble.prims trial.alice trial.bob)
    as (Hlen & Hhex & _).
  - apply testdouble_Sum256_length.
  - split; [exact Hlen|exact Hhex].
Defined.

Lemma GenerateIdentityKeyPair_Ok_witness :
  ∃ identity,
    keys.GenerateIdentityKeyPair testdouble.prims testsign.prims trial.tape
    = (Ok identity, drop 64 trial.tape)
    ∧ crypto.PrivateKey (crypto.ExchangeKey identity) = replicate 32 x62.
Proof.
  destruct (keys.GenerateIdentityKeyPair testdouble.prims testsign.prims trial.tape)
    as [r tape'] eqn:E.
  destruct r as [identity| |]; [|vm_compute in E; discriminate..].
  destruct (GenerateIdentityKeyPair_Ok testdouble.prims testsign.prims _ _ _ E)
    as (_ & -> & _ & Hpriv & _).
  exists identity. split; [reflexivity|]. rewrite Hpriv. reflexivity.
Defined.

Lemma GenerateIdentityKeyPair_short_entropy_witness :
  ∃ e,
    (keys.GenerateIdentityKeyPair testdouble.prims testsign.prims (replicate 40 x61)).1
    = Err (Errorf "failed to generate exchange private key" e).
Proof.
  destruct (GenerateIdentityKeyPair_short_entropy testdouble.prims testsign.prims
              (replicate 40 x61)) as [e He].
  - vm_compute. lia.
  - exists e. exact He.
Defined.

Lemma VerifyPreKey_GeneratePreKey_witness :
  ∃ identity tape1 prekey tape2,
    keys.GenerateIdentityKeyPair testdouble.prims testsign.prims trial.tape
    = (Ok identity, tape1)
    ∧ keys.GeneratePreKey testdouble.prims testsign.prims 7 identity tape1
      = (Ok prekey, tape2)
    ∧ keys.VerifyPreKey testsign.prims prekey
        (crypto.PublicKey (crypto.SigningKey identity)) = Ok true.
Proof.
  destruct (keys.GenerateIdentityKeyPair testdouble.prims testsign.prims trial.tape)
    as [r tape1] eqn:E1.
  destruct r as [identity| |]; [|vm_compute in E1; discriminate..].
  destruct (keys.GeneratePreKey testdouble.prims testsign.prims 7 identity tape1)
    as [r tape2] eqn:E2.
  destruct r as [prekey| |];
    [|exfalso; vm_compute in E1; injection E1 as <- <-; vm_compute in E2; discriminate..].
  exists identity, tape1, prekey, tape2. split; [reflexivity|]. split; [exact E2|].
  exact (VerifyPreKey_GeneratePreKey testdouble.prims testsign.prims _ _ _ _ _ _
           testsign_laws E1 E2).
Defined.

Lemma GeneratePreKey_bad_private_key_witness :
  (keys.GeneratePreKey testdouble.prims testsign.prims 7
     {| crypto.SigningKey :=
          {| crypto.PublicKey := replicate 32 x01; crypto.PrivateKey := replicate 32 x02 |};
        crypto.ExchangeKey := crypto.ExchangeKey trial.alice;
        crypto.Fingerprint := "" |} trial.tape).1
  = Panic "ed25519: bad private key length: 32".
Proof.
  apply GeneratePreKey_bad_private_key.
  - vm_compute. lia.
  - vm_compute. reflexivity.
  - vm_compute. lia.
Defined.

(** IDs that wrap: the two keys made from the start ID 2^32 - 1 have the IDs
    2^32 - 1 and 0. *)
Lemma GenerateOneTimeKeys_Ok_witness :
  ∃ keys tape',
    keys.GenerateOneTimeKeys testdouble.prims 4294967295 2 trial.tape = (Ok keys, tape')
    ∧ Z.of_nat (length keys) = 2
    ∧ keys.OneTimeKey_ID <$> keys !! 1%nat = Some 0.
Proof.
  destruct (keys.GenerateOneTimeKeys testdouble.prims 4294967295 2 trial.tape)
    as [r tape'] eqn:E.
  destruct r as [keys| |]; [|vm_compute in E; discriminate..].
  destruct (GenerateOneTimeKeys_Ok testdouble.prims _ _ _ _ _ E) as (_ & Hlen & _ & Hkeys).
  exists keys, tape'. split; [reflexivity|]. split; [exact Hlen|].
  destruct (keys !! 1%nat) as [key|] eqn:Hk.
  - destruct (Hkeys 1%nat key Hk) as [Hid _]. simpl. rewrite Hid. reflexivity.
  - exfalso. apply lookup_ge_None in Hk. lia.
Defined.

Lemma GenerateOneTimeKeys_IDs_distinct_witness :
  ∃ keys tape' first second,
    keys.GenerateOneTimeKeys testdouble.prims 4294967295 2 trial.tape = (Ok keys, tape')
    ∧ keys !! 0%nat = Some first ∧ keys !! 1%nat = Some second
    ∧ keys.OneTimeKey_ID first ≠ keys.OneTimeKey_ID second.
Proof.
  destruct (keys.GenerateOneTimeKeys testdouble.prims 4294967295 2 trial.tape)
    as [r tape'] eqn:E.
  destruct r as [keys| |]; [|vm_compute in E; discriminate..].
  destruct keys as [|first [|second rest]];
    [exfalso; vm_compute in E; discriminate..|].
  exists (first :: second :: rest), tape', first, second.
  split; [reflexivity|]. split; [reflexivity|]. split; [reflexivity|].
  apply (GenerateOneTimeKeys_IDs_distinct testdouble.prims _ _ _ _ _ 0%nat 1%nat _ _ E).
  - lia.
  - reflexivity.
  - reflexivity.
  - lia.
Defined.

Lemma GenerateOneTimeKeys_edges_witness :
  (∃ e, (keys.GenerateOneTimeKeys testdouble.prims 1 6 trial.tape).1 = Err e)
  ∧ keys.GenerateOneTimeKeys testdouble.prims 1 (2 ^ 62) trial.tape
    = (Panic "runtime error: makeslice: len out of range", trial.tape).
Proof.
  split.
  - destruct (GenerateOneTimeKeys_edges testdouble.prims 1 6 trial.tape) as (_ & _ & Hshort).
    apply Hshort; [lia|]. vm_compute. reflexivity.
  - destruct (GenerateOneTimeKeys_edges testdouble.prims 1 (2 ^ 62) trial.tape)
      as (_ & Hpanic & _).
    apply Hpanic. right. lia.
Defined.

(** ** encryption.go *)

Lemma NewDoubleRatchet_outcome_witness :
  is_Ok (crypto.NewDoubleRatchet testdouble.prims sample.sharedSecret sample.bob_public
           sample.alice_tape).1 = true.
Proof.
  destruct (NewDoubleRatchet_outcome testdouble.prims sample.sharedSecret sample.bob_public
              sample.alice_tape) as [[_ Hok] _].
  apply Hok. split; [vm_compute; lia|vm_compute; reflexivity].
Defined.

Lemma DecryptAll_EncryptAll_witness :
  ∃ msgs alice' tape' bob',
    conversation.EncryptAll testdouble.prims (sample.session 0) [sample.hi; sample.sharedSecret]
      (replicate 24 x44) = (Ok msgs, alice', tape')
    ∧ conversation.DecryptAll testdouble.prims peer.session msgs
      = (Ok [sample.hi; sample.sharedSecret], bob').
Proof.
  destruct (conversation.EncryptAll testdouble.prims (sample.session 0)
              [sample.hi; sample.sharedSecret] (replicate 24 x44))
    as [[r alice'] tape'] eqn:E.
  destruct r as [msgs| |]; [|vm_compute in E; discriminate..].
  destruct (DecryptAll_EncryptAll testdouble.prims (sample.session 0) peer.session
              _ _ msgs alice' tape' testdouble_laws eq_refl E) as (bob' & H & _).
  exists msgs, alice', tape', bob'. split; [reflexivity|exact H].
Defined.

Lemma Encrypt_without_entropy_advances_chain_witness :
  ∃ e dr',
    crypto.Encrypt testdouble.prims (sample.session 0) sample.hi (replicate 11 x44)
    = (Err (Errorf "failed to generate nonce" e), dr', replicate 11 x44)
    ∧ crypto.MessageNumber (crypto.SendingChain dr') = 1.
Proof.
  destruct (Encrypt_without_entropy_advances_chain testdouble.prims (sample.session 0)
              sample.hi (replicate 11 x44)) as (e & dr' & H & _ & Hn).
  - apply testdouble_Sum256_length.
  - vm_compute. lia.
  - exists e, dr'. split; [exact H|]. rewrite Hn. reflexivity.
Defined.

Lemma PerformDHRatchet_failure_keeps_session_witness :
  ∃ r tape',
    crypto.PerformDHRatchet testdouble.prims (sample.session 3) sample.bob_public
      (replicate 31 x55) = (r, sample.session 3, tape')
    ∧ r ≠ Ok ().
Proof.
  destruct (crypto.PerformDHRatchet testdouble.prims (sample.session 3) sample.bob_public
              (replicate 31 x55)) as [[r dr'] tape'] eqn:E.
  assert (Hr : r ≠ Ok ()).
  { intros ->. vm_compute in E. discriminate. }
  destruct (PerformDHRatchet_failure_keeps_session testdouble.prims _ _ _ _ _ _ E Hr)
    as [-> _].
  exists r, tape'. split; [reflexivity|exact Hr].
Defined.

Lemma SimpleEncrypt_round_trip_witness :
  ∃ msg tape',
    crypto.SimpleEncrypt testdouble.prims sample.hi sample.alice_key (replicate 12 x44)
    = (Ok msg, tape')
    ∧ crypto.SimpleDecrypt testdouble.prims msg sample.alice_key = Ok sample.hi.
Proof.
  destruct (crypto.SimpleEncrypt testdouble.prims sample.hi sample.alice_key
              (replicate 12 x44)) as [r tape'] eqn:E.
  destruct r as [msg| |]; [|vm_compute in E; discriminate..].
  destruct (SimpleEncrypt_round_trip testdouble.prims _ _ _ _ _ testdouble_laws E)
    as (H & _).
  exists msg, tape'. split; [reflexivity|exact H].
Defined.

Lemma Simple_bad_key_length_witness :
  ∃ e,
    crypto.SimpleEncrypt testdouble.prims sample.hi (replicate 31 x11) (replicate 12 x44)
    = (Err (Errorf "failed to create AEAD cipher" e), replicate 12 x44).
Proof.
  destruct (Simple_bad_key_length testdouble.prims sample.hi forged.message
              (replicate 31 x11) (replicate 12 x44)) as (e & H & _).
  - vm_compute. lia.
  - exists e. exact H.
Defined.

Lemma Decrypt_malformed_message_witness :
  crypto.Decrypt testdouble.prims (sample.session 0)
    {| crypto.Ciphertext := replicate 20 x00; crypto.Nonce := replicate 11 x44;
       crypto.Tag := [] |} 0
  = (Panic "chacha20poly1305: bad nonce length passed to Open", sample.session 0).
Proof.
  destruct (Decrypt_malformed_message testdouble.prims (sample.session 0)
              {| crypto.Ciphertext := replicate 20 x00; crypto.Nonce := replicate 11 x44;
                 crypto.Tag := [] |} 0) as [Hpanic _].
  - apply testdouble_Sum256_length.
  - apply Hpanic. vm_compute. lia.
Defined.

(** ** server.go *)

(** The broker after alice and bob have connected and said hello. *)
Lemma both_greeted_state :
  ∃ s alice bob,
    run network.NewServer trial.both_greeted = Ok s
    ∧ network.range_clients s trial.table
    ∧ network.heap s !! 1%positive = Some alice
    ∧ network.heap s !! 2%positive = Some bob
    ∧ network.UserID alice = "alice"
    ∧ (∀ id, network.clients s !! id = Some 1%positive → id = network.ClientID alice)
    ∧ map network.Type_ (network.buf (network.Send bob)) = ["server_hello"]
    ∧ network.cap (network.Send bob) = 256%nat
    ∧ network.closed (network.Send bob) = false
    ∧ network.messageQueue s = network.make_chan 1000
    ∧ only_client_of s 2%positive "bob".
Proof.
  destruct (reachable_run network.NewServer trial.both_greeted) as (s & Hrun & _).
  { constructor. }
  { vm_compute. repeat split. }
  exists s. vm_compute in Hrun. injection Hrun as <-.
  do 2 eexists. split; [vm_compute; reflexivity|].
  split; [vm_compute; reflexivity|].
  split; [vm_compute; reflexivity|]. split; [vm_compute; reflexivity|].
  split; [reflexivity|].
  split.
  { intros id Hid. apply elem_of_map_to_list in Hid. vm_compute in Hid.
    apply elem_of_cons in Hid as [[= ->]|Hid]; [reflexivity|].
    apply elem_of_cons in Hid as [[=]|Hid]. by apply elem_of_nil in Hid. }
  split; [reflexivity|]. split; [reflexivity|]. split; [reflexivity|].
  split; [reflexivity|].
  split.
  - exists "client_2". eexists. split; [vm_compute; reflexivity|].
    split; [vm_compute; reflexivity|]. reflexivity.
  - intros id c client Hid Hc Hu.
    apply elem_of_map_to_list in Hid. vm_compute in Hid.
    apply elem_of_cons in Hid as [[= -> ->]|Hid].
    + vm_compute in Hc. injection Hc as <-. simpl in Hu. discriminate.
    + apply elem_of_cons in Hid as [[= -> ->]|Hid]; [reflexivity|].
      by apply elem_of_nil in Hid.
Qed.

(** The same, after alice has sent a chat message for bob. *)
Lemma chat_queued_state :
  ∃ s bob routedMsg,
    run network.NewServer trial.chat_queued = Ok s
    ∧ network.range_clients s trial.table
    ∧ network.heap s !! 2%positive = Some bob
    ∧ map network.Type_ (network.buf (network.Send bob)) = ["server_hello"]
    ∧ network.cap (network.Send bob) = 256%nat
    ∧ network.closed (network.Send bob) = false
    ∧ network.buf (network.messageQueue s) = [routedMsg]
    ∧ network.RoutedTo routedMsg = "bob"
    ∧ network.RoutedMsg routedMsg = wire.chat "alice" "bob"
    ∧ only_client_of s 2%positive "bob".
Proof.
  destruct (reachable_run network.NewServer trial.chat_queued) as (s & Hrun & _).
  { constructor. }
  { vm_compute. repeat split. }
  exists s. vm_compute in Hrun. injection Hrun as <-.
  do 2 eexists. split; [vm_compute; reflexivity|].
  split; [vm_compute; reflexivity|].
  split; [vm_compute; reflexivity|].
  split; [reflexivity|]. split; [reflexivity|]. split; [reflexivity|].
  split; [reflexivity|]. split; [reflexivity|].
  split; [vm_compute; reflexivity|].
  split.
  - exists "client_2". eexists. split; [vm_compute; reflexivity|].
    split; [vm_compute; reflexivity|]. reflexivity.
  - intros id c client Hid Hc Hu.
    apply elem_of_map_to_list in Hid. vm_compute in Hid.
    apply elem_of_cons in Hid as [[= -> ->]|Hid].
    + vm_compute in Hc. injection Hc as <-. simpl in Hu. discriminate.
    + apply elem_of_cons in Hid as [[= -> ->]|Hid]; [reflexivity|].
      by apply elem_of_nil in Hid.
Qed.

Lemma messageRouter_step_delivers_witness :
  ∃ s s' bob,
    run network.NewServer trial.chat_queued = Ok s
    ∧ network.messageRouter_step s trial.table = Ok s'
    ∧ network.heap s' !! 2%positive = Some bob
    ∧ map network.Type_ (network.buf (network.Send bob)) = ["server_hello"; "chat"].
Proof.
  destruct chat_queued_state
    as (s & bob & routedMsg & Hrun & Hrange & Hbob & Hqueue & Hcap & Hcl & Hbuf & Hto
        & Hmsg & Honly).
  pose proof (messageRouter_step_delivers s trial.table routedMsg [] 2%positive bob) as Hres.
  rewrite Hcl in Hres.
  destruct Hres as (s' & Hstep & _ & _ & _ & Hres).
  - exact Hrange.
  - exact Hbuf.
  - rewrite Hto. exact Honly.
  - exact Hbob.
  - assert (Hlen : length (network.buf (network.Send bob)) = 1%nat).
    { rewrite <- (length_map network.Type_ (network.buf (network.Send bob))), Hqueue.
      reflexivity. }
    rewrite decide_True in Hres by lia. destruct Hres as [Hheap _].
    exists s, s'. eexists. split; [exact Hrun|]. split; [exact Hstep|].
    split; [exact Hheap|]. simpl. rewrite map_app, Hqueue, Hmsg. reflexivity.
Defined.

Lemma readMessages_message_frame_witness :
  ∃ s s',
    run network.NewServer trial.both_greeted = Ok s
    ∧ network.readMessages_message s 1%positive
        {| network.ID := "msg_presence"; network.Type_ := "presence";
           network.From := "alice"; network.To := ""; network.Timestamp := 1700000002;
           network.Payload := ∅; network.Signature := "" |} "msg_3" 104 = Ok s'
    ∧ network.heap s' !! 2%positive = network.heap s !! 2%positive
    ∧ network.messageQueue s' = network.messageQueue s.
Proof.
  destruct both_greeted_state as (s & alice & _ & Hrun & _ & Halice & _).
  exists s.
  destruct (network.readMessages_message s 1%positive
              {| network.ID := "msg_presence"; network.Type_ := "presence";
                 network.From := "alice"; network.To := ""; network.Timestamp := 1700000002;
                 network.Payload := ∅; network.Signature := "" |} "msg_3" 104)
    as [s'| |] eqn:Hstep;
    [|exfalso; vm_compute in Hrun; injection Hrun as <-; vm_compute in Hstep;
      discriminate..].
  destruct (readMessages_message_frame _ _ _ _ _ _ Hstep) as (_ & Hother & Hpresence).
  exists s'. split; [exact Hrun|]. split; [reflexivity|].
  split; [apply Hother; lia|].
  destruct Hpresence as (client & _ & ->); [discriminate|discriminate|reflexivity].
Defined.

(** Alice's connection sends a chat message that names mallory as its
    sender: bob's queue receives it as it is. *)
Lemma chat_is_forwarded_unchanged_witness :
  ∃ s s1 s' bob,
    run network.NewServer trial.both_greeted = Ok s
    ∧ network.readMessages_turn s 1%positive
        (network.Frame 200 (Some (wire.chat "mallory" "bob"))) "msg_3" 104 = Ok s1
    ∧ network.messageRouter_step s1 trial.table = Ok s'
    ∧ network.heap s' !! 2%positive = Some bob
    ∧ network.From <$> last (network.buf (network.Send bob)) = Some "mallory".
Proof.
  destruct both_greeted_state
    as (s & alice & bob & Hrun & Hrange & Halice & Hbob & _ & _ & Hqueue & Hcap & Hcl
        & Hq & Honly).
  destruct (chat_is_forwarded_unchanged s 1%positive alice 200 (wire.chat "mallory" "bob")
              "msg_3" 104 trial.table 2%positive bob)
    as [(s1 & s' & bob' & Hturn & Hroute & Hbob' & Hbuf & _) _].
  - exact Halice.
  - lia.
  - reflexivity.
  - discriminate.
  - rewrite Hq. reflexivity.
  - rewrite Hq. reflexivity.
  - rewrite Hq. simpl. lia.
  - exact Hrange.
  - exact Honly.
  - exact Hbob.
  - exact Hcl.
  - rewrite <- (length_map network.Type_ (network.buf (network.Send bob))), Hqueue, Hcap.
    simpl. lia.
  - exists s, s1, s', bob'. split; [exact Hrun|]. split; [exact Hturn|].
    split; [exact Hroute|]. split; [exact Hbob'|]. rewrite Hbuf, last_snoc. reflexivity.
Defined.

Lemma readMessages_exit_unregisters_witness :
  ∃ s s',
    run network.NewServer trial.both_greeted = Ok s
    ∧ network.readMessages_exit s 1%positive = Ok s'
    ∧ network.findClientByUserID s trial.table "alice" = Some 1%positive
    ∧ ∀ iteration,
        network.range_clients s' iteration →
        network.findClientByUserID s' iteration "alice" ≠ Some 1%positive.
Proof.
  destruct both_greeted_state
    as (s & alice & _ & Hrun & _ & Halice & _ & Huser & Hkey & _).
  exists s.
  destruct (network.readMessages_exit s 1%positive) as [s'| |] eqn:Hexit;
    [|exfalso; vm_compute in Hrun; injection Hrun as <-; vm_compute in Hexit;
      discriminate..].
  destruct (readMessages_exit_unregisters s 1%positive) as [Hregistered _].
  destruct (Hregistered alice s' Halice Hkey Hexit) as (_ & _ & Hfind).
  exists s'. split; [exact Hrun|]. split; [reflexivity|]. split.
  - unfold network.findClientByUserID. simpl. rewrite Halice, Huser. reflexivity.
  - intros iteration. apply Hfind.
Defined.

(** ** user.go and core *)

(** Two keys whose bytes differ by 26 have the fingerprint "aaaaaaaa". *)
Lemma user_generateFingerprint_letters_witness :
  models.generateFingerprint (replicate 8 x00) = "aaaaaaaa"
  ∧ models.generateFingerprint (replicate 8 x00) = models.generateFingerprint (replicate 9 x1a).
Proof.
  destruct (user_generateFingerprint_letters (replicate 8 x00) (replicate 9 x1a))
    as (_ & _ & Hletters & Hsame).
  - vm_compute. lia.
  - vm_compute. lia.
  - split; [rewrite Hletters; reflexivity|]. apply Hsame. reflexivity.
Defined.

Lemma formatSafetyNumber_groups_witness :
  models.formatSafetyNumber "invalid"
  = Ok "50878 50508 78505 08785 05087 85050 87850 50878 50508 78505 08785 05087".
Proof.
  destruct (formatSafetyNumber_groups "invalid") as (groups & Hfmt & _ & _ & _ & Hrender).
  - discriminate.
  - rewrite Hfmt, Hrender. reflexivity.
Defined.

Lemma GetSafetyNumber_of_contacts_witness :
  models.GetSafetyNumber
    (models.NewContact (models.NewUser "bob" "Bob" (replicate 7 x07) 100) 101)
  = Ok (fingerprint_render "invalid").
Proof.
  destruct GetSafetyNumber_of_contacts as (_ & Hshort & _).
  apply Hshort. vm_compute. lia.
Defined.

Lemma getChatID_symmetric_witness :
  core.getChatID "bob" "alice" = "chat_alice_bob".
Proof.
  destruct (getChatID_symmetric "bob" "alice") as (_ & _ & Hgt).
  rewrite Hgt; reflexivity.
Defined.

Lemma getChatID_underscore_witness :
  core.getChatID "a_b" "c" = core.getChatID "a" "b_c".
Proof.
  apply (getChatID_underscore "a" "b" "c"); reflexivity.
Defined.

(** ** client.go *)

Lemma SendMessage_outcome_witness :
  outbox.SendMessage outbox.WriteLocked trial.online (network.make_chan 100) false "bob"
    "hello" "chat" "msg_1" 1700000003 true
  = (network.Blocks, network.make_chan 100).
Proof.
  destruct (SendMessage_outcome wire.default_options trial.third_dial_answers
              outbox.WriteLocked trial.online (network.make_chan 100) false "bob" "hello"
              "chat" "msg_1" 1700000003 true) as (_ & _ & Hqueues_nothing & _).
  apply Hqueues_nothing. intros _. reflexivity.
Defined.

Lemma attemptReconnection_blocks_in_Connect_witness :
  ∃ c',
    network.attemptReconnection trial.third_dial_answers
      (network.NewClient wire.default_options)
    = ([ network.sendConnectionEvent network.ConnectionEventReconnecting;
         network.timeAfter (5 * network.Second);
         network.sendConnectionEvent network.ConnectionEventReconnecting;
         network.timeAfter (10 * network.Second);
         network.sendConnectionEvent network.ConnectionEventReconnecting;
         network.sendConnectionEvent network.ConnectionEventConnected ],
       c', network.Blocked)
    ∧ network.isConnected c' = true
    ∧ network.reconnectAttempts c' = 0.
Proof.
  destruct (attemptReconnection_blocks_in_Connect trial.third_dial_answers
              (network.NewClient wire.default_options) 2) as [Hrun _].
  - reflexivity.
  - intros k. reflexivity.
  - intros k. reflexivity.
  - vm_compute. discriminate.
  - vm_compute. reflexivity.
  - vm_compute. reflexivity.
  - intros i Hi. destruct i as [|[|i]]; [reflexivity|reflexivity|lia].
  - reflexivity.
  - eexists. split; [rewrite Hrun; reflexivity|]. split; reflexivity.
Defined.

